(** * AgentBus: a file-backed message bus with per-reader cursors

    A shallow embedding of [agentbus.py] and the properties of its bus
    operations: sending, reading the whole channel, reading what is unread
    for one agent, and advancing an agent's cursor.

    Conventions of the embedding.
    - A Python [str] is a [string]; a character is a code point below 256,
      so [String.length] is Python's [len] and [String.compare] is Python's
      ordering of strings.
    - A decoded JSON document is a [value].  Arrays and fractional numbers
      are not represented: no function of the program builds or inspects
      one, and as sort keys they would need Python's full ordering.
    - A file is represented by what [json.load] makes of its text, so that
      [json.dumps] followed by [json.load] is the identity.  File operations
      themselves are taken to succeed; the messages directory exists, as
      [ensure_dirs] arranges before every command.
    - A raising computation returns [Raise e]; a computation that writes
      files threads the [store]. *)

From Stdlib Require Import String Ascii ZArith List Bool Lia.
From Stdlib Require Import Permutation Sorted OrdersEx.
Import ListNotations.

Local Open Scope string_scope.
Local Open Scope Z_scope.

(* ------------------------------------------------------------------ *)
(** ** Exceptions *)

Inductive exn : Type :=
| ValueError (msg : string)
| KeyError (key : string)
| TypeError
| AttributeError
| OSError.

Inductive result (A : Type) : Type :=
| Ok (a : A)
| Raise (e : exn).

Arguments Ok {A} a.
Arguments Raise {A} e.

Definition bind {A B : Type} (r : result A) (k : A -> result B) : result B :=
  match r with
  | Ok a => k a
  | Raise e => Raise e
  end.

Notation "x <- r ;; k" := (bind r (fun x => k))
  (at level 61, r at next level, right associativity).

(** [try: r except Exception: d] *)
Definition try_except {A : Type} (r : result A) (d : A) : A :=
  match r with
  | Ok a => a
  | Raise _ => d
  end.

Fixpoint mapM {A B : Type} (f : A -> result B) (l : list A) : result (list B) :=
  match l with
  | [] => Ok []
  | x :: l' => y <- f x ;; ys <- mapM f l' ;; Ok (y :: ys)
  end.

(** A list comprehension [[x for x in l if p(x)]] whose test may raise. *)
Fixpoint filterM {A : Type} (p : A -> result bool) (l : list A) : result (list A) :=
  match l with
  | [] => Ok []
  | x :: l' => b <- p x ;; r <- filterM p l' ;; Ok (if b then x :: r else r)
  end.

(* ------------------------------------------------------------------ *)
(** ** Strings *)

Module Str.

(** [str.isspace] on one character (code points below 256). *)
Definition isspace (c : ascii) : bool :=
  let n := Z.of_N (N_of_ascii c) in
  ((9 <=? n) && (n <=? 13)) || ((28 <=? n) && (n <=? 32))
  || (n =? 133) || (n =? 160).

Fixpoint lstrip (s : string) : string :=
  match s with
  | EmptyString => EmptyString
  | String c s' => if isspace c then lstrip s' else s
  end.

Fixpoint rstrip (s : string) : string :=
  match s with
  | EmptyString => EmptyString
  | String c s' =>
      match rstrip s' with
      | EmptyString => if isspace c then EmptyString else String c EmptyString
      | r => String c r
      end
  end.

(** [s.strip()] *)
Definition strip (s : string) : string := rstrip (lstrip s).

(** [len(s)] *)
Definition len (s : string) : Z := Z.of_nat (String.length s).

(** [c in s] for a one-character [c] *)
Fixpoint contains (c : ascii) (s : string) : bool :=
  match s with
  | EmptyString => false
  | String d s' => Ascii.eqb c d || contains c s'
  end.

(** [s.replace(a, b)] for one-character [a] and [b] *)
Fixpoint replace (a b : ascii) (s : string) : string :=
  match s with
  | EmptyString => EmptyString
  | String c s' => String (if Ascii.eqb c a then b else c) (replace a b s')
  end.

(** [s.endswith(suffix)] *)
Definition endswith (s suffix : string) : bool :=
  let n := String.length s in
  let k := String.length suffix in
  (k <=? n)%nat && String.eqb (substring (n - k) k s) suffix.

Fixpoint all_space (s : string) : bool :=
  match s with
  | EmptyString => true
  | String c s' => isspace c && all_space s'
  end.

Definition first_char (s : string) : option ascii :=
  match s with
  | EmptyString => None
  | String c _ => Some c
  end.

Fixpoint last_char (s : string) : option ascii :=
  match s with
  | EmptyString => None
  | String c EmptyString => Some c
  | String _ s' => last_char s'
  end.

Definition opt_space (o : option ascii) : bool :=
  match o with
  | Some c => isspace c
  | None => false
  end.

(** ["%0wd" % n] for [0 <= n < 10^w]: the [w] low decimal digits. *)
Definition digit (n : Z) : ascii := ascii_of_N (Z.to_N (48 + n mod 10)).

Fixpoint digits (w : nat) (n : Z) : string :=
  match w with
  | O => EmptyString
  | S w' => digits w' (n / 10) ++ String (digit n) EmptyString
  end.

End Str.

(* ------------------------------------------------------------------ *)
(** ** Decoded JSON documents, as Python values *)

#[warnings="-register-all"]
Inductive value : Type :=
| VNone
| VBool (b : bool)
| VInt (z : Z)
| VStr (s : string)
| VDict (items : list (string * value)).

Module Dict.

Definition t := list (string * value).

Fixpoint find (k : string) (d : t) : option value :=
  match d with
  | [] => None
  | (k', v) :: d' => if String.eqb k k' then Some v else find k d'
  end.

(** [d[k] = v] on a dict: an existing key keeps its place, a new one is
    added last. *)
Fixpoint set (k : string) (v : value) (d : t) : t :=
  match d with
  | [] => [(k, v)]
  | (k', v') :: d' =>
      if String.eqb k k' then (k, v) :: d' else (k', v') :: set k v d'
  end.

End Dict.

(** [o.get(k, default)] *)
Definition py_get (o : value) (k : string) (default : value) : result value :=
  match o with
  | VDict d => Ok (match Dict.find k d with Some v => v | None => default end)
  | _ => Raise AttributeError
  end.

(** [o[k]] for a string [k] *)
Definition py_getitem (o : value) (k : string) : result value :=
  match o with
  | VDict d => match Dict.find k d with Some v => Ok v | None => Raise (KeyError k) end
  | _ => Raise TypeError
  end.

(** [o[k] = v] for a string [k] *)
Definition py_setitem (o : value) (k : string) (v : value) : result value :=
  match o with
  | VDict d => Ok (VDict (Dict.set k v d))
  | _ => Raise TypeError
  end.

(** [a < b] on sort keys. *)
Definition py_lt (a b : value) : result bool :=
  match a, b with
  | VStr x, VStr y => Ok (String.ltb x y)
  | VInt x, VInt y => Ok (x <? y)
  | VInt x, VBool y => Ok (x <? Z.b2z y)
  | VBool x, VInt y => Ok (Z.b2z x <? y)
  | VBool x, VBool y => Ok (Z.b2z x <? Z.b2z y)
  | _, _ => Raise TypeError
  end.

(** [list.sort(key=...)]: a stable sort of the records decorated with their
    keys, using only [<] on keys; a comparison that raises aborts it. *)
Fixpoint insert_keyed (x : value * value) (l : list (value * value))
  : result (list (value * value)) :=
  match l with
  | [] => Ok [x]
  | y :: l' =>
      b <- py_lt (fst y) (fst x) ;;
      if b then r <- insert_keyed x l' ;; Ok (y :: r) else Ok (x :: l)
  end.

Fixpoint sort_keyed (l : list (value * value)) : result (list (value * value)) :=
  match l with
  | [] => Ok []
  | x :: l' => r <- sort_keyed l' ;; insert_keyed x r
  end.

Definition sort_by_key (key : value -> result value) (l : list value)
  : result (list value) :=
  keys <- mapM key l ;;
  r <- sort_keyed (combine keys l) ;;
  Ok (map snd r).

(** [list.sort()] on file names. *)
Fixpoint insert_name (x : string) (l : list string) : list string :=
  match l with
  | [] => [x]
  | y :: l' => if String.ltb y x then y :: insert_name x l' else x :: l
  end.

Definition sort_names (l : list string) : list string :=
  fold_right insert_name [] l.

(* ------------------------------------------------------------------ *)
(** ** datetime *)

Record datetime : Type := mkdt {
  year : Z; month : Z; day : Z;
  hour : Z; minute : Z; second : Z; microsecond : Z;
  utcoffset : option Z   (* microseconds east of UTC; [None]: naive *)
}.

Module DT.

Definition is_leap (y : Z) : bool :=
  (y mod 4 =? 0) && (negb (y mod 100 =? 0) || (y mod 400 =? 0)).

Definition days_before_year (y : Z) : Z :=
  let p := y - 1 in p * 365 + p / 4 - p / 100 + p / 400.

Definition days_in_month (y m : Z) : Z :=
  if m =? 2 then (if is_leap y then 29 else 28)
  else if (m =? 4) || (m =? 6) || (m =? 9) || (m =? 11) then 30 else 31.

Definition days_before_month (y m : Z) : Z :=
  fold_right Z.add 0 (map (days_in_month y) (map Z.of_nat (seq 1 (Z.to_nat (m - 1))))).

Definition ordinal (d : datetime) : Z :=
  days_before_year (year d) + days_before_month (year d) (month d) + day d.

(** Microseconds of the fields since the start of day 0. *)
Definition stamp (d : datetime) : Z :=
  ((ordinal d * 86400 + hour d * 3600 + minute d * 60 + second d) * 1000000)
  + microsecond d.

(** [a > b]: naive datetimes compare by their fields, aware ones by the
    instant they denote; one of each cannot be ordered. *)
Definition gt (a b : datetime) : result bool :=
  match utcoffset a, utcoffset b with
  | None, None => Ok (stamp b <? stamp a)
  | Some oa, Some ob => Ok (stamp b - ob <? stamp a - oa)
  | _, _ => Raise TypeError
  end.

Definition offset_suffix (o : option Z) : string :=
  match o with
  | None => EmptyString
  | Some off =>
      let a := Z.abs off in
      let secs := (a / 1000000) mod 60 in
      let us := a mod 1000000 in
      (if off <? 0 then "-" else "+")
      ++ Str.digits 2 (a / 3600000000) ++ ":" ++ Str.digits 2 ((a / 60000000) mod 60)
      ++ (if (secs =? 0) && (us =? 0) then EmptyString
          else ":" ++ Str.digits 2 secs
               ++ (if us =? 0 then EmptyString else "." ++ Str.digits 6 us))
  end.

(** [d.isoformat(timespec="microseconds")] *)
Definition isoformat (d : datetime) : string :=
  Str.digits 4 (year d) ++ "-" ++ Str.digits 2 (month d) ++ "-" ++ Str.digits 2 (day d)
  ++ "T" ++ Str.digits 2 (hour d) ++ ":" ++ Str.digits 2 (minute d)
  ++ ":" ++ Str.digits 2 (second d) ++ "." ++ Str.digits 6 (microsecond d)
  ++ offset_suffix (utcoffset d).

(** A datetime in UTC, as [datetime.now(timezone.utc)] returns. *)
Definition utc (y mo d h mi s us : Z) : datetime := mkdt y mo d h mi s us (Some 0).

End DT.

(* ------------------------------------------------------------------ *)
(** ** The store: the [.agentbus] directory *)

(** What [json.load] makes of a file: [Corrupt] when it raises. *)
Inductive file : Type :=
| Corrupt
| Doc (v : value).

Inductive path : Type :=
| MessagePath (fn : string)   (* [os.path.join(MESSAGES_DIR, fn)] *)
| LAST_SEEN_FILE.

(** [messages_dir] lists the entries of [messages/] in the order in which
    [os.listdir] enumerates them; [journal] records every file written. *)
Record store : Type := mkstore {
  messages_dir : list (string * file);
  last_seen_file : option file;
  journal : list path
}.

Module Dir.

Fixpoint lookup (fn : string) (d : list (string * file)) : option file :=
  match d with
  | [] => None
  | (n, f) :: d' => if String.eqb fn n then Some f else lookup fn d'
  end.

(** Creating or replacing the entry [fn]. *)
Fixpoint put (fn : string) (f : file) (d : list (string * file)) : list (string * file) :=
  match d with
  | [] => [(fn, f)]
  | (n, g) :: d' => if String.eqb fn n then (fn, f) :: d' else (n, g) :: put fn f d'
  end.

End Dir.

(** Computations that write files. *)
Definition io (A : Type) : Type := store -> result A * store.

Definition ret {A : Type} (a : A) : io A := fun s => (Ok a, s).

Definition bind_io {A B : Type} (m : io A) (k : A -> io B) : io B :=
  fun s =>
    match m s with
    | (Ok a, s') => k a s'
    | (Raise e, s') => (Raise e, s')
    end.

Definition lift {A : Type} (r : result A) : io A := fun s => (r, s).

Definition reading {A : Type} (f : store -> A) : io A := fun s => (Ok (f s), s).

Notation "x <~ m ;; k" := (bind_io m (fun x => k))
  (at level 61, m at next level, right associativity).
Notation "m ;;; k" := (bind_io m (fun _ => k))
  (at level 61, right associativity).

Definition ensure_dirs : io unit :=
  fun s =>
    match last_seen_file s with
    | Some _ => (Ok tt, s)
    | None => (Ok tt, mkstore (messages_dir s) (Some (Doc (VDict [])))
                              (journal s ++ [LAST_SEEN_FILE]))
    end.

(** Write to a temporary file, then rename it over [p]. *)
Definition atomic_write (p : path) (data : value) : io unit :=
  fun s =>
    match p with
    | MessagePath fn =>
        (Ok tt, mkstore (Dir.put fn (Doc data) (messages_dir s)) (last_seen_file s)
                        (journal s ++ [p]))
    | LAST_SEEN_FILE =>
        (Ok tt, mkstore (messages_dir s) (Some (Doc data)) (journal s ++ [p]))
    end.

Definition listdir (s : store) : list string := map fst (messages_dir s).

Definition list_message_files (s : store) : list string :=
  sort_names (filter (fun f => Str.endswith f ".json") (listdir s)).

Definition read_message_file (fn : string) (s : store) : result value :=
  match Dir.lookup fn (messages_dir s) with
  | Some (Doc v) => Ok v
  | Some Corrupt => Raise (ValueError "JSONDecodeError")
  | None => Raise OSError
  end.

Definition unsafe_chars : list ascii :=
  ["/"%char; "\"%char; ascii_of_nat 0; ascii_of_nat 10; ascii_of_nat 13].

Definition validate_author (author : string) : result string :=
  if String.eqb author "" || String.eqb (Str.strip author) "" then
    Raise (ValueError "Author name cannot be empty")
  else
    let author := Str.strip author in
    if 100 <? Str.len author then
      Raise (ValueError "Author name too long (max 100 characters)")
    else if existsb (fun c => Str.contains c author) unsafe_chars then
      Raise (ValueError "Author name contains invalid characters")
    else Ok author.

Definition validate_message (content : string) : result string :=
  if String.eqb content "" || String.eqb (Str.strip content) "" then
    Raise (ValueError "Message content cannot be empty")
  else
    let content := Str.strip content in
    if 100000 <? Str.len content then
      Raise (ValueError "Message content too long (max 100,000 characters)")
    else Ok content.

Definition message_filename (timestamp author : string) : string :=
  Str.replace ":"%char "-"%char timestamp ++ "_" ++ author ++ ".json".

Definition make_message (author timestamp content : string) : value :=
  VDict [("author", VStr author); ("timestamp", VStr timestamp); ("content", VStr content)].

(** [now] is the reading of the clock, [datetime.now(timezone.utc)]. *)
Definition send_message (now : datetime) (author content : string) : io value :=
  author <~ lift (validate_author author) ;;
  content <~ lift (validate_message content) ;;
  let timestamp := DT.isoformat now in
  let filename := message_filename timestamp author in
  let message := make_message author timestamp content in
  atomic_write (MessagePath filename) message ;;;
  ret message.

Definition load_last_seen (s : store) : value :=
  match last_seen_file s with
  | Some (Doc v) => v
  | _ => VDict []
  end.

Definition save_last_seen (d : value) : io unit := atomic_write LAST_SEEN_FILE d.

Definition timestamp_key (m : value) : result value := py_get m "timestamp" (VStr "").

Definition read_all (s : store) : list value :=
  flat_map (fun fn => match read_message_file fn s with
                      | Ok m => [m]
                      | Raise _ => []   (* skip bad files *)
                      end)
           (list_message_files s).

Definition get_all_messages (s : store) : result (list value) :=
  sort_by_key timestamp_key (read_all s).

Definition update_last_seen (agent_name : string) (msgs : list value) : io unit :=
  match msgs with
  | [] => ret tt
  | _ =>
      last <~ lift (py_getitem (List.last msgs VNone) "timestamp") ;;
      last_seen <~ reading load_last_seen ;;
      last_seen <~ lift (py_setitem last_seen agent_name last) ;;
      save_last_seen last_seen
  end.

(** A dict key taken from a record; the keys that occur are strings. *)
Definition str_key (v : value) : result string :=
  match v with
  | VStr k => Ok k
  | _ => Raise TypeError
  end.

Definition cmd_send (now : datetime) (author message : string) : io value :=
  ensure_dirs ;;;
  message <~ send_message now author message ;;
  last_seen <~ reading load_last_seen ;;
  a <~ lift (py_getitem message "author") ;;
  a <~ lift (str_key a) ;;
  ts <~ lift (py_getitem message "timestamp") ;;
  last_seen <~ lift (py_setitem last_seen a ts) ;;
  save_last_seen last_seen ;;;
  ret message.

Section Bus.

(** [datetime.fromisoformat], [None] when it raises [ValueError]. *)
Variable fromisoformat : string -> option datetime.

Definition parse_iso (dt : value) : result datetime :=
  match dt with
  | VStr s =>
      match fromisoformat s with
      | Some d => Ok d
      | None => Raise (ValueError "Invalid isoformat string")
      end
  | _ => Raise TypeError
  end.

Definition newer_than (seen_dt : datetime) (m : value) : result bool :=
  t <- py_getitem m "timestamp" ;;
  d <- parse_iso t ;;
  DT.gt d seen_dt.

Definition get_unread_for (agent_name : string) (s : store) : result (list value) :=
  let last_seen := load_last_seen s in
  seen_ts <- py_get last_seen agent_name VNone ;;
  all_msgs <- get_all_messages s ;;
  match seen_ts with
  | VNone => Ok all_msgs
  | _ =>
      match try_except (d <- parse_iso seen_ts ;; Ok (Some d)) None with
      | None => Ok all_msgs
      | Some seen_dt => filterM (newer_than seen_dt) all_msgs
      end
  end.

(** [get-messages [--for NAME]]; an empty name counts as none given. *)
Definition cmd_get_messages (for_agent : option string) : io (list value) :=
  ensure_dirs ;;;
  match for_agent with
  | Some name =>
      if String.eqb name "" then (fun s => (get_all_messages s, s))
      else
        unread <~ (fun s => (get_unread_for name s, s)) ;;
        match unread with
        | [] => ret unread
        | _ => update_last_seen name unread ;;; ret unread
        end
  | None => fun s => (get_all_messages s, s)
  end.

End Bus.

(* ------------------------------------------------------------------ *)
(** ** An instance of [fromisoformat]

    The parser restricted to the strings that [isoformat] with microseconds
    emits: [YYYY-MM-DDTHH:MM:SS.ffffff], alone or followed by an offset
    [+HH:MM] or [-HH:MM].  On these it returns what
    [datetime.fromisoformat] returns; every other string is refused. *)

Module Iso.

Definition digit_val (c : ascii) : option Z :=
  let n := Z.of_N (N_of_ascii c) in
  if (48 <=? n) && (n <=? 57) then Some (n - 48) else None.

Fixpoint number_from (acc : Z) (s : string) : option Z :=
  match s with
  | EmptyString => Some acc
  | String c s' =>
      match digit_val c with
      | Some d => number_from (acc * 10 + d) s'
      | None => None
      end
  end.

Definition field (i n : nat) (s : string) : option Z :=
  number_from 0 (substring i n s).

Definition sep (i : nat) (c : ascii) (s : string) : bool :=
  match String.get i s with
  | Some d => Ascii.eqb c d
  | None => false
  end.

Definition within (lo x hi : Z) : bool := (lo <=? x) && (x <=? hi).

Definition obind {A B : Type} (o : option A) (k : A -> option B) : option B :=
  match o with
  | Some a => k a
  | None => None
  end.

Definition offset (s : string) : option (option Z) :=
  match String.length s with
  | 26%nat => Some None
  | 32%nat =>
      obind (field 27 2 s) (fun hh =>
      obind (field 30 2 s) (fun mm =>
      if sep 29 ":" s && within 0 hh 23 && within 0 mm 59 then
        let off := (hh * 60 + mm) * 60000000 in
        if sep 26 "+" s then Some (Some off)
        else if sep 26 "-" s then Some (Some (- off))
        else None
      else None))
  | _ => None
  end.

Definition parse (s : string) : option datetime :=
  obind (offset s) (fun tz =>
  obind (field 0 4 s) (fun y =>
  obind (field 5 2 s) (fun mo =>
  obind (field 8 2 s) (fun d =>
  obind (field 11 2 s) (fun h =>
  obind (field 14 2 s) (fun mi =>
  obind (field 17 2 s) (fun sc =>
  obind (field 20 6 s) (fun us =>
  if sep 4 "-" s && sep 7 "-" s && sep 10 "T" s && sep 13 ":" s && sep 16 ":" s
     && sep 19 "." s
     && within 1 y 9999 && within 1 mo 12 && within 1 d (DT.days_in_month y mo)
     && within 0 h 23 && within 0 mi 59 && within 0 sc 59
  then Some (mkdt y mo d h mi sc us tz)
  else None)))))))).

End Iso.

(* ------------------------------------------------------------------ *)
(** ** Vocabulary of the properties *)

(** The record [m] carries the text [x] as its timestamp. *)
Definition has_timestamp (m : value) (x : string) : Prop :=
  py_getitem m "timestamp" = Ok (VStr x).

(** Ascending order of timestamps, as texts. *)
Definition ts_le (a b : value) : Prop :=
  exists x y, has_timestamp a x /\ has_timestamp b y /\ String.leb x y = true.

Definition ts_lt (a b : value) : Prop :=
  exists x y, has_timestamp a x /\ has_timestamp b y /\ String.ltb x y = true.

(** The same order on the keys the sort uses, where a record without a
    timestamp counts as carrying the empty text. *)
Definition has_key (m : value) (x : string) : Prop :=
  timestamp_key m = Ok (VStr x).

Definition key_le (a b : value) : Prop :=
  exists x y, has_key a x /\ has_key b y /\ String.leb x y = true.

(** Records decorated with their sort keys, as the sort holds them. *)
Definition decorated (p : value * value) : Prop := timestamp_key (snd p) = Ok (fst p).

Definition text_keyed (p : value * value) : Prop := exists x, fst p = VStr x.

Definition pair_le (p q : value * value) : Prop :=
  exists x y, fst p = VStr x /\ fst q = VStr y /\ String.leb x y = true.

(** The timestamp text of a record, empty when it has none. *)
Definition ts_text (m : value) : string :=
  match py_getitem m "timestamp" with
  | Ok (VStr x) => x
  | _ => EmptyString
  end.

(** Every record carries a timestamp text. *)
Definition all_timestamped (l : list value) : Prop :=
  Forall (fun m => exists x, has_timestamp m x) l.

(** The records of the message files that parse, in listing order. *)
Definition parsable (s : store) : list value :=
  flat_map (fun e => match snd e with
                     | Doc v => if Str.endswith (fst e) ".json" then [v] else []
                     | Corrupt => []
                     end)
           (messages_dir s).

(** The instant a datetime denotes, in microseconds. *)
Definition instant (d : datetime) : Z :=
  DT.stamp d - match utcoffset d with Some o => o | None => 0 end.

Definition comparable (a b : datetime) : Prop :=
  utcoffset a = None <-> utcoffset b = None.

(** A datetime in UTC whose fields are in range, as the clock returns. *)
Definition valid_utc (d : datetime) : Prop :=
  utcoffset d = Some 0
  /\ 1 <= year d <= 9999 /\ 1 <= month d <= 12
  /\ 1 <= day d <= DT.days_in_month (year d) (month d)
  /\ 0 <= hour d < 24 /\ 0 <= minute d < 60 /\ 0 <= second d < 60
  /\ 0 <= microsecond d < 1000000.

(** The first comparison that is not [Eq]. *)
Fixpoint lex (cs : list comparison) : comparison :=
  match cs with
  | [] => Eq
  | Eq :: cs' => lex cs'
  | c :: _ => c
  end.

Definition fields_compare (a b : datetime) : comparison :=
  lex [year a ?= year b; month a ?= month b; day a ?= day b; hour a ?= hour b;
       minute a ?= minute b; second a ?= second b; microsecond a ?= microsecond b].

Section Dated.

Variable fromisoformat : string -> option datetime.

(** The timestamp of record [m] parses to the datetime [d]. *)
Definition dated (m : value) (d : datetime) : Prop :=
  exists x, has_timestamp m x /\ fromisoformat x = Some d.

(** The timestamp of [m] parses to an instant strictly after [t]. *)
Definition strictly_after (t : datetime) (m : value) : bool :=
  match py_getitem m "timestamp" with
  | Ok (VStr x) =>
      match fromisoformat x with
      | Some d => instant t <? instant d
      | None => false
      end
  | _ => false
  end.

(** Every record of [l] carries a timestamp that parses and can be
    compared with [t]. *)
Definition all_dated (t : datetime) (l : list value) : Prop :=
  Forall (fun m => exists d, dated m d /\ comparable d t) l.

(** Among the records of [l], all of which carry a timestamp that parses,
    the order of the texts agrees with the order of the instants: a record
    whose text is not above another's is not later than it. *)
Definition chronological (l : list value) : Prop :=
  Forall (fun m => exists d, dated m d) l
  /\ forall m1 m2 d1 d2,
      In m1 l -> In m2 l -> dated m1 d1 -> dated m2 d2 ->
      ts_le m1 m2 -> DT.gt d1 d2 = Ok false.

(** The registry entry of a reader gives no cursor: it is missing, or it
    is not the text of a timestamp. *)
Definition no_cursor (reg : Dict.t) (agent_name : string) : Prop :=
  Dict.find agent_name reg = None
  \/ exists v e, Dict.find agent_name reg = Some v /\ parse_iso fromisoformat v = Raise e.

(** The timestamp of [m] is the rendering of a UTC clock reading, as
    [send_message] writes it, and parses back to that reading. *)
Definition sent (m : value) : Prop :=
  exists d, valid_utc d
            /\ has_timestamp m (DT.isoformat d)
            /\ fromisoformat (DT.isoformat d) = Some d.

End Dated.

(** The constraints of the data model on an author and on a content. *)
Definition author_constraints (a : string) : Prop :=
  a <> "" /\ Str.len a <= 100 /\ Forall (fun c => Str.contains c a = false) unsafe_chars.

Definition content_constraints (c : string) : Prop :=
  c <> "" /\ Str.len c <= 100000.

(** [t] is [s] without its leading and trailing whitespace. *)
Definition trimmed_of (s t : string) : Prop :=
  exists pre post,
    s = pre ++ t ++ post
    /\ Str.all_space pre = true /\ Str.all_space post = true
    /\ Str.opt_space (Str.first_char t) = false
    /\ Str.opt_space (Str.last_char t) = false.

(* ------------------------------------------------------------------ *)
(** ** Sample data *)

Module Sample.

Definition t0 : datetime := DT.utc 2025 11 16 20 30 45 123456.
Definition t1 : datetime := DT.utc 2025 11 16 20 31 0 7.

Definition empty : store := mkstore [] None [].

Definition hello : value :=
  make_message "bob" "2025-11-16T20:30:45.123456+00:00" "hello".
Definition reply : value :=
  make_message "alice" "2025-11-16T20:31:00.000007+00:00" "reply".

Definition registry : Dict.t :=
  [("alice", VStr "2025-11-16T20:30:45.123456+00:00")].

(** Two messages, the later one listed first, and a file that does not
    parse. *)
Definition two : store :=
  mkstore [("2025-11-16T20-31-00.000007+00-00_alice.json", Doc reply);
           ("broken.json", Corrupt);
           ("2025-11-16T20-30-45.123456+00-00_bob.json", Doc hello)]
          (Some (Doc (VDict registry))) [].

(** The same files, enumerated in another order. *)
Definition two_relisted : store :=
  mkstore [("broken.json", Corrupt);
           ("2025-11-16T20-31-00.000007+00-00_alice.json", Doc reply);
           ("2025-11-16T20-30-45.123456+00-00_bob.json", Doc hello)]
          (Some (Doc (VDict registry))) [].

(** Authors that only pass validation once trimmed. *)
Definition bob_newline : string := "bob" ++ String (ascii_of_nat 10) EmptyString.
Definition padded : string :=
  " " ++ string_of_list_ascii (repeat "a"%char 100).
Definition spaced_bob : string := " bob".

(** A record without a timestamp, next to a reader whose cursor parses. *)
Definition undated : value :=
  VDict [("author", VStr "mallory"); ("content", VStr "x")].
Definition with_undated : store :=
  mkstore [("note.json", Doc undated)] (Some (Doc (VDict registry))) [].

(** A file whose document is a text, not an object, and two records whose
    timestamps are a number and a text. *)
Definition with_scalar : store :=
  mkstore [("note.json", Doc (VStr "oops"))] (Some (Doc (VDict []))) [].
Definition with_mixed : store :=
  mkstore [("a.json", Doc (VDict [("timestamp", VInt 5)]));
           ("b.json", Doc (VDict [("timestamp", VStr "x")]))]
          (Some (Doc (VDict []))) [].

(** A record whose timestamp is not a date. *)
Definition odd : value := make_message "mallory" "soon" "x".
Definition with_odd : store :=
  mkstore [("soon_mallory.json", Doc odd)] (Some (Doc (VDict []))) [].

(** Two records whose timestamps parse but carry different offsets, so
    that the earlier text is the later instant. *)
Definition new_year : value :=
  make_message "a" "2025-01-01T00:00:00.000000+00:00" "x".
Definition new_york : value :=
  make_message "b" "2024-12-31T23:00:00.000000-05:00" "y".
Definition with_offsets : store :=
  mkstore [("2025-01-01T00-00-00.000000+00-00_a.json", Doc new_year);
           ("2024-12-31T23-00-00.000000-05-00_b.json", Doc new_york)]
          (Some (Doc (VDict []))) [].

End Sample.

(* ------------------------------------------------------------------ *)
(** ** The tool layer: [agentbus_mcp.py]

    Each tool is run to its return value and its effect on the store; the
    progress notes it sends to the client through [ctx.info] are left out,
    as is what the commands print.  A [ToolError] built from a caught
    exception [e] keeps [e] itself where the source formats [str(e)] after
    the message. *)

Inductive tool_error : Type :=
| ToolError (msg : string) (cause : option exn).

Inductive tool_result (A : Type) : Type :=
| Returned (a : A)
| Failed (e : tool_error).

Arguments Returned {A} a.
Arguments Failed {A} e.

Definition tool (A : Type) : Type := store -> tool_result A * store.

(** [not s or not s.strip()] *)
Definition blank (s : string) : bool :=
  String.eqb s "" || String.eqb (Str.strip s) "".

(** [try: m except Exception as e: raise ToolError(f"{msg}{str(e)}")] *)
Definition guarded {A : Type} (msg : string) (m : io A) : tool A :=
  fun s =>
    match m s with
    | (Ok a, s') => (Returned a, s')
    | (Raise e, s') => (Failed (ToolError msg (Some e)), s')
    end.

Definition send_agent_message (now : datetime) (author message : string) : tool string :=
  fun s =>
    if blank author then
      (Failed (ToolError "Author name is required and cannot be empty" None), s)
    else if blank message then
      (Failed (ToolError "Message content is required and cannot be empty" None), s)
    else
      guarded "Failed to send message: "
        (ensure_dirs ;;;
         send_message now (Str.strip author) (Str.strip message) ;;;
         ret ("Message posted to development channel from " ++ author)) s.

(** [len(o)] *)
Definition py_len (o : value) : result Z :=
  match o with
  | VStr x => Ok (Str.len x)
  | VDict d => Ok (Z.of_nat (List.length d))
  | _ => Raise TypeError
  end.

Definition get_all_agent_messages : tool (list value) :=
  guarded "Failed to retrieve messages: "
    (ensure_dirs ;;; fun s => (get_all_messages s, s)).

Definition list_known_agents : tool value :=
  guarded "Failed to list agents: "
    (ensure_dirs ;;;
     last_seen <~ reading load_last_seen ;;
     agent_count <~ lift (py_len last_seen) ;;
     ret last_seen).

Section Tools.

Variable fromisoformat : string -> option datetime.

Definition get_agent_messages (for_agent : string) : tool (list value) :=
  fun s =>
    if blank for_agent then
      (Failed (ToolError "Agent name is required and cannot be empty" None), s)
    else
      let agent_name := Str.strip for_agent in
      guarded "Failed to retrieve messages: "
        (ensure_dirs ;;;
         unread <~ (fun s => (get_unread_for fromisoformat agent_name s, s)) ;;
         match unread with
         | [] => ret unread
         | _ => update_last_seen agent_name unread ;;; ret unread
         end) s.

End Tools.

(* ------------------------------------------------------------------ *)
(** ** Further vocabulary *)

(** A directory entry as [send_message] writes it at a clock reading in
    range: the file name and the record carry the same timestamp. *)
Definition written (e : string * file) : Prop :=
  exists d a c,
    valid_utc d
    /\ fst e = message_filename (DT.isoformat d) a
    /\ snd e = Doc (make_message a (DT.isoformat d) c).

(** The store without the directory entries whose name does not end in
    [.json]. *)
Definition only_json (s : store) : store :=
  mkstore (filter (fun e => Str.endswith (fst e) ".json") (messages_dir s))
          (last_seen_file s) (journal s).

(** The names under which the directory holds a file. *)
Definition names (s : store) : list string := map fst (messages_dir s).

(** Every cursor of the registry is the rendering of a clock reading in
    range. *)
Definition cursors_rendered (reg : Dict.t) : Prop :=
  forall k v, Dict.find k reg = Some v ->
              exists d, valid_utc d /\ v = VStr (DT.isoformat d).

(** What the commands keep true of a store: each name is listed once, every
    entry is a message as sending writes it, and the registry loads as a
    mapping of rendered clock readings. *)
Definition store_ok (s : store) : Prop :=
  NoDup (names s)
  /\ (forall e, In e (messages_dir s) -> written e)
  /\ exists reg, load_last_seen s = VDict reg /\ cursors_rendered reg.

Section Reach.

Variable fromisoformat : string -> option datetime.

(** The stores that the commands produce from an empty directory, the clock
    staying in range. *)
Inductive reachable : store -> Prop :=
| reach_empty : reachable (mkstore [] None [])
| reach_send (s : store) (now : datetime) (author message : string) :
    reachable s -> valid_utc now ->
    reachable (snd (cmd_send now author message s))
| reach_get_messages (s : store) (for_agent : option string) :
    reachable s ->
    reachable (snd (cmd_get_messages fromisoformat for_agent s)).

End Reach.

(** A computation that leaves the message files alone: it returns the
    directory it was given, and every message file its store records as
    written was written before it ran. *)
Definition keeps_messages {R : Type} (m : store -> R * store) : Prop :=
  forall s,
    messages_dir (snd (m s)) = messages_dir s
    /\ forall fn, In (MessagePath fn) (journal (snd (m s))) ->
                  In (MessagePath fn) (journal s).

Module More.

Definition t2 : datetime := DT.utc 2025 11 16 20 31 0 8.

(** The two sample messages under the names [send_message] gives them, next
    to a note and a temporary file. *)
Definition sent_store : store :=
  mkstore [("README", Corrupt);
           ("2025-11-16T20-31-00.000007+00-00_alice.json", Doc Sample.reply);
           ("tmpk3x9", Doc Sample.hello);
           ("2025-11-16T20-30-45.123456+00-00_bob.json", Doc Sample.hello)]
          (Some (Doc (VDict Sample.registry))) [].

Definition sent_only : store :=
  mkstore [("2025-11-16T20-31-00.000007+00-00_alice.json", Doc Sample.reply);
           ("2025-11-16T20-30-45.123456+00-00_bob.json", Doc Sample.hello)]
          (Some (Doc (VDict Sample.registry))) [].

(** Carol's send into the sample store. *)
Definition carol_hi : value :=
  make_message "carol" "2025-11-16T20:31:00.000008+00:00" "hi".
Definition after_carol : store :=
  Eval vm_compute in snd (send_message t2 " carol " " hi " Sample.two).

(** Carol sends twice within the same microsecond. *)
Definition carol_first : value :=
  make_message "carol" "2025-11-16T20:31:00.000008+00:00" "first".
Definition carol_second : value :=
  make_message "carol" "2025-11-16T20:31:00.000008+00:00" "second".
Definition after_first : store :=
  Eval vm_compute in snd (send_message t2 "carol" "first" Sample.empty).
Definition after_second : store :=
  Eval vm_compute in snd (send_message t2 " carol" "second" after_first).

(** Alice asks, then bob answers. *)
Definition question : value :=
  make_message "Alice" "2025-11-16T20:30:45.123456+00:00" "Question: X?".
Definition answer : value :=
  make_message "Bob" "2025-11-16T20:31:00.000007+00:00" "Answer: Y.".
Definition asked : store :=
  Eval vm_compute in snd (cmd_send Sample.t0 "Alice" "Question: X?" Sample.empty).
Definition answered : store :=
  Eval vm_compute in snd (cmd_send Sample.t1 "Bob" "Answer: Y." asked).

(** A registry file that holds a text, and one that does not parse. *)
Definition text_registry : store :=
  mkstore [] (Some (Doc (VStr "oops"))) [].
Definition corrupt_registry : store :=
  mkstore [] (Some Corrupt) [].

End More.

(** Stores whose registry holds cursors that parse. *)
Module Cursors.

(** The two sample messages, and a cursor for alice written without a UTC
    offset. *)
Definition naive_registry : Dict.t :=
  [("alice", VStr "2025-11-16T20:30:45.123456")].
Definition naive : store :=
  mkstore (messages_dir Sample.two) (Some (Doc (VDict naive_registry))) [].

(** The record stamped [soon], next to alice's sample cursor. *)
Definition stamped_soon : store :=
  mkstore (messages_dir Sample.with_odd) (Some (Doc (VDict Sample.registry))) [].

(** The two records with different offsets; the cursor of [r] lies between
    their instants and that of [q] before both. *)
Definition between : string := "2025-01-01T02:00:00.000000+00:00".
Definition before : string := "2024-01-01T00:00:00.000000+00:00".
Definition offsets : store :=
  mkstore (messages_dir Sample.with_offsets)
          (Some (Doc (VDict [("r", VStr between); ("q", VStr before)]))) [].

End Cursors.

(* ------------------------------------------------------------------ *)
(** ** Advancing a cursor *)

(** C7. Advancing a reader's cursor with an empty list of delivered messages
    returns at once: the store that results is the store it started from, so
    the registry file keeps its content and no file is written. *)
Theorem update_last_seen_empty :
  forall (agent_name : string) (s : store),
    update_last_seen agent_name [] s = (Ok tt, s)
    /\ last_seen_file (snd (update_last_seen agent_name [] s)) = last_seen_file s
    /\ journal (snd (update_last_seen agent_name [] s)) = journal s.
Proof.
  intros agent_name s. unfold update_last_seen, ret. simpl. auto.
Qed.

Lemma find_set_same :
  forall k v d, Dict.find k (Dict.set k v d) = Some v.
Proof.
  intros k v d. induction d as [|[k' v'] d IH]; simpl.
  - now rewrite String.eqb_refl.
  - destruct (String.eqb k k') eqn:E; simpl.
    + now rewrite String.eqb_refl.
    + now rewrite E.
Qed.

Lemma find_set_other :
  forall k k' v d, k' <> k -> Dict.find k' (Dict.set k v d) = Dict.find k' d.
Proof.
  intros k k' v d Hne. induction d as [|[k0 v0] d IH]; simpl.
  - apply String.eqb_neq in Hne. now rewrite Hne.
  - destruct (String.eqb k k0) eqn:E; simpl.
    + apply String.eqb_eq in E. subst k0.
      apply String.eqb_neq in Hne. now rewrite Hne.
    + destruct (String.eqb k' k0); auto.
Qed.

Lemma compare_refl : forall x : string, String.compare x x = Eq.
Proof.
  intros x. pose proof (String.compare_antisym x x) as H.
  destruct (String.compare x x); simpl in H; congruence.
Qed.

Lemma leb_refl : forall x : string, String.leb x x = true.
Proof. intros x. unfold String.leb. now rewrite compare_refl. Qed.

Lemma last_in : forall (A : Type) (l : list A) (d : A), l <> [] -> In (last l d) l.
Proof.
  intros A l d. induction l as [|a l IH]; intros H; [congruence|].
  destruct l as [|b l]; [now left|].
  right. apply IH. discriminate.
Qed.

Lemma sorted_below_last :
  forall (l : list value) (d : value),
    StronglySorted ts_le l -> Forall (fun m => exists x, has_timestamp m x) l ->
    forall m, In m l -> ts_le m (last l d).
Proof.
  intros l d Hs Hall. induction Hs as [|a l Hs IH Ha]; intros m Hin; [destruct Hin|].
  inversion Hall as [|? ? [xa Hxa] Hall']; subst.
  destruct l as [|b l].
  - destruct Hin as [<-|[]]. simpl. exists xa, xa. repeat split; auto.
    apply leb_refl.
  - destruct Hin as [<-|Hin].
    + rewrite Forall_forall in Ha. apply Ha.
      change (last (a :: b :: l) d) with (last (b :: l) d).
      apply last_in. discriminate.
    + change (last (a :: b :: l) d) with (last (b :: l) d). now apply IH.
Qed.

(** C8. For a non-empty list of delivered messages in ascending order of
    timestamp and a registry that loads as a mapping, advancing the cursor of
    a reader writes the registry back with that reader's entry set to the
    timestamp of the last message, which no delivered message exceeds, and
    with every other reader's entry as it was loaded; the message files are
    not touched. *)
Theorem update_last_seen_sets_cursor :
  forall (agent_name : string) (msgs : list value) (d : Dict.t) (s : store),
    msgs <> [] ->
    Forall (fun m => exists x, has_timestamp m x) msgs ->
    StronglySorted ts_le msgs ->
    load_last_seen s = VDict d ->
    exists (x : string) (s' : store),
      has_timestamp (last msgs VNone) x
      /\ (forall m, In m msgs -> ts_le m (last msgs VNone))
      /\ update_last_seen agent_name msgs s = (Ok tt, s')
      /\ last_seen_file s' = Some (Doc (VDict (Dict.set agent_name (VStr x) d)))
      /\ Dict.find agent_name (Dict.set agent_name (VStr x) d) = Some (VStr x)
      /\ (forall other, other <> agent_name ->
          Dict.find other (Dict.set agent_name (VStr x) d) = Dict.find other d)
      /\ messages_dir s' = messages_dir s
      /\ journal s' = (journal s ++ [LAST_SEEN_FILE])%list.
Proof.
  intros agent_name msgs d s Hne Hall Hsorted Hload.
  assert (Hlast : In (last msgs VNone) msgs) by now apply last_in.
  rewrite Forall_forall in Hall.
  destruct (Hall _ Hlast) as [x Hx].
  exists x. eexists. split; [exact Hx|]. split.
  { apply sorted_below_last; auto. now apply Forall_forall. }
  split.
  { destruct msgs as [|m0 msgs]; [congruence|].
    unfold update_last_seen, bind_io, lift, reading, save_last_seen, atomic_write.
    unfold has_timestamp in Hx. rewrite Hx, Hload. simpl. reflexivity. }
  simpl. repeat split; auto using find_set_same, find_set_other.
Qed.

(** The list of two sample messages in ascending order sets alice's cursor
    to the timestamp of the later one. *)
Lemma update_last_seen_sets_cursor_witness :
  exists (x : string) (s' : store),
    has_timestamp (last [Sample.hello; Sample.reply] VNone) x
    /\ (forall m, In m [Sample.hello; Sample.reply] ->
        ts_le m (last [Sample.hello; Sample.reply] VNone))
    /\ update_last_seen "carol" [Sample.hello; Sample.reply] Sample.two = (Ok tt, s')
    /\ last_seen_file s' = Some (Doc (VDict (Dict.set "carol" (VStr x) Sample.registry)))
    /\ Dict.find "carol" (Dict.set "carol" (VStr x) Sample.registry) = Some (VStr x)
    /\ (forall other, other <> "carol" ->
        Dict.find other (Dict.set "carol" (VStr x) Sample.registry)
        = Dict.find other Sample.registry)
    /\ messages_dir s' = messages_dir Sample.two
    /\ journal s' = (journal Sample.two ++ [LAST_SEEN_FILE])%list.
Proof.
  apply (update_last_seen_sets_cursor "carol" [Sample.hello; Sample.reply]
           Sample.registry Sample.two).
  - discriminate.
  - repeat constructor; eexists; reflexivity.
  - repeat constructor; eexists; eexists; repeat split; reflexivity.
  - reflexivity.
Defined.

(* ------------------------------------------------------------------ *)
(** ** Trimming and validation *)

Lemma lstrip_spec :
  forall s, exists pre,
    s = pre ++ Str.lstrip s
    /\ Str.all_space pre = true
    /\ Str.opt_space (Str.first_char (Str.lstrip s)) = false.
Proof.
  induction s as [|c s IH]; simpl.
  - exists EmptyString. auto.
  - destruct (Str.isspace c) eqn:E.
    + destruct IH as (pre & H1 & H2 & H3).
      exists (String c pre). simpl. rewrite E, H2. split; [now rewrite <- H1|auto].
    + exists EmptyString. simpl. auto.
Qed.

Lemma rstrip_spec :
  forall s, exists post,
    s = Str.rstrip s ++ post
    /\ Str.all_space post = true
    /\ Str.opt_space (Str.last_char (Str.rstrip s)) = false.
Proof.
  induction s as [|c s IH]; simpl.
  - exists EmptyString. auto.
  - destruct IH as (post & H1 & H2 & H3).
    destruct (Str.rstrip s) as [|a r] eqn:R.
    + simpl in H1. subst post.
      destruct (Str.isspace c) eqn:E.
      * exists (String c s). simpl. rewrite E, H2. auto.
      * exists s. simpl. auto.
    + exists post. split; [simpl; now rewrite H1|]. split; [exact H2|].
      exact H3.
Qed.

Lemma rstrip_first :
  forall s, Str.opt_space (Str.first_char s) = false ->
            Str.opt_space (Str.first_char (Str.rstrip s)) = false.
Proof.
  intros [|c s] H; simpl in *; auto.
  destruct (Str.rstrip s); [destruct (Str.isspace c) eqn:E|]; simpl; auto.
Qed.

Lemma strip_spec : forall s, trimmed_of s (Str.strip s).
Proof.
  intros s. unfold trimmed_of, Str.strip.
  destruct (lstrip_spec s) as (pre & H1 & H2 & H3).
  destruct (rstrip_spec (Str.lstrip s)) as (post & H4 & H5 & H6).
  exists pre, post. repeat split; auto.
  - now rewrite <- H4.
  - now apply rstrip_first.
Qed.

Lemma strip_empty_iff :
  forall a, String.eqb a "" || String.eqb (Str.strip a) "" = true <-> Str.strip a = "".
Proof.
  intros a. rewrite orb_true_iff, !String.eqb_eq. split.
  - intros [->|H]; auto.
  - auto.
Qed.

Lemma unsafe_free_iff :
  forall a, existsb (fun c => Str.contains c a) unsafe_chars = false
            <-> Forall (fun c => Str.contains c a = false) unsafe_chars.
Proof.
  intros a. rewrite Forall_forall. split.
  - intros H c Hc. destruct (Str.contains c a) eqn:E; auto.
    assert (existsb (fun c => Str.contains c a) unsafe_chars = true)
      by (apply existsb_exists; eauto).
    congruence.
  - intros H. destruct (existsb _ unsafe_chars) eqn:E; auto.
    apply existsb_exists in E. destruct E as (c & Hc & Hcc).
    rewrite (H c Hc) in Hcc. discriminate.
Qed.

Lemma validate_author_ok :
  forall a, author_constraints (Str.strip a) -> validate_author a = Ok (Str.strip a).
Proof.
  intros a (H1 & H2 & H3). unfold validate_author.
  destruct (String.eqb a "" || String.eqb (Str.strip a) "") eqn:E.
  - apply strip_empty_iff in E. contradiction.
  - destruct (Z.ltb_spec 100 (Str.len (Str.strip a))); [lia|].
    apply unsafe_free_iff in H3. now rewrite H3.
Qed.

Lemma validate_author_inv :
  forall a r, validate_author a = Ok r -> r = Str.strip a /\ author_constraints r.
Proof.
  intros a r. unfold validate_author.
  destruct (String.eqb a "" || String.eqb (Str.strip a) "") eqn:E; [discriminate|].
  destruct (Z.ltb_spec 100 (Str.len (Str.strip a))); [discriminate|].
  destruct (existsb _ unsafe_chars) eqn:U; [discriminate|].
  intros [= <-]. split; auto. repeat split; auto.
  - intros Hs. apply strip_empty_iff in Hs. congruence.
  - now apply unsafe_free_iff.
Qed.

Lemma validate_author_raises :
  forall a, (exists r, validate_author a = Ok r)
            \/ (exists msg, validate_author a = Raise (ValueError msg)).
Proof.
  intros a. unfold validate_author.
  repeat match goal with |- context [if ?b then _ else _] => destruct b end; eauto.
Qed.

Lemma validate_message_ok :
  forall c, content_constraints (Str.strip c) -> validate_message c = Ok (Str.strip c).
Proof.
  intros c (H1 & H2). unfold validate_message.
  destruct (String.eqb c "" || String.eqb (Str.strip c) "") eqn:E.
  - apply strip_empty_iff in E. contradiction.
  - destruct (Z.ltb_spec 100000 (Str.len (Str.strip c))); [lia|]. reflexivity.
Qed.

Lemma validate_message_inv :
  forall c r, validate_message c = Ok r -> r = Str.strip c /\ content_constraints r.
Proof.
  intros c r. unfold validate_message.
  destruct (String.eqb c "" || String.eqb (Str.strip c) "") eqn:E; [discriminate|].
  destruct (Z.ltb_spec 100000 (Str.len (Str.strip c))); [discriminate|].
  intros [= <-]. split; auto. split; auto.
  intros Hs. apply strip_empty_iff in Hs. congruence.
Qed.

Lemma validate_message_raises :
  forall c, (exists r, validate_message c = Ok r)
            \/ (exists msg, validate_message c = Raise (ValueError msg)).
Proof.
  intros c. unfold validate_message.
  repeat match goal with |- context [if ?b then _ else _] => destruct b end; eauto.
Qed.

Lemma send_message_ok :
  forall now author content a c s,
    validate_author author = Ok a -> validate_message content = Ok c ->
    send_message now author content s
    = (Ok (make_message a (DT.isoformat now) c),
       mkstore (Dir.put (message_filename (DT.isoformat now) a)
                        (Doc (make_message a (DT.isoformat now) c)) (messages_dir s))
               (last_seen_file s)
               (journal s ++ [MessagePath (message_filename (DT.isoformat now) a)])).
Proof.
  intros now author content a c s Ha Hc.
  unfold send_message, bind_io, lift. rewrite Ha, Hc. reflexivity.
Qed.

Lemma send_message_inv :
  forall now author content s m s',
    send_message now author content s = (Ok m, s') ->
    validate_author author = Ok (Str.strip author)
    /\ validate_message content = Ok (Str.strip content)
    /\ m = make_message (Str.strip author) (DT.isoformat now) (Str.strip content).
Proof.
  intros now author content s m s' H.
  destruct (validate_author_raises author) as [[a Ha]|[msg Ha]];
    [|unfold send_message, bind_io, lift in H; rewrite Ha in H; discriminate].
  destruct (validate_message_raises content) as [[c Hc]|[msg Hc]];
    [|unfold send_message, bind_io, lift in H; rewrite Ha, Hc in H; discriminate].
  rewrite (send_message_ok _ _ _ _ _ _ Ha Hc) in H.
  destruct (validate_author_inv _ _ Ha) as [-> _].
  destruct (validate_message_inv _ _ Hc) as [-> _].
  inversion H; subst. auto.
Qed.

(** C9, as the code has it. Sending raises [ValueError] and leaves the store
    as it was, no file written, exactly when the author with its surrounding
    whitespace removed is empty, longer than 100 characters or contains one
    of the characters [/], [\], NUL, line feed and carriage return, or the
    content with its surrounding whitespace removed is empty or longer than
    100,000 characters; otherwise it returns the message and writes its
    file. *)
Theorem send_message_validation :
  forall (now : datetime) (author content : string) (s : store),
    (author_constraints (Str.strip author) /\ content_constraints (Str.strip content)
     /\ exists s',
         send_message now author content s
         = (Ok (make_message (Str.strip author) (DT.isoformat now) (Str.strip content)), s')
         /\ journal s'
            = (journal s
               ++ [MessagePath (message_filename (DT.isoformat now) (Str.strip author))])%list)
    \/ (~ (author_constraints (Str.strip author) /\ content_constraints (Str.strip content))
        /\ exists msg, send_message now author content s = (Raise (ValueError msg), s)).
Proof.
  intros now author content s.
  destruct (validate_author_raises author) as [[a Ha]|[msg Ha]].
  - destruct (validate_author_inv _ _ Ha) as [-> Hca].
    destruct (validate_message_raises content) as [[c Hc]|[msg Hc]].
    + destruct (validate_message_inv _ _ Hc) as [-> Hcc].
      left. split; [exact Hca|]. split; [exact Hcc|].
      eexists. rewrite (send_message_ok _ _ _ _ _ _ Ha Hc). split; reflexivity.
    + right. split.
      * intros [_ Hcc]. rewrite (validate_message_ok _ Hcc) in Hc. discriminate.
      * exists msg. unfold send_message, bind_io, lift. now rewrite Ha, Hc.
  - right. split.
    + intros [Hca _]. rewrite (validate_author_ok _ Hca) in Ha. discriminate.
    + exists msg. unfold send_message, bind_io, lift. now rewrite Ha.
Qed.

Lemma lookup_put_same :
  forall fn f d, Dir.lookup fn (Dir.put fn f d) = Some f.
Proof.
  intros fn f d. induction d as [|[n g] d IH]; simpl.
  - now rewrite String.eqb_refl.
  - destruct (String.eqb fn n) eqn:E; simpl.
    + now rewrite String.eqb_refl.
    + now rewrite E.
Qed.

(** C10. Whenever sending succeeds, the author of the returned message, which
    is also the record stored in the message's file, is the given author
    without its leading and trailing whitespace; that trimmed author is the
    one within the 100 character limit and free of unsafe characters, and
    the one the file name is built from. *)
Theorem send_message_trims_author :
  forall (now : datetime) (author content : string) (s s' : store) (m : value),
    send_message now author content s = (Ok m, s') ->
    trimmed_of author (Str.strip author)
    /\ py_getitem m "author" = Ok (VStr (Str.strip author))
    /\ author_constraints (Str.strip author)
    /\ Dir.lookup (message_filename (DT.isoformat now) (Str.strip author)) (messages_dir s')
       = Some (Doc m)
    /\ journal s'
       = (journal s
          ++ [MessagePath (message_filename (DT.isoformat now) (Str.strip author))])%list.
Proof.
  intros now author content s s' m H.
  destruct (send_message_inv _ _ _ _ _ _ H) as (Ha & Hc & ->).
  rewrite (send_message_ok _ _ _ _ _ _ Ha Hc) in H. inversion H; subst; clear H.
  split; [apply strip_spec|]. split; [reflexivity|].
  split; [apply (validate_author_inv _ _ Ha)|].
  simpl. split; [apply lookup_put_same|reflexivity].
Qed.

(** Sending as ["  bob "] stores and returns the author ["bob"]. *)
Lemma send_message_trims_author_witness :
  exists (m : value) (s' : store),
    send_message Sample.t0 "  bob " "hi" Sample.empty = (Ok m, s')
    /\ py_getitem m "author" = Ok (VStr "bob")
    /\ Dir.lookup "2025-11-16T20-30-45.123456+00-00_bob.json" (messages_dir s')
       = Some (Doc m).
Proof.
  eexists. eexists. split; [vm_compute; reflexivity|].
  pose proof (send_message_trims_author Sample.t0 "  bob " "hi" Sample.empty
                _ _ eq_refl) as (_ & Ha & _ & Hf & _).
  split; [exact Ha|exact Hf].
Defined.

(** C9 fails as stated: an author that contains a line feed, and an author of
    101 characters, are both accepted, because the limits are checked on the
    trimmed author; each send writes its message file. *)
Lemma send_message_accepts_untrimmed :
  (Str.contains (ascii_of_nat 10) Sample.bob_newline = true
   /\ exists s',
       send_message Sample.t0 Sample.bob_newline "hi" Sample.empty
       = (Ok (make_message "bob" "2025-11-16T20:30:45.123456+00:00" "hi"), s')
       /\ journal s' = [MessagePath "2025-11-16T20-30-45.123456+00-00_bob.json"])
  /\ (100 < Str.len Sample.padded
      /\ exists m s',
          send_message Sample.t0 Sample.padded "hi" Sample.empty = (Ok m, s')
          /\ length (journal s') = 1%nat).
Proof.
  split; (split; [reflexivity|]).
  - eexists. split; vm_compute; reflexivity.
  - eexists. eexists. split; vm_compute; reflexivity.
Qed.

(* ------------------------------------------------------------------ *)
(** ** The order of texts *)

Lemma ascii_compare_refl : forall c, Ascii.compare c c = Eq.
Proof. intros c. unfold Ascii.compare. apply N.compare_refl. Qed.

Lemma ascii_compare_trans :
  forall a b c, Ascii.compare a b = Lt -> Ascii.compare b c = Lt -> Ascii.compare a c = Lt.
Proof.
  unfold Ascii.compare. intros a b c H1 H2.
  rewrite N.compare_lt_iff in *. eapply N.lt_trans; eauto.
Qed.

Lemma compare_lt_trans :
  forall a b c : string,
    String.compare a b = Lt -> String.compare b c = Lt -> String.compare a c = Lt.
Proof.
  induction a as [|x a IH]; intros [|y b] [|z c]; simpl; try congruence.
  destruct (Ascii.compare x y) eqn:Hxy; destruct (Ascii.compare y z) eqn:Hyz;
    intros H1 H2; try discriminate.
  - apply Ascii.compare_eq_iff in Hxy, Hyz. subst.
    rewrite ascii_compare_refl. eauto.
  - apply Ascii.compare_eq_iff in Hxy. subst. now rewrite Hyz.
  - apply Ascii.compare_eq_iff in Hyz. subst. now rewrite Hxy.
  - now rewrite (ascii_compare_trans _ _ _ Hxy Hyz).
Qed.

Lemma leb_trans :
  forall a b c : string,
    String.leb a b = true -> String.leb b c = true -> String.leb a c = true.
Proof.
  unfold String.leb. intros a b c H1 H2.
  destruct (String.compare a b) eqn:Hab; try discriminate;
    destruct (String.compare b c) eqn:Hbc; try discriminate.
  - apply String.compare_eq_iff in Hab. subst. now rewrite Hbc.
  - apply String.compare_eq_iff in Hab. subst. now rewrite Hbc.
  - apply String.compare_eq_iff in Hbc. subst. now rewrite Hab.
  - now rewrite (compare_lt_trans _ _ _ Hab Hbc).
Qed.

Lemma ltb_leb : forall a b : string, String.ltb a b = true -> String.leb a b = true.
Proof.
  unfold String.ltb, String.leb. intros a b.
  destruct (String.compare a b); congruence.
Qed.

Lemma ltb_false_leb : forall a b : string, String.ltb a b = false -> String.leb b a = true.
Proof.
  unfold String.ltb, String.leb. intros a b.
  rewrite (String.compare_antisym b a).
  destruct (String.compare a b); simpl; congruence.
Qed.

Lemma leb_neq_ltb :
  forall a b : string, String.leb a b = true -> a <> b -> String.ltb a b = true.
Proof.
  unfold String.ltb, String.leb. intros a b H Hne.
  destruct (String.compare a b) eqn:E; auto.
  apply String.compare_eq_iff in E. contradiction.
Qed.

Lemma ltb_asym : forall a b : string, String.ltb a b = true -> String.ltb b a = false.
Proof.
  unfold String.ltb. intros a b. rewrite (String.compare_antisym b a).
  destruct (String.compare a b); simpl; congruence.
Qed.

Lemma ltb_irrefl : forall a : string, String.ltb a a = false.
Proof. intros a. unfold String.ltb. now rewrite compare_refl. Qed.

(* ------------------------------------------------------------------ *)
(** ** Sorting by timestamp *)

Lemma pair_le_trans : forall p q r, pair_le p q -> pair_le q r -> pair_le p r.
Proof.
  intros p q r (x & y & Hx & Hy & Hxy) (y' & z & Hy' & Hz & Hyz).
  rewrite Hy in Hy'. injection Hy' as <-.
  exists x, z. repeat split; auto. eapply leb_trans; eauto.
Qed.

Lemma insert_keyed_spec :
  forall x l,
    text_keyed x -> Forall text_keyed l ->
    exists r, insert_keyed x l = Ok r
              /\ Permutation r (x :: l)
              /\ (StronglySorted pair_le l -> StronglySorted pair_le r).
Proof.
  intros x l [kx Hx]. induction l as [|y l IH]; intros Hl.
  - exists [x]. simpl. repeat split; auto. intros _. repeat constructor.
  - inversion Hl as [|? ? [ky Hy] Hl']; subst.
    simpl. rewrite Hy, Hx. simpl.
    destruct (String.ltb ky kx) eqn:E.
    + destruct (IH Hl') as (r & Hr & Hperm & Hsorted). rewrite Hr. simpl.
      exists (y :: r). split; [reflexivity|]. split.
      * rewrite Hperm. apply perm_swap.
      * intros Hs. inversion Hs as [|? ? Hs' Hall]; subst.
        constructor; [auto|].
        eapply Permutation_Forall; [symmetry; exact Hperm|].
        constructor; [|exact Hall].
        exists ky, kx. repeat split; auto using ltb_leb.
    + exists (x :: y :: l). split; [reflexivity|]. split; [reflexivity|].
      intros Hs. constructor; [exact Hs|].
      assert (Hxy : pair_le x y)
        by (exists kx, ky; repeat split; auto using ltb_false_leb).
      constructor; [exact Hxy|].
      inversion Hs as [|? ? _ Hall]; subst.
      eapply Forall_impl; [|exact Hall].
      intros z Hz. eapply pair_le_trans; eauto.
Qed.

Lemma sort_keyed_spec :
  forall l,
    Forall text_keyed l ->
    exists r, sort_keyed l = Ok r /\ Permutation r l /\ StronglySorted pair_le r.
Proof.
  induction l as [|x l IH]; intros Hl.
  - exists []. simpl. repeat split; auto. constructor.
  - inversion Hl as [|? ? Hx Hl']; subst.
    destruct (IH Hl') as (r & Hr & Hperm & Hs).
    assert (Hr' : Forall text_keyed r)
      by (eapply Permutation_Forall; [symmetry; exact Hperm|exact Hl']).
    destruct (insert_keyed_spec x r Hx Hr') as (r' & Hi & Hperm' & Hs').
    exists r'. simpl. rewrite Hr. simpl. split; [exact Hi|]. split; auto.
    rewrite Hperm'. now constructor.
Qed.

Lemma mapM_keys :
  forall l,
    Forall (fun m => exists x, has_key m x) l ->
    exists ks, mapM timestamp_key l = Ok ks
               /\ map snd (combine ks l) = l
               /\ Forall (fun p => decorated p /\ text_keyed p) (combine ks l).
Proof.
  induction l as [|m l IH]; intros Hl.
  - exists []. simpl. auto.
  - inversion Hl as [|? ? [x Hx] Hl']; subst.
    destruct (IH Hl') as (ks & Hks & Hsnd & Hall).
    exists (VStr x :: ks). simpl. unfold has_key in Hx. rewrite Hx, Hks. simpl.
    split; [reflexivity|]. split; [now rewrite Hsnd|].
    constructor; [|exact Hall].
    split; [exact Hx|]. now exists x.
Qed.

Lemma strongly_sorted_map :
  forall (A B : Type) (R : A -> A -> Prop) (R' : B -> B -> Prop) (f : A -> B) (l : list A),
    StronglySorted R l ->
    (forall a b, In a l -> In b l -> R a b -> R' (f a) (f b)) ->
    StronglySorted R' (map f l).
Proof.
  intros A B R R' f l Hs. induction Hs as [|a l Hs IH Ha]; intros H; simpl.
  - constructor.
  - constructor.
    + apply IH. intros x y Hx Hy. apply H; now right.
    + rewrite Forall_forall in *. intros b Hb.
      apply in_map_iff in Hb. destruct Hb as (c & <- & Hc).
      apply H; [now left|now right|auto].
Qed.

Lemma sort_by_key_spec :
  forall l,
    Forall (fun m => exists x, has_key m x) l ->
    exists out, sort_by_key timestamp_key l = Ok out
                /\ Permutation out l
                /\ StronglySorted key_le out.
Proof.
  intros l Hl.
  destruct (mapM_keys l Hl) as (ks & Hks & Hsnd & Hall).
  assert (Htk : Forall text_keyed (combine ks l))
    by (eapply Forall_impl; [|exact Hall]; now intros p [_ H]).
  destruct (sort_keyed_spec _ Htk) as (r & Hr & Hperm & Hs).
  exists (map snd r). unfold sort_by_key. rewrite Hks. simpl. rewrite Hr. simpl.
  split; [reflexivity|]. split.
  - apply (Permutation_trans (Permutation_map snd Hperm)). now rewrite Hsnd.
  - apply strongly_sorted_map with (R := pair_le); [exact Hs|].
    intros p q Hp Hq (x & y & Hx & Hy & Hxy).
    assert (Hall' : Forall (fun p => decorated p /\ text_keyed p) r)
      by (eapply Permutation_Forall; [symmetry; exact Hperm|exact Hall]).
    rewrite Forall_forall in Hall'.
    destruct (Hall' p Hp) as [Hdp _]. destruct (Hall' q Hq) as [Hdq _].
    unfold decorated in *. exists x, y. unfold has_key.
    rewrite Hdp, Hdq, Hx, Hy. auto.
Qed.

Lemma has_timestamp_key : forall m x, has_timestamp m x -> has_key m x.
Proof.
  intros m x. unfold has_timestamp, has_key, timestamp_key, py_getitem, py_get.
  destruct m; try discriminate.
  destruct (Dict.find "timestamp" items); [|discriminate]. now intros [= ->].
Qed.

Lemma has_timestamp_text : forall m x, has_timestamp m x -> ts_text m = x.
Proof. intros m x H. unfold ts_text. now rewrite H. Qed.

Lemma has_key_timestamp :
  forall m x y, has_timestamp m x -> has_key m y -> y = x.
Proof.
  intros m x y Hx Hy. apply has_timestamp_key in Hx.
  unfold has_key in *. congruence.
Qed.

Lemma all_timestamped_keyed :
  forall l, all_timestamped l -> Forall (fun m => exists x, has_key m x) l.
Proof.
  intros l H. eapply Forall_impl; [|exact H].
  intros m [x Hx]. exists x. now apply has_timestamp_key.
Qed.

Lemma key_sorted_ts_sorted :
  forall l, all_timestamped l -> StronglySorted key_le l -> StronglySorted ts_le l.
Proof.
  intros l Hall Hs. induction Hs as [|a l Hs IH Ha]; [constructor|].
  inversion Hall as [|? ? [xa Hxa] Hall']; subst.
  constructor; [auto|].
  unfold all_timestamped in Hall'. rewrite Forall_forall in *.
  intros b Hb. destruct (Hall' b Hb) as [xb Hxb].
  destruct (Ha b Hb) as (x & y & Hx & Hy & Hxy).
  rewrite (has_key_timestamp _ _ _ Hxa Hx) in Hxy.
  rewrite (has_key_timestamp _ _ _ Hxb Hy) in Hxy.
  now exists xa, xb.
Qed.

Lemma ts_sorted_strict :
  forall l, StronglySorted ts_le l -> NoDup (map ts_text l) -> StronglySorted ts_lt l.
Proof.
  intros l Hs. induction Hs as [|a l Hs IH Ha]; intros Hnd; [constructor|].
  simpl in Hnd. inversion Hnd as [|? ? Hnotin Hnd']; subst.
  constructor; [auto|].
  rewrite Forall_forall in *. intros b Hb.
  destruct (Ha b Hb) as (x & y & Hx & Hy & Hxy).
  exists x, y. repeat split; auto.
  apply leb_neq_ltb; auto. intros ->.
  apply Hnotin. rewrite (has_timestamp_text _ _ Hx), <- (has_timestamp_text _ _ Hy).
  now apply in_map.
Qed.

Lemma ts_lt_asym : forall a b, ts_lt a b -> ts_lt b a -> False.
Proof.
  intros a b (x & y & Hx & Hy & Hxy) (y' & x' & Hy' & Hx' & Hyx).
  unfold has_timestamp in *.
  assert (x' = x) by congruence. assert (y' = y) by congruence. subst.
  apply ltb_asym in Hxy. congruence.
Qed.

Lemma strictly_sorted_unique :
  forall l1 l2,
    StronglySorted ts_lt l1 -> StronglySorted ts_lt l2 -> Permutation l1 l2 -> l1 = l2.
Proof.
  induction l1 as [|a l1 IH]; intros l2 H1 H2 Hperm.
  - apply Permutation_nil in Hperm. now subst.
  - destruct l2 as [|b l2]; [symmetry in Hperm; now apply Permutation_nil in Hperm|].
    inversion H1 as [|? ? H1' Ha]; subst. inversion H2 as [|? ? H2' Hb]; subst.
    rewrite Forall_forall in Ha, Hb.
    assert (Hab : a = b).
    { assert (Hin : In a (b :: l2)) by (eapply Permutation_in; [exact Hperm|now left]).
      destruct Hin as [->|Hin]; [reflexivity|].
      assert (Hin' : In b (a :: l1))
        by (eapply Permutation_in; [symmetry; exact Hperm|now left]).
      destruct Hin' as [->|Hin']; [reflexivity|].
      exfalso. eapply ts_lt_asym; eauto. }
    subst b. f_equal. apply IH; auto.
    eapply Permutation_cons_inv; eauto.
Qed.

(* ------------------------------------------------------------------ *)
(** ** Reading the messages directory *)

Lemma insert_name_perm : forall x l, Permutation (insert_name x l) (x :: l).
Proof.
  intros x l. induction l as [|y l IH]; simpl; [reflexivity|].
  destruct (String.ltb y x); [|reflexivity].
  rewrite IH. apply perm_swap.
Qed.

Lemma sort_names_perm : forall l, Permutation (sort_names l) l.
Proof.
  induction l as [|x l IH]; simpl; [reflexivity|].
  rewrite insert_name_perm. now constructor.
Qed.

Lemma lookup_in : forall fn f d, Dir.lookup fn d = Some f -> In (fn, f) d.
Proof.
  intros fn f d. induction d as [|[n g] d IH]; simpl; [discriminate|].
  destruct (String.eqb fn n) eqn:E.
  - apply String.eqb_eq in E. subst. intros [= ->]. now left.
  - intros H. right. auto.
Qed.

Lemma lookup_nodup :
  forall fn f d, NoDup (map fst d) -> In (fn, f) d -> Dir.lookup fn d = Some f.
Proof.
  intros fn f d. induction d as [|[n g] d IH]; simpl; intros Hnd Hin; [destruct Hin|].
  inversion Hnd as [|? ? Hnotin Hnd']; subst.
  destruct Hin as [[= -> ->]|Hin].
  - now rewrite String.eqb_refl.
  - destruct (String.eqb fn n) eqn:E; [|auto].
    apply String.eqb_eq in E. subst. exfalso. apply Hnotin.
    change n with (fst (n, f)). now apply in_map.
Qed.

Lemma read_all_in :
  forall s m, In m (read_all s) ->
              exists fn, In (fn, Doc m) (messages_dir s) /\ Str.endswith fn ".json" = true.
Proof.
  intros s m H. unfold read_all in H. apply in_flat_map in H.
  destruct H as (fn & Hfn & Hm). exists fn. split.
  - unfold read_message_file in Hm.
    destruct (Dir.lookup fn (messages_dir s)) as [[|v]|] eqn:E; try destruct Hm.
    + subst. now apply lookup_in.
    + destruct H.
  - unfold list_message_files in Hfn.
    eapply Permutation_in in Hfn; [|apply sort_names_perm].
    now apply filter_In in Hfn.
Qed.

Lemma read_all_incl : forall s, incl (read_all s) (parsable s).
Proof.
  intros s m H. destruct (read_all_in s m H) as (fn & Hin & Hj).
  unfold parsable. apply in_flat_map. exists (fn, Doc m). split; [exact Hin|].
  simpl. rewrite Hj. now left.
Qed.

Lemma read_listed :
  forall (D d : list (string * file)) (g : string -> list value),
    (forall fn f, In (fn, f) D ->
                  g fn = match f with Doc v => [v] | Corrupt => [] end) ->
    incl d D ->
    flat_map g (filter (fun f => Str.endswith f ".json") (map fst d))
    = flat_map (fun e => match snd e with
                         | Doc v => if Str.endswith (fst e) ".json" then [v] else []
                         | Corrupt => []
                         end) d.
Proof.
  intros D d g Hg. induction d as [|[n f] d IH]; intros Hincl; simpl; [reflexivity|].
  assert (Hd : incl d D) by (intros e He; apply Hincl; now right).
  destruct (Str.endswith n ".json") eqn:E; simpl.
  - rewrite (Hg n f) by (apply Hincl; now left). rewrite (IH Hd).
    destruct f; reflexivity.
  - rewrite (IH Hd). destruct f; reflexivity.
Qed.

Lemma read_all_perm :
  forall s, NoDup (map fst (messages_dir s)) -> Permutation (read_all s) (parsable s).
Proof.
  intros s Hnd. unfold read_all, list_message_files, listdir, parsable.
  etransitivity; [apply Permutation_flat_map, sort_names_perm|].
  erewrite read_listed with (D := messages_dir s); [reflexivity| |apply incl_refl].
  intros fn f Hin. unfold read_message_file.
  rewrite (lookup_nodup _ _ _ Hnd Hin). destruct f; reflexivity.
Qed.

Lemma get_all_messages_spec :
  forall s,
    Forall (fun m => exists x, has_key m x) (parsable s) ->
    exists out, get_all_messages s = Ok out
                /\ Permutation out (read_all s)
                /\ StronglySorted key_le out.
Proof.
  intros s H. apply sort_by_key_spec.
  rewrite Forall_forall in *. intros m Hm. apply H. now apply read_all_incl.
Qed.

Lemma parsable_perm :
  forall s s', Permutation (messages_dir s) (messages_dir s') ->
               Permutation (parsable s) (parsable s').
Proof. intros s s' H. unfold parsable. now apply Permutation_flat_map. Qed.

(** C5. Let every record of a parsable message file carry a timestamp, no two
    the same, in a directory that lists each file name once.  Reading all
    messages returns exactly these records in strictly ascending order of
    timestamp, and returns the same list for any other order in which the
    directory enumerates its files. *)
Theorem get_all_messages_sorted_any_listing :
  forall (s s' : store),
    NoDup (map fst (messages_dir s)) ->
    Permutation (messages_dir s) (messages_dir s') ->
    all_timestamped (parsable s) ->
    NoDup (map ts_text (parsable s)) ->
    exists out,
      get_all_messages s = Ok out
      /\ get_all_messages s' = Ok out
      /\ Permutation out (parsable s)
      /\ StronglySorted ts_lt out.
Proof.
  intros s s' Hnames Hperm Hts Hdistinct.
  assert (Hnames' : NoDup (map fst (messages_dir s')))
    by (eapply Permutation_NoDup; [apply Permutation_map; exact Hperm|exact Hnames]).
  pose proof (parsable_perm s s' Hperm) as Hpp.
  assert (Hts' : all_timestamped (parsable s'))
    by (eapply Permutation_Forall; [exact Hpp|exact Hts]).
  destruct (get_all_messages_spec s (all_timestamped_keyed _ Hts)) as (out & Hout & Hp & Hs).
  destruct (get_all_messages_spec s' (all_timestamped_keyed _ Hts')) as (out' & Hout' & Hp' & Hs').
  assert (Hpo : Permutation out (parsable s))
    by (rewrite Hp; now apply read_all_perm).
  assert (Hpo' : Permutation out' (parsable s))
    by (rewrite Hp', Hpp; now apply read_all_perm).
  assert (Hstrict : forall l, Permutation l (parsable s) -> StronglySorted key_le l ->
                              StronglySorted ts_lt l).
  { intros l Hl Hsl. apply ts_sorted_strict.
    - apply key_sorted_ts_sorted; [|exact Hsl].
      eapply Permutation_Forall; [symmetry; exact Hl|exact Hts].
    - eapply Permutation_NoDup; [apply Permutation_map; symmetry; exact Hl|exact Hdistinct]. }
  exists out. split; [exact Hout|]. split.
  - rewrite Hout'. f_equal.
    apply strictly_sorted_unique; auto.
    now rewrite Hpo, Hpo'.
  - split; auto.
Qed.

(** The two sample messages, listed latest first around a file that does not
    parse, are returned earliest first under either listing. *)
Lemma get_all_messages_sorted_any_listing_witness :
  exists out,
    get_all_messages Sample.two = Ok out
    /\ get_all_messages Sample.two_relisted = Ok out
    /\ Permutation out (parsable Sample.two)
    /\ StronglySorted ts_lt out.
Proof.
  apply get_all_messages_sorted_any_listing.
  - simpl. repeat constructor; simpl; intuition discriminate.
  - apply perm_swap.
  - repeat constructor; eexists; reflexivity.
  - simpl. repeat constructor; simpl; intuition discriminate.
Defined.





Lemma get_all_messages_same_dir :
  forall s s', messages_dir s = messages_dir s' -> get_all_messages s = get_all_messages s'.
Proof.
  intros s s' H.
  unfold get_all_messages, read_all, list_message_files, listdir, read_message_file.
  now rewrite H.
Qed.

Lemma filterM_filter :
  forall (A : Type) (p : A -> result bool) (q : A -> bool) (l : list A),
    Forall (fun m => p m = Ok (q m)) l -> filterM p l = Ok (filter q l).
Proof.
  intros A p q l H. induction H as [|m l Hm _ IH]; simpl; [reflexivity|].
  rewrite Hm, IH. simpl. reflexivity.
Qed.

Lemma filterM_in :
  forall (A : Type) (p : A -> result bool) (l r : list A),
    filterM p l = Ok r -> forall m, In m r -> p m = Ok true.
Proof.
  intros A p. induction l as [|x l IH]; simpl; intros r H m Hm.
  - injection H as <-. destruct Hm.
  - destruct (p x) as [b|] eqn:Hx; simpl in H; [|discriminate].
    destruct (filterM p l) as [r'|]; simpl in H; [|discriminate].
    injection H as <-. destruct b.
    + destruct Hm as [<-|Hm]; [exact Hx|]. now apply (IH r').
    + now apply (IH r').
Qed.

Lemma strongly_sorted_filter :
  forall (A : Type) (R : A -> A -> Prop) (q : A -> bool) (l : list A),
    StronglySorted R l -> StronglySorted R (filter q l).
Proof.
  intros A R q l H. induction H as [|a l Hs IH Ha]; simpl; [constructor|].
  destruct (q a); [|exact IH].
  constructor; [exact IH|].
  rewrite Forall_forall in *. intros b Hb. apply Ha.
  now apply filter_In in Hb.
Qed.

Lemma gt_spec :
  forall a b r, DT.gt a b = Ok r -> comparable a b /\ r = (instant b <? instant a).
Proof.
  intros a b r. unfold DT.gt, comparable, instant.
  destruct (utcoffset a), (utcoffset b); intros H; try discriminate;
    injection H as <-; (split; [split; congruence|]).
  - reflexivity.
  - now rewrite !Z.sub_0_r.
Qed.

Lemma gt_comparable :
  forall a b, comparable a b -> DT.gt a b = Ok (instant b <? instant a).
Proof.
  intros a b. unfold DT.gt, comparable, instant.
  destruct (utcoffset a), (utcoffset b); intros [H1 H2]; auto.
  - discriminate (H2 eq_refl).
  - discriminate (H1 eq_refl).
  - now rewrite !Z.sub_0_r.
Qed.

Lemma gt_irrefl : forall d, DT.gt d d = Ok false.
Proof.
  intros d. rewrite gt_comparable by (unfold comparable; tauto).
  now rewrite Z.ltb_irrefl.
Qed.

(* ------------------------------------------------------------------ *)
(** ** Reading what is unread *)

Section Unread.

Variable fromisoformat : string -> option datetime.

Lemma newer_than_dated :
  forall t m d, dated fromisoformat m d -> newer_than fromisoformat t m = DT.gt d t.
Proof.
  intros t m d (x & Hx & Hd). unfold newer_than.
  unfold has_timestamp in Hx. rewrite Hx. simpl. now rewrite Hd.
Qed.

Lemma strictly_after_dated :
  forall t m d, dated fromisoformat m d ->
                strictly_after fromisoformat t m = (instant t <? instant d).
Proof.
  intros t m d (x & Hx & Hd). unfold strictly_after.
  unfold has_timestamp in Hx. now rewrite Hx, Hd.
Qed.

Lemma dated_timestamped :
  forall t l, all_dated fromisoformat t l -> all_timestamped l.
Proof.
  intros t l H. eapply Forall_impl; [|exact H].
  intros m (d & (x & Hx & _) & _). now exists x.
Qed.

Lemma get_unread_for_no_cursor :
  forall agent_name s reg,
    load_last_seen s = VDict reg ->
    no_cursor fromisoformat reg agent_name ->
    get_unread_for fromisoformat agent_name s = get_all_messages s.
Proof.
  intros agent_name s reg Hload Hno. unfold get_unread_for.
  rewrite Hload. simpl.
  destruct Hno as [Hnone|(v & e & Hsome & Hparse)].
  - rewrite Hnone. destruct (get_all_messages s); reflexivity.
  - rewrite Hsome. destruct (get_all_messages s); simpl; [|reflexivity].
    destruct v; try reflexivity. now rewrite Hparse.
Qed.

Lemma get_unread_for_cursor :
  forall agent_name s reg v t,
    load_last_seen s = VDict reg ->
    Dict.find agent_name reg = Some v ->
    parse_iso fromisoformat v = Ok t ->
    get_unread_for fromisoformat agent_name s
    = (all_msgs <- get_all_messages s ;; filterM (newer_than fromisoformat t) all_msgs).
Proof.
  intros agent_name s reg v t Hload Hfind Hparse. unfold get_unread_for.
  rewrite Hload. simpl. rewrite Hfind.
  destruct (get_all_messages s); simpl; [|reflexivity].
  destruct v; try discriminate. now rewrite Hparse.
Qed.


(** C3, as the code has it. Let the registry load as a mapping whose entry
    for the reader parses as the timestamp [t], and let every record of a
    parsable message file carry a timestamp that parses and can be compared
    with [t], both having a UTC offset or neither.  Reading the unread
    messages of that reader returns, of all those records in ascending order
    of timestamp text, exactly the ones whose timestamp is an instant
    strictly after [t]; a record stamped with the instant [t] itself is not
    among them. *)
Theorem get_unread_for_after_cursor :
  forall (agent_name : string) (s : store) (reg : Dict.t) (v : value) (t : datetime),
    NoDup (map fst (messages_dir s)) ->
    load_last_seen s = VDict reg ->
    Dict.find agent_name reg = Some v ->
    parse_iso fromisoformat v = Ok t ->
    all_dated fromisoformat t (parsable s) ->
    exists all_msgs,
      get_all_messages s = Ok all_msgs
      /\ Permutation all_msgs (parsable s)
      /\ StronglySorted ts_le all_msgs
      /\ get_unread_for fromisoformat agent_name s
         = Ok (filter (strictly_after fromisoformat t) all_msgs)
      /\ StronglySorted ts_le (filter (strictly_after fromisoformat t) all_msgs)
      /\ (forall m, In m (filter (strictly_after fromisoformat t) all_msgs) <->
                    In m (parsable s)
                    /\ exists d, dated fromisoformat m d /\ instant t < instant d)
      /\ (forall m d, dated fromisoformat m d -> instant d = instant t ->
                      ~ In m (filter (strictly_after fromisoformat t) all_msgs)).
Proof.
  intros agent_name s reg v t Hnd Hload Hfind Hparse Hdated.
  pose proof (dated_timestamped _ _ Hdated) as Hts.
  destruct (get_all_messages_spec s (all_timestamped_keyed _ Hts)) as (all_msgs & Hall & Hp & Hs).
  assert (Hperm : Permutation all_msgs (parsable s))
    by (rewrite Hp; now apply read_all_perm).
  assert (Hd : all_dated fromisoformat t all_msgs)
    by (eapply Permutation_Forall; [symmetry; exact Hperm|exact Hdated]).
  assert (Hsorted : StronglySorted ts_le all_msgs).
  { apply key_sorted_ts_sorted; [|exact Hs]. eapply dated_timestamped; eauto. }
  exists all_msgs. split; [exact Hall|]. split; [exact Hperm|]. split; [exact Hsorted|].
  split.
  { rewrite (get_unread_for_cursor _ _ _ _ _ Hload Hfind Hparse), Hall. simpl.
    apply filterM_filter. eapply Forall_impl; [|exact Hd].
    intros m (d & Hmd & Hc).
    rewrite (newer_than_dated _ _ _ Hmd), (strictly_after_dated _ _ _ Hmd).
    now apply gt_comparable. }
  split; [now apply strongly_sorted_filter|]. split.
  - intros m. rewrite filter_In. split.
    + intros [Hin Hafter]. split; [eapply Permutation_in; eauto|].
      unfold all_dated in Hd. rewrite Forall_forall in Hd.
      destruct (Hd m Hin) as (d & Hmd & _). exists d. split; [exact Hmd|].
      rewrite (strictly_after_dated _ _ _ Hmd) in Hafter. lia.
    + intros [Hin (d & Hmd & Hlt)]. split.
      * eapply Permutation_in; [symmetry; exact Hperm|exact Hin].
      * rewrite (strictly_after_dated _ _ _ Hmd). lia.
  - intros m d Hmd Heq Hin. apply filter_In in Hin. destruct Hin as [_ Hafter].
    rewrite (strictly_after_dated _ _ _ Hmd) in Hafter. lia.
Qed.

End Unread.


(** In the sample store alice's cursor is the timestamp of the first
    message: she is given the second one only. *)
Lemma get_unread_for_after_cursor_witness :
  exists all_msgs,
    get_all_messages Sample.two = Ok all_msgs
    /\ Permutation all_msgs (parsable Sample.two)
    /\ StronglySorted ts_le all_msgs
    /\ get_unread_for Iso.parse "alice" Sample.two
       = Ok (filter (strictly_after Iso.parse Sample.t0) all_msgs)
    /\ StronglySorted ts_le (filter (strictly_after Iso.parse Sample.t0) all_msgs)
    /\ (forall m, In m (filter (strictly_after Iso.parse Sample.t0) all_msgs) <->
                  In m (parsable Sample.two)
                  /\ exists d, dated Iso.parse m d /\ instant Sample.t0 < instant d)
    /\ (forall m d, dated Iso.parse m d -> instant d = instant Sample.t0 ->
                    ~ In m (filter (strictly_after Iso.parse Sample.t0) all_msgs)).
Proof.
  apply (get_unread_for_after_cursor Iso.parse "alice" Sample.two Sample.registry
           (VStr "2025-11-16T20:30:45.123456+00:00") Sample.t0).
  - simpl. repeat constructor; simpl; intuition discriminate.
  - reflexivity.
  - reflexivity.
  - reflexivity.
  - constructor; [|constructor; [|constructor]].
    + exists Sample.t1. split; [eexists; split; reflexivity|].
      split; intros H; discriminate H.
    + exists Sample.t0. split; [eexists; split; reflexivity|].
      split; intros H; discriminate H.
Defined.

(** C3 fails as stated, in three ways.  A cursor that parses but carries no
    UTC offset cannot be compared with the timestamps [send_message] writes:
    over the two well-formed sample messages reading alice's unread messages
    raises [TypeError].  Next to a cursor that parses, a record whose
    timestamp is not a date makes it raise [ValueError].  And the messages
    are selected by instant but listed by timestamp text: with offsets that
    differ, a record is returned whose text sorts before the cursor's, and
    two returned records stand in the order of their texts, the later
    instant first. *)
Lemma get_unread_for_after_cursor_as_given :
  (parse_iso Iso.parse (VStr "2025-11-16T20:30:45.123456")
   = Ok (mkdt 2025 11 16 20 30 45 123456 None)
   /\ get_all_messages Cursors.naive = Ok [Sample.hello; Sample.reply]
   /\ get_unread_for Iso.parse "alice" Cursors.naive = Raise TypeError)
  /\ (parsable Cursors.stamped_soon = [Sample.odd]
      /\ get_unread_for Iso.parse "alice" Cursors.stamped_soon
         = Raise (ValueError "Invalid isoformat string"))
  /\ (exists t d_york d_year,
        parse_iso Iso.parse (VStr Cursors.between) = Ok t
        /\ dated Iso.parse Sample.new_york d_york
        /\ dated Iso.parse Sample.new_year d_year
        /\ instant d_year < instant t < instant d_york
        /\ get_unread_for Iso.parse "r" Cursors.offsets = Ok [Sample.new_york]
        /\ ts_text Sample.new_york = "2024-12-31T23:00:00.000000-05:00"
        /\ String.ltb "2024-12-31T23:00:00.000000-05:00" Cursors.between = true
        /\ get_unread_for Iso.parse "q" Cursors.offsets
           = Ok [Sample.new_york; Sample.new_year]).
Proof.
  split; [repeat split; vm_compute; reflexivity|].
  split; [split; vm_compute; reflexivity|].
  exists (mkdt 2025 1 1 2 0 0 0 (Some 0)),
         (mkdt 2024 12 31 23 0 0 0 (Some (-18000000000))),
         (mkdt 2025 1 1 0 0 0 0 (Some 0)).
  split; [vm_compute; reflexivity|].
  split; [eexists; split; vm_compute; reflexivity|].
  split; [eexists; split; vm_compute; reflexivity|].
  split; [split; vm_compute; reflexivity|].
  repeat split; vm_compute; reflexivity.
Qed.

(* ------------------------------------------------------------------ *)
(** ** Files and records that do not parse *)

(** C2 fails as stated: a message file that parses to a record without a
    timestamp is not left out of the messages read, and reading the unread
    messages of a reader whose cursor parses then raises [KeyError]; reading
    all messages itself raises when a file holds a document that is not an
    object, or when the timestamps of two records cannot be ordered. *)
Lemma reading_raises_on_undated_record :
  (parsable Sample.with_undated = [Sample.undated]
   /\ py_getitem Sample.undated "timestamp" = Raise (KeyError "timestamp")
   /\ get_all_messages Sample.with_undated = Ok [Sample.undated]
   /\ get_unread_for Iso.parse "alice" Sample.with_undated = Raise (KeyError "timestamp"))
  /\ get_all_messages Sample.with_scalar = Raise AttributeError
  /\ get_all_messages Sample.with_mixed = Raise TypeError.
Proof. repeat split; vm_compute; reflexivity. Qed.

Section Tolerance.

Variable fromisoformat : string -> option datetime.

(** C2, as the code has it. Let every message file either fail to parse or
    parse to an object whose timestamp is absent or a text.  Reading all
    messages raises nothing and returns the records of all the files that
    parse, ascending by timestamp with a missing timestamp counted as the
    empty text; only files that fail to parse are left out.  Reading the
    unread messages of a reader returns that list when the registry is a
    mapping giving the reader no cursor, and, when the reader's cursor
    parses as [t] and every record carries a timestamp that parses and can
    be compared with [t], the records of it strictly after [t]. *)
Theorem reading_skips_unparsable_files :
  forall (s : store),
    NoDup (map fst (messages_dir s)) ->
    Forall (fun m => exists x, has_key m x) (parsable s) ->
    exists all_msgs,
      get_all_messages s = Ok all_msgs
      /\ Permutation all_msgs (parsable s)
      /\ StronglySorted key_le all_msgs
      /\ (forall agent_name reg,
            load_last_seen s = VDict reg ->
            no_cursor fromisoformat reg agent_name ->
            get_unread_for fromisoformat agent_name s = Ok all_msgs)
      /\ (forall agent_name reg v t,
            load_last_seen s = VDict reg ->
            Dict.find agent_name reg = Some v ->
            parse_iso fromisoformat v = Ok t ->
            all_dated fromisoformat t (parsable s) ->
            get_unread_for fromisoformat agent_name s
            = Ok (filter (strictly_after fromisoformat t) all_msgs)).
Proof.
  intros s Hnd Hkeys.
  destruct (get_all_messages_spec s Hkeys) as (all_msgs & Hall & Hp & Hs).
  assert (Hperm : Permutation all_msgs (parsable s))
    by (rewrite Hp; now apply read_all_perm).
  exists all_msgs. repeat (split; [assumption|]). split.
  - intros agent_name reg Hload Hno.
    now rewrite (get_unread_for_no_cursor _ _ _ _ Hload Hno).
  - intros agent_name reg v t Hload Hfind Hparse Hdated.
    rewrite (get_unread_for_cursor _ _ _ _ _ _ Hload Hfind Hparse), Hall. simpl.
    apply filterM_filter.
    assert (Hd : all_dated fromisoformat t all_msgs)
      by (eapply Permutation_Forall; [symmetry; exact Hperm|exact Hdated]).
    eapply Forall_impl; [|exact Hd].
    intros m (d & Hmd & Hc).
    rewrite (newer_than_dated _ _ _ _ Hmd), (strictly_after_dated _ _ _ _ Hmd).
    now apply gt_comparable.
Qed.

End Tolerance.

(** The sample store holds a file that does not parse: both messages are
    read, and carol, who has no cursor, is given both. *)
Lemma reading_skips_unparsable_files_witness :
  In ("broken.json", Corrupt) (messages_dir Sample.two)
  /\ exists all_msgs,
      get_all_messages Sample.two = Ok all_msgs
      /\ Permutation all_msgs [Sample.reply; Sample.hello]
      /\ get_unread_for Iso.parse "carol" Sample.two = Ok all_msgs.
Proof.
  split; [right; left; reflexivity|].
  destruct (reading_skips_unparsable_files Iso.parse Sample.two)
    as (all_msgs & Hall & Hperm & _ & Hno & _).
  - simpl. repeat constructor; simpl; intuition discriminate.
  - repeat constructor; eexists; reflexivity.
  - exists all_msgs. split; [exact Hall|]. split; [exact Hperm|].
    apply (Hno "carol" Sample.registry); [reflexivity|left; reflexivity].
Defined.

(* ------------------------------------------------------------------ *)
(** ** Polling twice *)

Lemma filterM_none :
  forall (A : Type) (p : A -> result bool) (l : list A),
    Forall (fun m => p m = Ok false) l -> filterM p l = Ok [].
Proof.
  intros A p l H. induction H as [|m l Hm _ IH]; simpl; [reflexivity|].
  now rewrite Hm, IH.
Qed.

Lemma filterM_nil_inv :
  forall (A : Type) (p : A -> result bool) (l : list A),
    filterM p l = Ok [] -> Forall (fun m => p m = Ok false) l.
Proof.
  intros A p. induction l as [|x l IH]; simpl; intros H; [constructor|].
  destruct (p x) as [b|] eqn:Hx; simpl in H; [|discriminate].
  destruct (filterM p l) as [r|]; simpl in H; [|discriminate].
  destruct b; [discriminate|]. injection H as ->. constructor; auto.
Qed.

(** The last element kept by a filter splits the list: nothing after it is
    kept. *)
Lemma filterM_last :
  forall (A : Type) (p : A -> result bool) (d : A) (l r : list A),
    filterM p l = Ok r -> r <> [] ->
    exists pre post,
      l = (pre ++ last r d :: post)%list
      /\ p (last r d) = Ok true
      /\ Forall (fun m => p m = Ok false) post.
Proof.
  intros A p d. induction l as [|x l IH]; simpl; intros r H Hne.
  - injection H as <-. congruence.
  - destruct (p x) as [b|] eqn:Hx; simpl in H; [|discriminate].
    destruct (filterM p l) as [r'|] eqn:Hr; simpl in H; [|discriminate].
    injection H as <-.
    destruct r' as [|y r'].
    + destruct b; [|congruence].
      exists [], l. simpl. repeat split; auto. now apply filterM_nil_inv.
    + destruct (IH (y :: r') eq_refl) as (pre & post & Hl & Hp & Hpost); [discriminate|].
      exists (x :: pre), post.
      assert (Hlast : last (if b then x :: y :: r' else y :: r') d = last (y :: r') d)
        by (destruct b; reflexivity).
      rewrite Hlast. simpl. split; [now rewrite Hl|auto].
Qed.

Lemma strongly_sorted_around :
  forall (A : Type) (R : A -> A -> Prop) (pre post : list A) (x : A),
    StronglySorted R (pre ++ x :: post) ->
    Forall (fun a => R a x) pre /\ Forall (R x) post.
Proof.
  intros A R pre post x. induction pre as [|a pre IH]; simpl; intros H.
  - inversion H; subst. auto.
  - inversion H as [|? ? Hs Ha]; subst. destruct (IH Hs) as [H1 H2].
    split; [|exact H2]. constructor; [|exact H1].
    rewrite Forall_forall in Ha. apply Ha. apply in_or_app. right. now left.
Qed.

Lemma ensure_dirs_spec :
  forall s, exists s1,
    ensure_dirs s = (Ok tt, s1)
    /\ messages_dir s1 = messages_dir s
    /\ load_last_seen s1 = load_last_seen s
    /\ last_seen_file s1 <> None.
Proof.
  intros s. unfold ensure_dirs, load_last_seen.
  destruct (last_seen_file s) as [f|] eqn:E.
  - exists s. rewrite E. repeat split; congruence.
  - eexists. split; [reflexivity|]. simpl. repeat split; congruence.
Qed.

Section Polling.

Variable fromisoformat : string -> option datetime.

Lemma dated_unique :
  forall m d d', dated fromisoformat m d -> dated fromisoformat m d' -> d = d'.
Proof.
  intros m d d' (x & Hx & Hd) (x' & Hx' & Hd'). unfold has_timestamp in *.
  assert (x' = x) by congruence. subst. congruence.
Qed.

Lemma get_unread_for_inv :
  forall agent_name s unread,
    get_unread_for fromisoformat agent_name s = Ok unread ->
    exists reg all_msgs,
      load_last_seen s = VDict reg
      /\ get_all_messages s = Ok all_msgs
      /\ (unread = all_msgs
          \/ exists t, filterM (newer_than fromisoformat t) all_msgs = Ok unread).
Proof.
  intros agent_name s unread H. unfold get_unread_for in H.
  destruct (load_last_seen s) as [| | | |reg] eqn:Hload; try discriminate.
  simpl in H. exists reg.
  destruct (get_all_messages s) as [all_msgs|] eqn:Hall; simpl in H; [|discriminate].
  exists all_msgs. split; [reflexivity|]. split; [reflexivity|].
  destruct (match Dict.find agent_name reg with Some v => v | None => VNone end)
    as [| | |x|]; simpl in H; try (left; congruence).
  destruct (fromisoformat x); simpl in H; [right; eauto|left; congruence].
Qed.

(** C6, as the code has it. Let every record of a parsable message file
    carry a timestamp that parses, the order of the texts agreeing with the
    order of the instants.  If reading the unread messages of a reader
    returns a non-empty list, advancing the reader's cursor over that list
    succeeds, and reading the unread messages again then returns the empty
    list. *)
Theorem second_poll_is_empty :
  forall (agent_name : string) (s : store) (unread : list value),
    chronological fromisoformat (parsable s) ->
    get_unread_for fromisoformat agent_name s = Ok unread ->
    unread <> [] ->
    exists s',
      update_last_seen agent_name unread s = (Ok tt, s')
      /\ messages_dir s' = messages_dir s
      /\ get_unread_for fromisoformat agent_name s' = Ok [].
Proof.
  intros agent_name s unread [Hdated Horder] Hread Hne.
  destruct (get_unread_for_inv _ _ _ Hread) as (reg & all_msgs & Hload & Hall & Hcase).
  assert (Hts : all_timestamped (parsable s)).
  { eapply Forall_impl; [|exact Hdated]. intros m (d & x & Hx & _). now exists x. }
  destruct (get_all_messages_spec s (all_timestamped_keyed _ Hts)) as (out & Hout & Hp & Hs).
  rewrite Hall in Hout. injection Hout as <-.
  assert (Hincl : forall m, In m all_msgs -> In m (parsable s)).
  { intros m Hm. apply read_all_incl. eapply Permutation_in; eauto. }
  assert (Hts' : all_timestamped all_msgs).
  { unfold all_timestamped in *. rewrite Forall_forall in *. auto. }
  assert (Hsorted : StronglySorted ts_le all_msgs) by now apply key_sorted_ts_sorted.
  rewrite Forall_forall in Hdated.
  (* The last message delivered is stored, and nothing stored is later. *)
  assert (Hlast : In (last unread VNone) all_msgs
                  /\ forall m d dl, In m all_msgs -> dated fromisoformat m d ->
                                    dated fromisoformat (last unread VNone) dl ->
                                    DT.gt d dl = Ok false).
  { destruct Hcase as [->|[t Hfilter]].
    - split; [now apply last_in|].
      intros m d dl Hm Hd Hdl.
      apply (Horder m (last all_msgs VNone)); auto.
      + apply Hincl. now apply last_in.
      + now apply sorted_below_last.
    - destruct (filterM_last _ _ VNone _ _ Hfilter Hne)
        as (pre & post & Hsplit & Hkept & Hpost).
      assert (Hin : In (last unread VNone) all_msgs)
        by (rewrite Hsplit; apply in_or_app; right; now left).
      split; [exact Hin|].
      intros m d dl Hm Hd Hdl.
      rewrite Hsplit in Hsorted.
      destruct (strongly_sorted_around _ _ _ _ _ Hsorted) as [Hbefore Hafter].
      rewrite Forall_forall in Hbefore, Hafter, Hpost.
      rewrite Hsplit in Hm. apply in_app_or in Hm. destruct Hm as [Hm|[<-|Hm]].
      + apply (Horder m (last unread VNone)); auto.
        apply Hincl. rewrite Hsplit. apply in_or_app. now left.
      + rewrite (dated_unique _ _ _ Hd Hdl). apply gt_irrefl.
      + exfalso.
        assert (Hm' : In m all_msgs)
          by (rewrite Hsplit; apply in_or_app; right; now right).
        pose proof (Horder (last unread VNone) m dl d (Hincl _ Hin) (Hincl _ Hm')
                      Hdl Hd (Hafter m Hm)) as H1.
        pose proof (Hpost m Hm) as H2. rewrite (newer_than_dated _ _ _ _ Hd) in H2.
        rewrite (newer_than_dated _ _ _ _ Hdl) in Hkept.
        apply gt_spec in H1, H2, Hkept.
        destruct H1 as [_ H1], H2 as [_ H2], Hkept as [_ H3]. lia. }
  destruct Hlast as [Hin Hlater].
  destruct (Hdated _ (Hincl _ Hin)) as (dl & Hdl).
  pose proof Hdl as (x & Hx & Hparse).
  eexists. split; [|split].
  - destruct unread as [|m0 unread]; [congruence|].
    unfold update_last_seen, bind_io, lift, reading, save_last_seen, atomic_write.
    unfold has_timestamp in Hx. rewrite Hx, Hload. simpl. reflexivity.
  - reflexivity.
  - erewrite get_unread_for_cursor with (v := VStr x) (t := dl);
      [|reflexivity|apply find_set_same|simpl; now rewrite Hparse].
    erewrite get_all_messages_same_dir with (s' := s) by reflexivity.
    rewrite Hall. simpl. apply filterM_none.
    rewrite Forall_forall. intros m Hm.
    destruct (Hdated _ (Hincl _ Hm)) as (d & Hd).
    rewrite (newer_than_dated _ _ _ _ Hd). eauto.
Qed.

End Polling.

(** C6 fails as stated, in two ways.  A record whose timestamp is not a date
    becomes a cursor that does not parse, and a cursor taken from the record
    with the greatest text is not the latest instant when offsets differ: in
    both stores the second poll returns a message again. *)
Lemma second_poll_repeats_message :
  (get_unread_for Iso.parse "r" Sample.with_odd = Ok [Sample.odd]
   /\ exists s',
       update_last_seen "r" [Sample.odd] Sample.with_odd = (Ok tt, s')
       /\ get_unread_for Iso.parse "r" s' = Ok [Sample.odd])
  /\ (get_unread_for Iso.parse "r" Sample.with_offsets
      = Ok [Sample.new_york; Sample.new_year]
      /\ exists s',
          update_last_seen "r" [Sample.new_york; Sample.new_year] Sample.with_offsets
          = (Ok tt, s')
          /\ get_unread_for Iso.parse "r" s' = Ok [Sample.new_york]).
Proof.
  split; (split; [vm_compute; reflexivity|]);
    eexists; (split; [vm_compute; reflexivity|]); vm_compute; reflexivity.
Qed.

(** Turns [dated Iso.parse m d] for a sample record [m] into the value
    of [d]. *)
Ltac resolve_dated H :=
  let x := fresh "x" in
  let Hx := fresh "Hx" in
  let Hp := fresh "Hp" in
  destruct H as (x & Hx & Hp);
  unfold has_timestamp in Hx; vm_compute in Hx;
  injection Hx as <-; vm_compute in Hp; injection Hp as <-.

Lemma sample_two_chronological : chronological Iso.parse (parsable Sample.two).
Proof.
  split.
  - constructor; [|constructor; [|constructor]].
    + exists Sample.t1. eexists. split; reflexivity.
    + exists Sample.t0. eexists. split; reflexivity.
  - intros m1 m2 d1 d2 H1 H2 Hd1 Hd2 Hle.
    destruct H1 as [<-|[<-|[]]]; destruct H2 as [<-|[<-|[]]];
      resolve_dated Hd1; resolve_dated Hd2; try reflexivity.
    destruct Hle as (x & y & Hx & Hy & Hxy).
    unfold has_timestamp in Hx, Hy. vm_compute in Hx, Hy.
    injection Hx as <-. injection Hy as <-. vm_compute in Hxy. discriminate.
Qed.

(** In the sample store alice is given the second message; once her cursor
    is advanced over it, she is given nothing. *)
Lemma second_poll_is_empty_witness :
  get_unread_for Iso.parse "alice" Sample.two = Ok [Sample.reply]
  /\ exists s',
      update_last_seen "alice" [Sample.reply] Sample.two = (Ok tt, s')
      /\ messages_dir s' = messages_dir Sample.two
      /\ get_unread_for Iso.parse "alice" s' = Ok [].
Proof.
  split; [reflexivity|].
  apply (second_poll_is_empty Iso.parse "alice" Sample.two [Sample.reply]).
  - exact sample_two_chronological.
  - reflexivity.
  - discriminate.
Defined.

(* ------------------------------------------------------------------ *)
(** ** Sending, then polling *)

Lemma cmd_send_inv :
  forall now author content s m s',
    cmd_send now author content s = (Ok m, s') ->
    exists reg,
      load_last_seen s = VDict reg
      /\ m = make_message (Str.strip author) (DT.isoformat now) (Str.strip content)
      /\ messages_dir s'
         = Dir.put (message_filename (DT.isoformat now) (Str.strip author)) (Doc m)
                   (messages_dir s)
      /\ last_seen_file s'
         = Some (Doc (VDict (Dict.set (Str.strip author) (VStr (DT.isoformat now)) reg))).
Proof.
  intros now author content s m s' H.
  destruct (ensure_dirs_spec s) as (s1 & He & Hdir & Hload & _).
  unfold cmd_send, bind_io in H. rewrite He in H.
  destruct (validate_author_raises author) as [[a Ha]|[msg Ha]];
    [|unfold send_message, bind_io, lift in H; rewrite Ha in H; discriminate].
  destruct (validate_message_raises content) as [[c Hc]|[msg Hc]];
    [|unfold send_message, bind_io, lift in H; rewrite Ha, Hc in H; discriminate].
  rewrite (send_message_ok _ _ _ _ _ _ Ha Hc) in H.
  destruct (validate_author_inv _ _ Ha) as [-> _].
  destruct (validate_message_inv _ _ Hc) as [-> _].
  set (ts := DT.isoformat now) in *.
  set (fn := message_filename ts (Str.strip author)) in *.
  unfold reading, lift in H.
  change (load_last_seen (mkstore _ (last_seen_file s1) _)) with (load_last_seen s1) in H.
  rewrite Hload in H.
  destruct (load_last_seen s) as [| | | |reg]; cbn in H; try discriminate.
  exists reg. inversion H; subst. rewrite Hdir. auto.
Qed.

Lemma parsable_put :
  forall fn v d r,
    In r (flat_map (fun e => match snd e with
                             | Doc v => if Str.endswith (fst e) ".json" then [v] else []
                             | Corrupt => []
                             end) (Dir.put fn (Doc v) d)) ->
    r = v
    \/ In r (flat_map (fun e => match snd e with
                                | Doc v => if Str.endswith (fst e) ".json" then [v] else []
                                | Corrupt => []
                                end) d).
Proof.
  intros fn v d r. induction d as [|[n g] d IH]; simpl.
  - destruct (Str.endswith fn ".json"); simpl; intuition.
  - destruct (String.eqb fn n); simpl; rewrite !in_app_iff.
    + intros [H|H]; [|auto].
      destruct (Str.endswith fn ".json"); simpl in H; intuition.
    + intros [H|H]; [auto|]. destruct (IH H); auto.
Qed.

Section SendThenPoll.

Variable fromisoformat : string -> option datetime.

(** C1, as the code has it. When the send command succeeds, the new message
    is stored in its file and the registry is written back with the cursor
    of the author as stored, which is the given author without its
    surrounding whitespace, set to the timestamp of the message.  Provided
    that timestamp parses back, reading the unread messages of that trimmed
    author in the resulting store never returns a list containing the
    message, and it does return a list when every record already stored
    carries a timestamp that parses and can be compared with the new
    one. *)
Theorem cmd_send_then_poll :
  forall (now d : datetime) (author content : string) (s s' : store) (m : value),
    cmd_send now author content s = (Ok m, s') ->
    fromisoformat (DT.isoformat now) = Some d ->
    Dir.lookup (message_filename (DT.isoformat now) (Str.strip author)) (messages_dir s')
    = Some (Doc m)
    /\ has_timestamp m (DT.isoformat now)
    /\ (exists reg', load_last_seen s' = VDict reg'
                     /\ Dict.find (Str.strip author) reg' = Some (VStr (DT.isoformat now)))
    /\ (forall unread, get_unread_for fromisoformat (Str.strip author) s' = Ok unread ->
                       ~ In m unread)
    /\ (all_dated fromisoformat d (parsable s) ->
        exists unread, get_unread_for fromisoformat (Str.strip author) s' = Ok unread).
Proof.
  intros now d author content s s' m Hsend Hparse.
  destruct (cmd_send_inv _ _ _ _ _ _ Hsend) as (reg & Hload & Hm & Hdir & Hreg).
  assert (Hts : has_timestamp m (DT.isoformat now)) by (subst m; reflexivity).
  assert (Hmd : dated fromisoformat m d) by (exists (DT.isoformat now); auto).
  assert (Hload' : load_last_seen s'
                   = VDict (Dict.set (Str.strip author) (VStr (DT.isoformat now)) reg))
    by (unfold load_last_seen; now rewrite Hreg).
  assert (Hcursor : get_unread_for fromisoformat (Str.strip author) s'
                    = (all_msgs <- get_all_messages s' ;;
                       filterM (newer_than fromisoformat d) all_msgs)).
  { apply (get_unread_for_cursor fromisoformat _ _ _ (VStr (DT.isoformat now)) d Hload').
    - apply find_set_same.
    - simpl. now rewrite Hparse. }
  split; [rewrite Hdir; apply lookup_put_same|]. split; [exact Hts|]. split.
  { eexists. split; [exact Hload'|apply find_set_same]. }
  split.
  - intros unread Hunread Hin. rewrite Hcursor in Hunread.
    destruct (get_all_messages s') as [all_msgs|]; simpl in Hunread; [|discriminate].
    pose proof (filterM_in _ _ _ _ Hunread m Hin) as Hnewer.
    rewrite (newer_than_dated _ _ _ _ Hmd), gt_irrefl in Hnewer. discriminate.
  - intros Hdated.
    assert (Hdated' : all_dated fromisoformat d (parsable s')).
    { unfold all_dated in *. rewrite Forall_forall in *. intros r Hr.
      unfold parsable in Hr. rewrite Hdir in Hr.
      destruct (parsable_put _ _ _ _ Hr) as [->|Hr'].
      - exists d. split; [exact Hmd|]. unfold comparable. tauto.
      - now apply Hdated. }
    pose proof (dated_timestamped _ _ _ Hdated') as Htimestamped.
    destruct (get_all_messages_spec s' (all_timestamped_keyed _ Htimestamped))
      as (all_msgs & Hall & Hp & _).
    rewrite Hcursor, Hall. simpl.
    exists (filter (strictly_after fromisoformat d) all_msgs).
    apply filterM_filter. rewrite Forall_forall. intros r Hr.
    unfold all_dated in Hdated'. rewrite Forall_forall in Hdated'.
    destruct (Hdated' r) as (dr & Hrd & Hc).
    { apply read_all_incl. eapply Permutation_in; eauto. }
    rewrite (newer_than_dated _ _ _ _ Hrd), (strictly_after_dated _ _ _ _ Hrd).
    now apply gt_comparable.
Qed.

End SendThenPoll.

(** C1 fails as stated: after a send as [" bob"] the cursor advanced is that
    of ["bob"], and reading the unread messages of [" bob"] returns the
    message just sent. *)
Lemma cmd_send_then_poll_as_given :
  validate_author Sample.spaced_bob = Ok "bob"
  /\ exists m s',
      cmd_send Sample.t0 Sample.spaced_bob "hi" Sample.empty = (Ok m, s')
      /\ load_last_seen s' = VDict [("bob", VStr "2025-11-16T20:30:45.123456+00:00")]
      /\ get_unread_for Iso.parse Sample.spaced_bob s' = Ok [m].
Proof.
  split; [reflexivity|].
  eexists. eexists. split; [vm_compute; reflexivity|].
  split; vm_compute; reflexivity.
Qed.

(** After bob's send into the sample store, bob's cursor is the timestamp of
    his message and he is not given it. *)
Lemma cmd_send_then_poll_witness :
  exists m s',
    cmd_send Sample.t1 "bob " "again" Sample.two = (Ok m, s')
    /\ (exists reg', load_last_seen s' = VDict reg'
                     /\ Dict.find "bob" reg' = Some (VStr "2025-11-16T20:31:00.000007+00:00"))
    /\ (forall unread, get_unread_for Iso.parse "bob" s' = Ok unread -> ~ In m unread)
    /\ exists unread, get_unread_for Iso.parse "bob" s' = Ok unread.
Proof.
  eexists. eexists. split; [vm_compute; reflexivity|].
  pose proof (cmd_send_then_poll Iso.parse Sample.t1 Sample.t1 "bob " "again" Sample.two
                _ _ eq_refl eq_refl) as (_ & _ & Hreg & Hnot & Hsome).
  split; [exact Hreg|]. split; [exact Hnot|].
  apply Hsome.
  constructor; [|constructor; [|constructor]].
  - exists Sample.t1. split; [eexists; split; reflexivity|].
    split; intros H; discriminate H.
  - exists Sample.t0. split; [eexists; split; reflexivity|].
    split; intros H; discriminate H.
Defined.


(* ------------------------------------------------------------------ *)
(** ** The order of the timestamps that sending writes

    The rendering of a UTC clock reading has fixed-width, zero-padded
    fields, most significant first: comparing two renderings as texts
    compares the instants. *)

Lemma compare_app :
  forall x y s t : string,
    String.length x = String.length y ->
    String.compare (x ++ s) (y ++ t)
    = match String.compare x y with Eq => String.compare s t | c => c end.
Proof.
  induction x as [|a x IH]; intros [|b y] s t H; simpl in *; try discriminate; auto.
  destruct (Ascii.compare a b); auto.
Qed.

Lemma length_app :
  forall a b : string, String.length (a ++ b) = (String.length a + String.length b)%nat.
Proof. induction a as [|c a IH]; intros b; simpl; auto. Qed.

Lemma digits_length : forall w n, String.length (Str.digits w n) = w.
Proof.
  induction w as [|w IH]; intros n; simpl; auto.
  rewrite length_app. simpl. rewrite IH. lia.
Qed.

Lemma digit_compare :
  forall a b, Ascii.compare (Str.digit a) (Str.digit b) = Z.compare (a mod 10) (b mod 10).
Proof.
  intros a b. unfold Ascii.compare, Str.digit.
  pose proof (Z.mod_pos_bound a 10 ltac:(lia)).
  pose proof (Z.mod_pos_bound b 10 ltac:(lia)).
  rewrite !N_ascii_embedding by lia.
  rewrite Z2N.inj_compare by lia.
  destruct (Z.compare_spec (48 + a mod 10) (48 + b mod 10)); symmetry;
    [apply Z.compare_eq_iff|apply Z.compare_lt_iff|apply Z.compare_gt_iff]; lia.
Qed.

Lemma digits_compare :
  forall w a b,
    0 <= a < 10 ^ Z.of_nat w -> 0 <= b < 10 ^ Z.of_nat w ->
    String.compare (Str.digits w a) (Str.digits w b) = Z.compare a b.
Proof.
  induction w as [|w IH]; intros a b Ha Hb.
  - simpl in *. assert (a = 0) by lia. assert (b = 0) by lia. subst. reflexivity.
  - rewrite Nat2Z.inj_succ, Z.pow_succ_r in Ha, Hb by lia.
    simpl. rewrite compare_app by now rewrite !digits_length.
    rewrite IH by (split; [apply Z.div_pos; lia|apply Z.div_lt_upper_bound; lia]).
    simpl. rewrite digit_compare.
    pose proof (Z.div_mod a 10 ltac:(lia)). pose proof (Z.div_mod b 10 ltac:(lia)).
    pose proof (Z.mod_pos_bound a 10 ltac:(lia)).
    pose proof (Z.mod_pos_bound b 10 ltac:(lia)).
    destruct (Z.compare_spec (a / 10) (b / 10));
      destruct (Z.compare_spec (a mod 10) (b mod 10)); symmetry;
      try (apply Z.compare_eq_iff; lia);
      try (apply Z.compare_lt_iff; lia);
      try (apply Z.compare_gt_iff; lia).
Qed.

Lemma days_in_month_bounds : forall y m, 28 <= DT.days_in_month y m <= 31.
Proof.
  intros y m. unfold DT.days_in_month.
  repeat match goal with |- context [if ?b then _ else _] => destruct b end; lia.
Qed.

Lemma isoformat_compare :
  forall a b, valid_utc a -> valid_utc b ->
    String.compare (DT.isoformat a) (DT.isoformat b) = fields_compare a b.
Proof.
  intros a b (Oa & Ya & Ma & Da & Ha & Mia & Sa & Ua) (Ob & Yb & Mb & Db & Hb & Mib & Sb & Ub).
  pose proof (days_in_month_bounds (year a) (month a)).
  pose proof (days_in_month_bounds (year b) (month b)).
  unfold DT.isoformat, fields_compare. rewrite Oa, Ob.
  repeat (rewrite compare_app by (rewrite ?digits_length; reflexivity)).
  rewrite !compare_refl.
  repeat (rewrite digits_compare by (simpl; lia)).
  simpl.
  repeat match goal with |- context [?x ?= ?y] => destruct (x ?= y) end; reflexivity.
Qed.

Lemma days_before_month_step :
  forall y m m', 1 <= m -> m < m' -> m' <= 13 ->
    DT.days_before_month y m + DT.days_in_month y m <= DT.days_before_month y m'.
Proof.
  intros y m m' H1 H2 H3.
  assert (Hm : m = 1 \/ m = 2 \/ m = 3 \/ m = 4 \/ m = 5 \/ m = 6 \/ m = 7 \/ m = 8
               \/ m = 9 \/ m = 10 \/ m = 11 \/ m = 12) by lia.
  assert (Hm' : m' = 2 \/ m' = 3 \/ m' = 4 \/ m' = 5 \/ m' = 6 \/ m' = 7 \/ m' = 8
               \/ m' = 9 \/ m' = 10 \/ m' = 11 \/ m' = 12 \/ m' = 13) by lia.
  unfold DT.days_before_month, DT.days_in_month.
  destruct (DT.is_leap y);
    repeat (destruct Hm as [->|Hm]); try subst m;
    repeat (destruct Hm' as [->|Hm']); try subst m';
    first [lia | apply Z.leb_le; vm_compute; reflexivity].
Qed.

Lemma days_in_year :
  forall y, DT.days_before_month y 13 = 365 + (if DT.is_leap y then 1 else 0).
Proof.
  intros y. unfold DT.days_before_month, DT.days_in_month.
  destruct (DT.is_leap y); vm_compute; reflexivity.
Qed.

Lemma days_before_year_step :
  forall y, DT.days_before_year y + DT.days_before_month y 13 <= DT.days_before_year (y + 1).
Proof.
  intros y. rewrite days_in_year. unfold DT.days_before_year, DT.is_leap.
  replace (y + 1 - 1) with y by lia.
  destruct (Z.eqb_spec (y mod 4) 0); destruct (Z.eqb_spec (y mod 100) 0);
    destruct (Z.eqb_spec (y mod 400) 0); cbn [andb orb negb];
    Z.to_euclidean_division_equations; lia.
Qed.

Lemma days_before_year_mono :
  forall y y', y <= y' -> DT.days_before_year y <= DT.days_before_year y'.
Proof.
  intros y y' H. unfold DT.days_before_year.
  Z.to_euclidean_division_equations. lia.
Qed.

Lemma days_before_month_nonneg : forall y m, 1 <= m <= 12 -> 0 <= DT.days_before_month y m.
Proof.
  intros y m H. destruct (Z.eq_dec m 1) as [->|Hne]; [vm_compute; discriminate|].
  pose proof (days_before_month_step y 1 m ltac:(lia) ltac:(lia) ltac:(lia)).
  pose proof (days_in_month_bounds y 1).
  replace (DT.days_before_month y 1) with 0 in * by reflexivity. lia.
Qed.

Lemma ordinal_by_year :
  forall a b, valid_utc a -> valid_utc b -> year a < year b -> DT.ordinal a < DT.ordinal b.
Proof.
  intros a b (_ & Ya & Ma & Da & _) (_ & Yb & Mb & Db & _) H. unfold DT.ordinal.
  pose proof (days_before_month_step (year a) (month a) 13 ltac:(lia) ltac:(lia) ltac:(lia)).
  pose proof (days_before_year_step (year a)).
  pose proof (days_before_year_mono (year a + 1) (year b) ltac:(lia)).
  pose proof (days_before_month_nonneg (year b) (month b) Mb).
  lia.
Qed.

Lemma ordinal_by_month :
  forall a b, valid_utc a -> valid_utc b ->
              year a = year b -> month a < month b -> DT.ordinal a < DT.ordinal b.
Proof.
  intros a b (_ & Ya & Ma & Da & _) (_ & Yb & Mb & Db & _) Hy H. unfold DT.ordinal.
  pose proof (days_before_month_step (year a) (month a) (month b) ltac:(lia) H ltac:(lia)).
  rewrite <- Hy. lia.
Qed.

Lemma fields_stamp :
  forall a b, valid_utc a -> valid_utc b -> fields_compare a b <> Gt -> DT.stamp a <= DT.stamp b.
Proof.
  intros a b Va Vb H.
  pose proof (ordinal_by_year a b Va Vb) as Hy.
  pose proof (ordinal_by_month a b Va Vb) as Hm.
  assert (Hd : year a = year b -> month a = month b ->
               DT.ordinal b - DT.ordinal a = day b - day a)
    by (intros E1 E2; unfold DT.ordinal; rewrite E1, E2; lia).
  destruct Va as (_ & _ & _ & _ & Ha & Mia & Sa & Ua).
  destruct Vb as (_ & _ & _ & _ & Hb & Mib & Sb & Ub).
  unfold DT.stamp. unfold fields_compare, lex in H.
  destruct (Z.compare_spec (year a) (year b)); [|specialize (Hy ltac:(lia)); lia|congruence].
  destruct (Z.compare_spec (month a) (month b)); [|specialize (Hm ltac:(lia) ltac:(lia)); lia|congruence].
  specialize (Hd ltac:(lia) ltac:(lia)).
  destruct (Z.compare_spec (day a) (day b)); [|lia|congruence].
  destruct (Z.compare_spec (hour a) (hour b)); [|lia|congruence].
  destruct (Z.compare_spec (minute a) (minute b)); [|lia|congruence].
  destruct (Z.compare_spec (second a) (second b)); [|lia|congruence].
  destruct (Z.compare_spec (microsecond a) (microsecond b)); [|lia|congruence].
  lia.
Qed.

Lemma isoformat_order :
  forall a b, valid_utc a -> valid_utc b ->
              String.leb (DT.isoformat a) (DT.isoformat b) = true ->
              DT.gt a b = Ok false.
Proof.
  intros a b Va Vb H.
  assert (Hs : DT.stamp a <= DT.stamp b).
  { apply fields_stamp; auto. rewrite <- isoformat_compare by assumption.
    unfold String.leb in H. destruct (String.compare _ _); congruence. }
  destruct Va as (Oa & _). destruct Vb as (Ob & _).
  unfold DT.gt. rewrite Oa, Ob. f_equal. apply Z.ltb_ge. lia.
Qed.

Section Sent.

Variable fromisoformat : string -> option datetime.

(** Records stamped by [send_message] are in chronological order when in
    textual order. *)
Lemma sent_chronological :
  forall l, Forall (sent fromisoformat) l -> chronological fromisoformat l.
Proof.
  intros l H. rewrite Forall_forall in H. split.
  - rewrite Forall_forall. intros m Hm.
    destruct (H m Hm) as (d & _ & Hx & Hp). exists d, (DT.isoformat d). auto.
  - intros m1 m2 d1 d2 H1 H2 Hd1 Hd2 (x & y & Hx & Hy & Hxy).
    destruct (H m1 H1) as (e1 & V1 & Hx1 & Hp1).
    destruct (H m2 H2) as (e2 & V2 & Hx2 & Hp2).
    assert (d1 = e1) by (eapply dated_unique; [exact Hd1|eexists; eauto]).
    assert (d2 = e2) by (eapply dated_unique; [exact Hd2|eexists; eauto]).
    subst. apply isoformat_order; auto.
    unfold has_timestamp in *.
    assert (x = DT.isoformat e1) by congruence.
    assert (y = DT.isoformat e2) by congruence. now subst.
Qed.

(** Sending keeps the store one of records stamped by [send_message]. *)
Lemma cmd_send_keeps_sent :
  forall now author content s s' m,
    valid_utc now ->
    fromisoformat (DT.isoformat now) = Some now ->
    cmd_send now author content s = (Ok m, s') ->
    Forall (sent fromisoformat) (parsable s) ->
    Forall (sent fromisoformat) (parsable s').
Proof.
  intros now author content s s' m Hv Hp Hsend H.
  destruct (cmd_send_inv _ _ _ _ _ _ Hsend) as (reg & _ & Hm & Hdir & _).
  rewrite Forall_forall in *. intros r Hr.
  unfold parsable in Hr. rewrite Hdir in Hr.
  destruct (parsable_put _ _ _ _ Hr) as [->|Hr']; [|now apply H].
  exists now. subst m. repeat split; auto; apply Hv.
Qed.

End Sent.

(* ------------------------------------------------------------------ *)
(** ** The sample parser reads back what the clock renders *)

Lemma digit_val_digit : forall n, Iso.digit_val (Str.digit n) = Some (n mod 10).
Proof.
  intros n. unfold Iso.digit_val, Str.digit.
  pose proof (Z.mod_pos_bound n 10 ltac:(lia)).
  rewrite N_ascii_embedding by lia. rewrite Z2N.id by lia.
  destruct (Z.leb_spec 48 (48 + n mod 10)); [|lia].
  destruct (Z.leb_spec (48 + n mod 10) 57); [|lia].
  cbn [andb]. f_equal. lia.
Qed.

Lemma two_digits : forall n, 0 <= n < 100 -> (0 * 10 + (n / 10) mod 10) * 10 + n mod 10 = n.
Proof. intros n H. Z.to_euclidean_division_equations. lia. Qed.

Lemma four_digits :
  forall n, 0 <= n < 10000 ->
    (((0 * 10 + (n / 10 / 10 / 10) mod 10) * 10 + (n / 10 / 10) mod 10) * 10
     + (n / 10) mod 10) * 10 + n mod 10 = n.
Proof. intros n H. Z.to_euclidean_division_equations. lia. Qed.

Lemma six_digits :
  forall n, 0 <= n < 1000000 ->
    (((((0 * 10 + (n / 10 / 10 / 10 / 10 / 10) mod 10) * 10
        + (n / 10 / 10 / 10 / 10) mod 10) * 10
       + (n / 10 / 10 / 10) mod 10) * 10 + (n / 10 / 10) mod 10) * 10
     + (n / 10) mod 10) * 10 + n mod 10 = n.
Proof. intros n H. Z.to_euclidean_division_equations. lia. Qed.

Lemma within_true : forall lo x hi, lo <= x <= hi -> Iso.within lo x hi = true.
Proof.
  intros lo x hi H. unfold Iso.within.
  apply andb_true_intro. split; apply Z.leb_le; lia.
Qed.

Lemma parse_isoformat :
  forall d, valid_utc d -> Iso.parse (DT.isoformat d) = Some d.
Proof.
  intros [y mo dd h mi sc us tz] (O & Y & M & D & H & Mi & S & U). simpl in *. subst tz.
  unfold DT.isoformat. cbn [year month day hour minute second microsecond utcoffset].
  change (DT.offset_suffix (Some 0)) with "+00:00".
  unfold Iso.parse, Iso.offset, Iso.field, Iso.sep.
  cbn -[Z.div Z.modulo Z.mul Z.add Str.digit Iso.digit_val DT.days_in_month Iso.within].
  rewrite !digit_val_digit.
  change (Iso.digit_val "0") with (Some 0).
  cbn -[Z.div Z.modulo Z.mul Z.add Str.digit Iso.digit_val DT.days_in_month Iso.within].
  pose proof (days_in_month_bounds y mo).
  rewrite (four_digits y), (two_digits mo), (two_digits dd), (two_digits h),
    (two_digits mi), (two_digits sc), (six_digits us) by lia.
  change ((0 * 10 + 0) * 10 + 0) with 0.
  rewrite !within_true by lia.
  reflexivity.
Qed.

(** With the sample parser, every send by a clock in range keeps the store
    one whose textual and chronological orders agree. *)
Lemma cmd_send_keeps_chronological :
  forall now author content s s' m,
    valid_utc now ->
    cmd_send now author content s = (Ok m, s') ->
    Forall (sent Iso.parse) (parsable s) ->
    Forall (sent Iso.parse) (parsable s') /\ chronological Iso.parse (parsable s').
Proof.
  intros now author content s s' m Hv Hsend H.
  assert (H' : Forall (sent Iso.parse) (parsable s'))
    by (eapply cmd_send_keeps_sent; eauto using parse_isoformat).
  split; [exact H'|now apply sent_chronological].
Qed.

(* ------------------------------------------------------------------ *)
(** * Further properties of the program *)

(* ------------------------------------------------------------------ *)
(** ** Trimming twice *)

Lemma lstrip_fixed :
  forall t, Str.opt_space (Str.first_char t) = false -> Str.lstrip t = t.
Proof. intros [|c t] H; simpl in *; [reflexivity|now rewrite H]. Qed.

Lemma rstrip_fixed :
  forall t, Str.opt_space (Str.last_char t) = false -> Str.rstrip t = t.
Proof.
  induction t as [|c t IH]; intros H; [reflexivity|].
  destruct t as [|c' t].
  - simpl in *. now rewrite H.
  - change (Str.last_char (String c (String c' t))) with (Str.last_char (String c' t)) in H.
    change (Str.rstrip (String c (String c' t)))
      with (match Str.rstrip (String c' t) with
            | EmptyString => if Str.isspace c then EmptyString else String c EmptyString
            | r => String c r
            end).
    now rewrite (IH H).
Qed.

Lemma strip_strip : forall s, Str.strip (Str.strip s) = Str.strip s.
Proof.
  intros s. destruct (strip_spec s) as (_ & _ & _ & _ & _ & Hf & Hl).
  unfold Str.strip at 1. now rewrite (lstrip_fixed _ Hf), (rstrip_fixed _ Hl).
Qed.

Lemma blank_iff : forall a, blank a = true <-> Str.strip a = "".
Proof. intros a. unfold blank. apply strip_empty_iff. Qed.

Lemma blank_strip : forall a, blank (Str.strip a) = blank a.
Proof.
  intros a. destruct (blank a) eqn:E.
  - apply blank_iff. rewrite strip_strip. now apply blank_iff.
  - destruct (blank (Str.strip a)) eqn:E'; [|reflexivity].
    apply blank_iff in E'. rewrite strip_strip in E'. apply blank_iff in E'. congruence.
Qed.

Lemma validate_author_strip : forall a, validate_author (Str.strip a) = validate_author a.
Proof.
  intros a. unfold validate_author. fold (blank (Str.strip a)). fold (blank a).
  now rewrite blank_strip, strip_strip.
Qed.

Lemma validate_message_strip : forall c, validate_message (Str.strip c) = validate_message c.
Proof.
  intros c. unfold validate_message. fold (blank (Str.strip c)). fold (blank c).
  now rewrite blank_strip, strip_strip.
Qed.

(** X1. Trimming before sending changes nothing: sending an author and a
    content that were trimmed beforehand, as the tool layer does, returns the
    same message or raises the same error, and leaves the same store, as
    sending them as given; a validated author is returned unchanged when
    validated again. *)
Theorem send_message_pretrimmed :
  forall (now : datetime) (author content : string) (s : store),
    send_message now (Str.strip author) (Str.strip content) s
    = send_message now author content s
    /\ (forall r, validate_author author = Ok r -> validate_author r = Ok r).
Proof.
  intros now author content s. split.
  - unfold send_message, bind_io, lift.
    now rewrite validate_author_strip, validate_message_strip.
  - intros r H. destruct (validate_author_inv _ _ H) as [-> _].
    now rewrite validate_author_strip.
Qed.

(* ------------------------------------------------------------------ *)
(** ** Initialising *)

Lemma get_unread_for_same :
  forall fromisoformat agent_name s s',
    load_last_seen s' = load_last_seen s ->
    messages_dir s' = messages_dir s ->
    get_unread_for fromisoformat agent_name s' = get_unread_for fromisoformat agent_name s.
Proof.
  intros fromisoformat agent_name s s' Hl Hm. unfold get_unread_for.
  now rewrite Hl, (get_all_messages_same_dir s' s Hm).
Qed.

(** X2. Initialising is idempotent and invisible to readers: a second
    [ensure_dirs] changes nothing, an existing registry file is never
    rewritten, whatever it holds, and all messages, every reader's unread
    messages and the registry as loaded are the same before and after. *)
Theorem ensure_dirs_idempotent :
  forall (fromisoformat : string -> option datetime) (s : store),
    exists s1,
      ensure_dirs s = (Ok tt, s1)
      /\ ensure_dirs s1 = (Ok tt, s1)
      /\ (last_seen_file s <> None -> s1 = s)
      /\ messages_dir s1 = messages_dir s
      /\ load_last_seen s1 = load_last_seen s
      /\ get_all_messages s1 = get_all_messages s
      /\ (forall agent_name,
            get_unread_for fromisoformat agent_name s1
            = get_unread_for fromisoformat agent_name s).
Proof.
  intros fromisoformat s.
  destruct (ensure_dirs_spec s) as (s1 & He & Hdir & Hload & Hsome).
  exists s1. split; [exact He|]. split.
  { unfold ensure_dirs. destruct (last_seen_file s1); [reflexivity|congruence]. }
  split.
  { intros H. unfold ensure_dirs in He.
    destruct (last_seen_file s); [congruence|contradiction]. }
  split; [exact Hdir|]. split; [exact Hload|]. split.
  - now apply get_all_messages_same_dir.
  - intros agent_name. now apply get_unread_for_same.
Qed.

(* ------------------------------------------------------------------ *)
(** ** What sending stores *)

Lemma string_app_assoc : forall a b c : string, ((a ++ b) ++ c = a ++ (b ++ c))%string.
Proof. induction a as [|x a IH]; intros b c; simpl; [reflexivity|now rewrite IH]. Qed.

Lemma substring_skip :
  forall (x y : string) (k : nat),
    substring (String.length x) k (x ++ y) = substring 0 k y.
Proof. induction x as [|c x IH]; intros y k; simpl; auto. Qed.

Lemma endswith_json : forall x, Str.endswith (x ++ ".json") ".json" = true.
Proof.
  intros x. unfold Str.endswith. rewrite length_app.
  replace (String.length x + String.length ".json" - String.length ".json")%nat
    with (String.length x) by lia.
  rewrite substring_skip. simpl substring. rewrite String.eqb_refl.
  rewrite andb_true_r. apply Nat.leb_le. simpl. lia.
Qed.

Lemma message_filename_json :
  forall ts a, Str.endswith (message_filename ts a) ".json" = true.
Proof.
  intros ts a. unfold message_filename.
  rewrite <- !string_app_assoc. apply endswith_json.
Qed.

Lemma put_in : forall fn f d, In (fn, f) (Dir.put fn f d).
Proof.
  intros fn f d. induction d as [|[n g] d IH]; simpl; [now left|].
  destruct (String.eqb fn n); [now left|now right].
Qed.

Lemma lookup_put_other :
  forall fn fn' f d, fn' <> fn -> Dir.lookup fn' (Dir.put fn f d) = Dir.lookup fn' d.
Proof.
  intros fn fn' f d Hne. induction d as [|[n g] d IH]; simpl.
  - apply String.eqb_neq in Hne. now rewrite Hne.
  - destruct (String.eqb fn n) eqn:E; simpl.
    + apply String.eqb_eq in E. subst n.
      apply String.eqb_neq in Hne. now rewrite Hne.
    + destruct (String.eqb fn' n); auto.
Qed.

Lemma put_names_known :
  forall fn f g d, Dir.lookup fn d = Some g -> map fst (Dir.put fn f d) = map fst d.
Proof.
  intros fn f g d. induction d as [|[n h] d IH]; simpl; [discriminate|].
  destruct (String.eqb fn n) eqn:E; simpl.
  - apply String.eqb_eq in E. now subst.
  - intros H. now rewrite IH.
Qed.

Lemma put_names_new :
  forall fn f d, Dir.lookup fn d = None -> map fst (Dir.put fn f d) = (map fst d ++ [fn])%list.
Proof.
  intros fn f d. induction d as [|[n h] d IH]; simpl; [reflexivity|].
  destruct (String.eqb fn n) eqn:E; [discriminate|].
  intros H. simpl. now rewrite IH.
Qed.

Lemma lookup_none_names :
  forall fn d, Dir.lookup fn d = None -> ~ In fn (map fst d).
Proof.
  intros fn d. induction d as [|[n h] d IH]; simpl; [tauto|].
  destruct (String.eqb fn n) eqn:E; [discriminate|].
  apply String.eqb_neq in E. intros H [Hn|Hin]; [congruence|now apply IH].
Qed.

Lemma put_nodup :
  forall fn f d, NoDup (map fst d) -> NoDup (map fst (Dir.put fn f d)).
Proof.
  intros fn f d H. destruct (Dir.lookup fn d) as [g|] eqn:E.
  - now rewrite (put_names_known _ _ _ _ E).
  - rewrite (put_names_new _ _ _ E).
    apply NoDup_app; [exact H|repeat constructor; simpl; tauto|].
    intros x Hx [<-|[]]. now apply (lookup_none_names _ _ E).
Qed.

Lemma parsable_in :
  forall s fn v,
    In (fn, Doc v) (messages_dir s) -> Str.endswith fn ".json" = true -> In v (parsable s).
Proof.
  intros s fn v Hin Hj. unfold parsable. apply in_flat_map.
  exists (fn, Doc v). split; [exact Hin|]. simpl. rewrite Hj. now left.
Qed.

(** Reading all messages after one record was put under a [.json] name. *)
Lemma read_back :
  forall (s s' : store) (fn : string) (m : value) (x : string),
    messages_dir s' = Dir.put fn (Doc m) (messages_dir s) ->
    Str.endswith fn ".json" = true ->
    has_key m x ->
    NoDup (names s) ->
    Forall (fun r => exists x, has_key r x) (parsable s) ->
    exists out,
      get_all_messages s' = Ok out
      /\ In m out
      /\ (forall r, In r out -> r = m \/ In r (parsable s))
      /\ NoDup (names s').
Proof.
  intros s s' fn m x Hdir Hj Hx Hnd Hkeys.
  assert (Hnd' : NoDup (names s')) by (unfold names; rewrite Hdir; now apply put_nodup).
  assert (Hold : forall r, In r (parsable s') -> r = m \/ In r (parsable s)).
  { intros r Hr. unfold parsable in Hr. rewrite Hdir in Hr. now apply parsable_put in Hr. }
  assert (Hkeys' : Forall (fun r => exists x, has_key r x) (parsable s')).
  { rewrite Forall_forall in *. intros r Hr. destruct (Hold r Hr) as [->|Hr'].
    - now exists x.
    - now apply Hkeys. }
  destruct (get_all_messages_spec s' Hkeys') as (out & Hout & Hperm & _).
  assert (Hperm' : Permutation out (parsable s'))
    by (rewrite Hperm; now apply read_all_perm).
  exists out. split; [exact Hout|]. split.
  { eapply Permutation_in; [symmetry; exact Hperm'|].
    apply (parsable_in s' fn); [rewrite Hdir; apply put_in|exact Hj]. }
  split; [|exact Hnd'].
  intros r Hr. apply Hold. eapply Permutation_in; eauto.
Qed.

(** X3. A message that was sent is read back as it was returned: after a
    successful [send_message] into a directory that lists each name once and
    whose records have a text or no timestamp, reading all messages returns a
    list that holds the returned message, whose author and content are the
    trimmed ones and whose timestamp is the rendered clock reading, and
    otherwise only records that were stored before. *)
Theorem sent_message_is_read :
  forall (now : datetime) (author content : string) (s s' : store) (m : value),
    send_message now author content s = (Ok m, s') ->
    NoDup (names s) ->
    Forall (fun r => exists x, has_key r x) (parsable s) ->
    exists out,
      get_all_messages s' = Ok out
      /\ In m out
      /\ m = make_message (Str.strip author) (DT.isoformat now) (Str.strip content)
      /\ (forall r, In r out -> r = m \/ In r (parsable s))
      /\ NoDup (names s').
Proof.
  intros now author content s s' m Hsend Hnd Hkeys.
  destruct (send_message_inv _ _ _ _ _ _ Hsend) as (Ha & Hc & Hm).
  rewrite (send_message_ok _ _ _ _ _ _ Ha Hc) in Hsend.
  injection Hsend as _ Hs'. rewrite <- Hm in Hs'.
  assert (Hdir : messages_dir s'
                 = Dir.put (message_filename (DT.isoformat now) (Str.strip author)) (Doc m)
                           (messages_dir s)) by (now rewrite <- Hs').
  destruct (read_back s s' _ m (DT.isoformat now) Hdir (message_filename_json _ _))
    as (out & Hout & Hin & Hold & Hnd'); auto.
  { now rewrite Hm. }
  exists out. auto.
Qed.

(** A send into the sample store is read back with both earlier messages. *)
Lemma sent_message_is_read_witness :
  exists out,
    send_message More.t2 " carol " " hi " Sample.two = (Ok More.carol_hi, More.after_carol)
    /\ get_all_messages More.after_carol = Ok out
    /\ In More.carol_hi out
    /\ More.carol_hi = make_message "carol" "2025-11-16T20:31:00.000008+00:00" "hi".
Proof.
  assert (Hsend : send_message More.t2 " carol " " hi " Sample.two
                  = (Ok More.carol_hi, More.after_carol)) by (vm_compute; reflexivity).
  destruct (sent_message_is_read More.t2 " carol " " hi " Sample.two _ _ Hsend)
    as (out & Hout & Hin & Hm & _).
  - unfold names. simpl. repeat constructor; simpl; intuition discriminate.
  - repeat constructor; eexists; reflexivity.
  - exists out. split; [exact Hsend|]. split; [exact Hout|]. split; [exact Hin|exact Hm].
Defined.

(** X4. The send command touches one file and one cursor: when it succeeds,
    every message file other than the new message's keeps its content, and
    the registry is the one loaded before with only the entry of the trimmed
    author changed. *)
Theorem cmd_send_frame :
  forall (now : datetime) (author content : string) (s s' : store) (m : value),
    cmd_send now author content s = (Ok m, s') ->
    (forall fn, fn <> message_filename (DT.isoformat now) (Str.strip author) ->
                Dir.lookup fn (messages_dir s') = Dir.lookup fn (messages_dir s))
    /\ exists reg reg',
        load_last_seen s = VDict reg
        /\ load_last_seen s' = VDict reg'
        /\ (forall other, other <> Str.strip author ->
                          Dict.find other reg' = Dict.find other reg).
Proof.
  intros now author content s s' m H.
  destruct (cmd_send_inv _ _ _ _ _ _ H) as (reg & Hload & _ & Hdir & Hreg).
  split.
  - intros fn Hne. rewrite Hdir. now apply lookup_put_other.
  - exists reg. eexists. split; [exact Hload|]. split.
    + unfold load_last_seen. rewrite Hreg. reflexivity.
    + intros other Hne. now apply find_set_other.
Qed.

(** Carol's send into the sample store leaves both message files and
    alice's cursor as they were. *)
Lemma cmd_send_frame_witness :
  exists m s',
    cmd_send More.t2 "carol" "hi" Sample.two = (Ok m, s')
    /\ Dir.lookup "2025-11-16T20-30-45.123456+00-00_bob.json" (messages_dir s')
       = Some (Doc Sample.hello)
    /\ exists reg', load_last_seen s' = VDict reg'
                    /\ Dict.find "alice" reg' = Dict.find "alice" Sample.registry.
Proof.
  eexists. eexists. split; [vm_compute; reflexivity|].
  pose proof (cmd_send_frame More.t2 "carol" "hi" Sample.two _ _ eq_refl) as [Hf Hr].
  split.
  - rewrite Hf; [reflexivity|discriminate].
  - destruct Hr as (reg & reg' & Hl & Hl' & Ho).
    exists reg'. split; [exact Hl'|].
    rewrite Ho by discriminate. vm_compute in Hl. now injection Hl as <-.
Defined.

(** X5. Two sends at the same clock reading by authors that trim to the same
    name share a file name: the second replaces the record the first stored,
    and the directory holds no more names than before it. *)
Theorem send_message_collision :
  forall (now : datetime) (a1 a2 c1 c2 : string) (s s1 s2 : store) (m1 m2 : value),
    send_message now a1 c1 s = (Ok m1, s1) ->
    send_message now a2 c2 s1 = (Ok m2, s2) ->
    Str.strip a1 = Str.strip a2 ->
    exists fn,
      Dir.lookup fn (messages_dir s1) = Some (Doc m1)
      /\ Dir.lookup fn (messages_dir s2) = Some (Doc m2)
      /\ names s2 = names s1
      /\ (forall fn', fn' <> fn ->
                      Dir.lookup fn' (messages_dir s2) = Dir.lookup fn' (messages_dir s1))
      /\ (Str.strip c1 <> Str.strip c2 -> m1 <> m2).
Proof.
  intros now a1 a2 c1 c2 s s1 s2 m1 m2 H1 H2 Ha.
  destruct (send_message_inv _ _ _ _ _ _ H1) as (Ha1 & Hc1 & Hm1).
  destruct (send_message_inv _ _ _ _ _ _ H2) as (Ha2 & Hc2 & Hm2).
  rewrite (send_message_ok _ _ _ _ _ _ Ha1 Hc1) in H1. injection H1 as _ Hs1.
  rewrite (send_message_ok _ _ _ _ _ _ Ha2 Hc2) in H2. injection H2 as _ Hs2.
  rewrite <- Ha in Hs2, Hm2. rewrite <- Hm1 in Hs1. rewrite <- Hm2 in Hs2.
  set (fn := message_filename (DT.isoformat now) (Str.strip a1)) in *.
  assert (Hd1 : messages_dir s1 = Dir.put fn (Doc m1) (messages_dir s)) by now rewrite <- Hs1.
  assert (Hd2 : messages_dir s2 = Dir.put fn (Doc m2) (messages_dir s1)) by now rewrite <- Hs2.
  assert (Hl1 : Dir.lookup fn (messages_dir s1) = Some (Doc m1))
    by (rewrite Hd1; apply lookup_put_same).
  exists fn. split; [exact Hl1|]. split; [rewrite Hd2; apply lookup_put_same|]. split.
  { unfold names. rewrite Hd2. now apply (put_names_known _ _ _ _ Hl1). }
  split.
  - intros fn' Hne. rewrite Hd2. now apply lookup_put_other.
  - intros Hc Heq. rewrite Hm1, Hm2 in Heq. unfold make_message in Heq. congruence.
Qed.

(** Carol sends twice within the same microsecond: one file, holding the
    second message. *)
Lemma send_message_collision_witness :
  send_message More.t2 "carol" "first" Sample.empty = (Ok More.carol_first, More.after_first)
  /\ send_message More.t2 " carol" "second" More.after_first
     = (Ok More.carol_second, More.after_second)
  /\ names More.after_second = names More.after_first
  /\ get_all_messages More.after_second = Ok [More.carol_second]
  /\ More.carol_first <> More.carol_second.
Proof.
  assert (H1 : send_message More.t2 "carol" "first" Sample.empty
               = (Ok More.carol_first, More.after_first)) by (vm_compute; reflexivity).
  assert (H2 : send_message More.t2 " carol" "second" More.after_first
               = (Ok More.carol_second, More.after_second)) by (vm_compute; reflexivity).
  destruct (send_message_collision More.t2 "carol" " carol" "first" "second"
              Sample.empty _ _ _ _ H1 H2 eq_refl)
    as (fn & _ & _ & Hn & _ & Hne).
  split; [exact H1|]. split; [exact H2|]. split; [exact Hn|]. split; [reflexivity|].
  apply Hne. discriminate.
Defined.

(* ------------------------------------------------------------------ *)
(** ** File names *)

Lemma digit_not_colon : forall n, Ascii.eqb (Str.digit n) ":" = false.
Proof.
  intros n. apply Ascii.eqb_neq. intros H.
  apply (f_equal N_of_ascii) in H. unfold Str.digit in H.
  pose proof (Z.mod_pos_bound n 10 ltac:(lia)).
  rewrite N_ascii_embedding in H by lia.
  change (N_of_ascii ":") with 58%N in H. lia.
Qed.

Lemma replace_app :
  forall a b x y, Str.replace a b (x ++ y) = Str.replace a b x ++ Str.replace a b y.
Proof. intros a b. induction x as [|c x IH]; intros y; simpl; [reflexivity|now rewrite IH]. Qed.

Lemma replace_digits : forall w n, Str.replace ":" "-" (Str.digits w n) = Str.digits w n.
Proof.
  induction w as [|w IH]; intros n; simpl; [reflexivity|].
  rewrite replace_app, IH. simpl. now rewrite digit_not_colon.
Qed.

Lemma replaced_compare :
  forall a b, valid_utc a -> valid_utc b ->
    String.compare (Str.replace ":" "-" (DT.isoformat a))
                   (Str.replace ":" "-" (DT.isoformat b))
    = fields_compare a b.
Proof.
  intros a b (Oa & Ya & Ma & Da & Ha & Mia & Sa & Ua) (Ob & Yb & Mb & Db & Hb & Mib & Sb & Ub).
  pose proof (days_in_month_bounds (year a) (month a)).
  pose proof (days_in_month_bounds (year b) (month b)).
  unfold DT.isoformat, fields_compare. rewrite Oa, Ob.
  change (DT.offset_suffix (Some 0)) with "+00:00".
  rewrite !replace_app, !replace_digits.
  repeat (rewrite compare_app by (rewrite ?digits_length; reflexivity)).
  rewrite !compare_refl.
  repeat (rewrite digits_compare by (simpl; lia)).
  simpl.
  repeat match goal with |- context [?x ?= ?y] => destruct (x ?= y) end; reflexivity.
Qed.

Lemma replaced_length :
  forall a, valid_utc a -> String.length (Str.replace ":" "-" (DT.isoformat a)) = 32%nat.
Proof.
  intros a (Oa & _). unfold DT.isoformat. rewrite Oa.
  change (DT.offset_suffix (Some 0)) with "+00:00".
  rewrite !replace_app, !replace_digits, !length_app, !digits_length. reflexivity.
Qed.

Lemma message_filename_compare :
  forall d1 d2 a1 a2, valid_utc d1 -> valid_utc d2 ->
    String.compare (message_filename (DT.isoformat d1) a1)
                   (message_filename (DT.isoformat d2) a2)
    = match fields_compare d1 d2 with
      | Eq => String.compare ("_" ++ a1 ++ ".json") ("_" ++ a2 ++ ".json")
      | c => c
      end.
Proof.
  intros d1 d2 a1 a2 V1 V2. unfold message_filename.
  rewrite compare_app by now rewrite !replaced_length.
  now rewrite replaced_compare.
Qed.

Lemma fields_compare_eq :
  forall a b, valid_utc a -> valid_utc b -> fields_compare a b = Eq -> a = b.
Proof.
  intros [y1 mo1 d1 h1 mi1 s1 u1 o1] [y2 mo2 d2 h2 mi2 s2 u2 o2] (O1 & _) (O2 & _).
  unfold fields_compare, lex. simpl in *.
  destruct (Z.compare_spec y1 y2); try discriminate.
  destruct (Z.compare_spec mo1 mo2); try discriminate.
  destruct (Z.compare_spec d1 d2); try discriminate.
  destruct (Z.compare_spec h1 h2); try discriminate.
  destruct (Z.compare_spec mi1 mi2); try discriminate.
  destruct (Z.compare_spec s1 s2); try discriminate.
  destruct (Z.compare_spec u1 u2); try discriminate.
  intros _. congruence.
Qed.

Lemma fields_compare_antisym :
  forall a b, fields_compare b a = CompOpp (fields_compare a b).
Proof.
  intros a b. unfold fields_compare, lex.
  rewrite (Z.compare_antisym (year a) (year b)), (Z.compare_antisym (month a) (month b)),
    (Z.compare_antisym (day a) (day b)), (Z.compare_antisym (hour a) (hour b)),
    (Z.compare_antisym (minute a) (minute b)), (Z.compare_antisym (second a) (second b)),
    (Z.compare_antisym (microsecond a) (microsecond b)).
  repeat match goal with |- context [?x ?= ?y] => destruct (x ?= y) end; reflexivity.
Qed.

Lemma list_ascii_app :
  forall a b : string,
    list_ascii_of_string (a ++ b) = (list_ascii_of_string a ++ list_ascii_of_string b)%list.
Proof. induction a as [|c a IH]; intros b; simpl; [reflexivity|now rewrite IH]. Qed.

Lemma string_app_inv_tail : forall a b c : string, (a ++ c = b ++ c)%string -> a = b.
Proof.
  intros a b c H. apply (f_equal list_ascii_of_string) in H.
  rewrite !list_ascii_app in H. apply app_inv_tail in H.
  apply (f_equal string_of_list_ascii) in H.
  now rewrite !string_of_list_ascii_of_string in H.
Qed.

(** Settles [valid_utc] for a sample clock reading. *)
Ltac in_range :=
  unfold valid_utc; vm_compute; repeat split; try (intro; discriminate).

Lemma message_filename_inj :
  forall d1 d2 a1 a2,
    valid_utc d1 -> valid_utc d2 ->
    message_filename (DT.isoformat d1) a1 = message_filename (DT.isoformat d2) a2 ->
    d1 = d2 /\ a1 = a2.
Proof.
  intros d1 d2 a1 a2 V1 V2 H.
  pose proof (message_filename_compare d1 d2 a1 a2 V1 V2) as Hc.
  rewrite H, compare_refl in Hc.
  destruct (fields_compare d1 d2) eqn:Hf; try discriminate.
  split; [now apply fields_compare_eq|].
  symmetry in Hc. apply String.compare_eq_iff in Hc.
  injection Hc as Hc. now apply string_app_inv_tail in Hc.
Qed.

(** X6. The file name of a message identifies its clock reading and its
    author: for clock readings in range, messages sent at different readings
    or by authors with different trimmed names never share a file name, and
    so are stored side by side; different readings render as different
    timestamps. *)
Theorem message_filename_distinct :
  forall (d1 d2 : datetime) (a1 a2 : string),
    valid_utc d1 -> valid_utc d2 ->
    d1 <> d2 \/ a1 <> a2 ->
    message_filename (DT.isoformat d1) a1 <> message_filename (DT.isoformat d2) a2
    /\ (d1 <> d2 -> DT.isoformat d1 <> DT.isoformat d2).
Proof.
  intros d1 d2 a1 a2 V1 V2 Hne. split.
  - intros Heq. destruct (message_filename_inj d1 d2 a1 a2 V1 V2 Heq) as [Hd Ha].
    destruct Hne; contradiction.
  - intros Hd Heq. apply Hd.
    apply (message_filename_inj d1 d2 "x" "x" V1 V2). now rewrite Heq.
Qed.

(** Bob and alice writing at the same reading get two files. *)
Lemma message_filename_distinct_witness :
  message_filename (DT.isoformat Sample.t0) "bob"
  <> message_filename (DT.isoformat Sample.t0) "alice".
Proof.
  apply (message_filename_distinct Sample.t0 Sample.t0 "bob" "alice");
    [in_range|in_range|right; discriminate].
Defined.

Lemma message_filename_leb :
  forall d1 d2 a1 a2, valid_utc d1 -> valid_utc d2 ->
    String.leb (message_filename (DT.isoformat d1) a1)
               (message_filename (DT.isoformat d2) a2) = true ->
    String.leb (DT.isoformat d1) (DT.isoformat d2) = true.
Proof.
  intros d1 d2 a1 a2 V1 V2 Hle. unfold String.leb in *.
  rewrite (message_filename_compare d1 d2 a1 a2 V1 V2) in Hle.
  rewrite isoformat_compare by assumption.
  destruct (fields_compare d1 d2); congruence.
Qed.

(** X7. File names sort as the clock runs: for clock readings in range, a
    message whose file name sorts before another's was not sent later than
    it, and a message sent strictly earlier has the file name that sorts
    first, whoever the authors are. *)
Theorem message_filename_order :
  forall (d1 d2 : datetime) (a1 a2 : string),
    valid_utc d1 -> valid_utc d2 ->
    (String.leb (message_filename (DT.isoformat d1) a1)
                (message_filename (DT.isoformat d2) a2) = true ->
     DT.gt d1 d2 = Ok false /\ String.leb (DT.isoformat d1) (DT.isoformat d2) = true)
    /\ (instant d1 < instant d2 ->
        String.ltb (message_filename (DT.isoformat d1) a1)
                   (message_filename (DT.isoformat d2) a2) = true).
Proof.
  intros d1 d2 a1 a2 V1 V2.
  pose proof (message_filename_compare d1 d2 a1 a2 V1 V2) as Hc.
  split.
  - intros Hle.
    pose proof (message_filename_leb d1 d2 a1 a2 V1 V2 Hle) as Hiso.
    split; [now apply isoformat_order|exact Hiso].
  - intros Hlt. unfold String.ltb. rewrite Hc.
    assert (Hs : ~ DT.stamp d2 <= DT.stamp d1).
    { destruct V1 as (O1 & _), V2 as (O2 & _). unfold instant in Hlt.
      rewrite O1, O2 in Hlt. lia. }
    destruct (fields_compare d1 d2) eqn:Hf; [| reflexivity |]; exfalso; apply Hs;
      apply fields_stamp; auto; rewrite fields_compare_antisym, Hf; discriminate.
Qed.

(** Bob's sample message was sent before alice's, and its file is listed
    first. *)
Lemma message_filename_order_witness :
  String.ltb (message_filename (DT.isoformat Sample.t0) "bob")
             (message_filename (DT.isoformat Sample.t1) "alice") = true.
Proof.
  apply (message_filename_order Sample.t0 Sample.t1 "bob" "alice");
    [in_range|in_range|vm_compute; reflexivity].
Defined.

(* ------------------------------------------------------------------ *)
(** ** Reading a store that sending wrote *)

Lemma leb_ltb_false : forall a b : string, String.leb a b = true -> String.ltb b a = false.
Proof.
  unfold String.leb, String.ltb. intros a b. rewrite (String.compare_antisym b a).
  destruct (String.compare a b); simpl; congruence.
Qed.

Lemma insert_name_sorted :
  forall x l,
    StronglySorted (fun a b => String.leb a b = true) l ->
    StronglySorted (fun a b => String.leb a b = true) (insert_name x l).
Proof.
  intros x l H. induction H as [|y l Hs IH Hy]; simpl.
  - repeat constructor.
  - destruct (String.ltb y x) eqn:E.
    + constructor; [exact IH|].
      eapply Permutation_Forall; [symmetry; apply insert_name_perm|].
      constructor; [now apply ltb_leb|exact Hy].
    + apply ltb_false_leb in E.
      constructor; [now constructor|].
      constructor; [exact E|].
      eapply Forall_impl; [|exact Hy]. intros z Hz. eapply leb_trans; eauto.
Qed.

Lemma sort_names_sorted :
  forall l, StronglySorted (fun a b => String.leb a b = true) (sort_names l).
Proof.
  induction l as [|x l IH]; simpl; [constructor|]. now apply insert_name_sorted.
Qed.

Lemma insert_keyed_front :
  forall x l,
    text_keyed x -> Forall text_keyed l -> Forall (pair_le x) l ->
    insert_keyed x l = Ok (x :: l).
Proof.
  intros x l [kx Hx] Hl Hle. destruct l as [|y l]; [reflexivity|].
  inversion Hl as [|? ? [ky Hy] _]; subst.
  inversion Hle as [|? ? (x' & y' & Hx' & Hy' & Hxy) _]; subst.
  simpl. rewrite Hy, Hx. simpl.
  assert (x' = kx) by congruence. assert (y' = ky) by congruence. subst.
  now rewrite (leb_ltb_false _ _ Hxy).
Qed.

Lemma sort_keyed_sorted :
  forall l, Forall text_keyed l -> StronglySorted pair_le l -> sort_keyed l = Ok l.
Proof.
  intros l Hl Hs. induction Hs as [|x l Hs IH Hx]; [reflexivity|].
  inversion Hl as [|? ? Hkx Hl']; subst.
  simpl. rewrite (IH Hl'). simpl. now apply insert_keyed_front.
Qed.

Lemma strongly_sorted_unmap :
  forall (A B : Type) (R : A -> A -> Prop) (R' : B -> B -> Prop) (f : A -> B) (l : list A),
    StronglySorted R' (map f l) ->
    (forall a b, In a l -> In b l -> R' (f a) (f b) -> R a b) ->
    StronglySorted R l.
Proof.
  intros A B R R' f. induction l as [|a l IH]; simpl; intros Hs H; [constructor|].
  inversion Hs as [|? ? Hs' Ha]; subst. constructor.
  - apply IH; [exact Hs'|]. intros x y Hx Hy. apply H; now right.
  - rewrite Forall_forall in *. intros b Hb.
    apply H; [now left|now right|]. apply Ha. now apply in_map.
Qed.

Lemma sort_by_key_sorted :
  forall l, all_timestamped l -> StronglySorted ts_le l -> sort_by_key timestamp_key l = Ok l.
Proof.
  intros l Hts Hs.
  destruct (mapM_keys l (all_timestamped_keyed _ Hts)) as (ks & Hks & Hsnd & Hall).
  unfold sort_by_key. rewrite Hks. simpl.
  rewrite sort_keyed_sorted; [simpl; now rewrite Hsnd| |].
  - eapply Forall_impl; [|exact Hall]. now intros p [_ H].
  - apply strongly_sorted_unmap with (R' := ts_le) (f := snd); [now rewrite Hsnd|].
    rewrite Forall_forall in Hall.
    intros p q Hp Hq (x & y & Hx & Hy & Hxy).
    destruct (Hall p Hp) as [Hdp _]. destruct (Hall q Hq) as [Hdq _].
    unfold decorated in *. apply has_timestamp_key in Hx, Hy. unfold has_key in *.
    exists x, y. repeat split; congruence.
Qed.

Lemma flat_map_same :
  forall (A B : Type) (f g : A -> list B) (l : list A),
    (forall a, In a l -> f a = g a) -> flat_map f l = flat_map g l.
Proof.
  intros A B f g. induction l as [|a l IH]; intros H; simpl; [reflexivity|].
  rewrite (H a) by now left. rewrite IH; [reflexivity|].
  intros b Hb. apply H. now right.
Qed.

Lemma list_message_files_in :
  forall s fn, In fn (list_message_files s) ->
               Str.endswith fn ".json" = true /\ exists f, In (fn, f) (messages_dir s).
Proof.
  intros s fn H. unfold list_message_files, listdir in H.
  eapply Permutation_in in H; [|apply sort_names_perm].
  apply filter_In in H. destruct H as [Hin Hj]. split; [exact Hj|].
  apply in_map_iff in Hin. destruct Hin as ([n f] & <- & Hin). now exists f.
Qed.

(** The records read from sorted names that sending wrote are in order. *)
Lemma written_names_sorted :
  forall (g : string -> list value) (ns : list string),
    StronglySorted (fun a b => String.leb a b = true) ns ->
    (forall fn, In fn ns ->
                exists d a c, valid_utc d /\ fn = message_filename (DT.isoformat d) a
                              /\ g fn = [make_message a (DT.isoformat d) c]) ->
    all_timestamped (flat_map g ns) /\ StronglySorted ts_le (flat_map g ns).
Proof.
  intros g ns Hs. induction Hs as [|fn ns Hs IH Hfn]; intros H; simpl.
  - split; constructor.
  - destruct (H fn (or_introl eq_refl)) as (d & a & c & Vd & Hname & Hg).
    destruct IH as [IHt IHs]; [intros x Hx; apply H; now right|].
    rewrite Hg. simpl. split.
    + constructor; [now exists (DT.isoformat d)|exact IHt].
    + constructor; [exact IHs|].
      rewrite Forall_forall in *. intros r Hr.
      apply in_flat_map in Hr. destruct Hr as (fn' & Hin' & Hr).
      destruct (H fn' (or_intror Hin')) as (d' & a' & c' & Vd' & Hname' & Hg').
      rewrite Hg' in Hr. destruct Hr as [<-|[]].
      exists (DT.isoformat d), (DT.isoformat d'). repeat split.
      pose proof (Hfn fn' Hin') as Hle. rewrite Hname, Hname' in Hle.
      now apply (message_filename_leb d d' a a' Vd Vd').
Qed.

(** X8. On a store that sending wrote the re-sort is the identity: when the
    directory lists each name once and every [.json] entry is a message under
    the file name [send_message] gives it, reading all messages returns the
    records in the order of the sorted file names, which is ascending by
    timestamp, and leaves none out. *)
Theorem get_all_messages_file_order :
  forall (s : store),
    NoDup (names s) ->
    (forall e, In e (messages_dir s) -> Str.endswith (fst e) ".json" = true -> written e) ->
    get_all_messages s = Ok (read_all s)
    /\ StronglySorted ts_le (read_all s)
    /\ Permutation (read_all s) (parsable s).
Proof.
  intros s Hnd Hw.
  destruct (written_names_sorted
              (fun fn => match read_message_file fn s with
                         | Ok m => [m]
                         | Raise _ => []
                         end)
              (list_message_files s)) as [Hts Hs].
  - apply sort_names_sorted.
  - intros fn Hfn. destruct (list_message_files_in s fn Hfn) as [Hj [f Hin]].
    destruct (Hw (fn, f) Hin Hj) as (d & a & c & Vd & Hname & Hdoc).
    simpl in Hname, Hdoc. exists d, a, c. split; [exact Vd|]. split; [exact Hname|].
    unfold read_message_file. rewrite (lookup_nodup _ _ _ Hnd Hin), Hdoc. reflexivity.
  - fold (read_all s) in Hts, Hs. split; [|split].
    + unfold get_all_messages. now apply sort_by_key_sorted.
    + exact Hs.
    + now apply read_all_perm.
Qed.

(** In the sample store under the names sending gives, next to a note and a
    temporary file, the messages are read in file name order. *)
Lemma get_all_messages_file_order_witness :
  get_all_messages More.sent_store = Ok [Sample.hello; Sample.reply]
  /\ read_all More.sent_store = [Sample.hello; Sample.reply].
Proof.
  destruct (get_all_messages_file_order More.sent_store) as (Hall & _ & _).
  - unfold names. simpl. repeat constructor; simpl; intuition discriminate.
  - intros e [<-|[<-|[<-|[<-|[]]]]] Hj; try discriminate Hj.
    + exists Sample.t1, "alice", "reply". split; [in_range|]. split; reflexivity.
    + exists Sample.t0, "bob", "hello". split; [in_range|]. split; reflexivity.
  - split; [rewrite Hall|]; reflexivity.
Defined.

(* ------------------------------------------------------------------ *)
(** ** Entries that are not message files *)

Lemma filter_names :
  forall (p : string -> bool) (d : list (string * file)),
    filter p (map fst (filter (fun e => p (fst e)) d)) = filter p (map fst d).
Proof.
  intros p. induction d as [|[n f] d IH]; simpl; [reflexivity|].
  destruct (p n) eqn:E; simpl; rewrite ?E, IH; reflexivity.
Qed.

Lemma lookup_filter :
  forall (p : string -> bool) fn (d : list (string * file)),
    p fn = true -> Dir.lookup fn (filter (fun e => p (fst e)) d) = Dir.lookup fn d.
Proof.
  intros p fn d Hp. induction d as [|[n f] d IH]; simpl; [reflexivity|].
  destruct (p n) eqn:E; simpl.
  - now rewrite IH.
  - destruct (String.eqb fn n) eqn:En; [|exact IH].
    apply String.eqb_eq in En. congruence.
Qed.

(** X9. Only [.json] entries are ever read: removing from the messages
    directory every entry whose name does not end in [.json], such as the
    temporary file of a write under way, changes neither the messages read
    nor any reader's unread messages. *)
Theorem other_entries_ignored :
  forall (fromisoformat : string -> option datetime) (s : store),
    list_message_files (only_json s) = list_message_files s
    /\ get_all_messages (only_json s) = get_all_messages s
    /\ (forall agent_name,
          get_unread_for fromisoformat agent_name (only_json s)
          = get_unread_for fromisoformat agent_name s).
Proof.
  intros fromisoformat s.
  assert (Hfiles : list_message_files (only_json s) = list_message_files s).
  { unfold list_message_files, listdir, only_json. simpl.
    now rewrite (filter_names (fun f => Str.endswith f ".json")). }
  assert (Hall : get_all_messages (only_json s) = get_all_messages s).
  { unfold get_all_messages, read_all. rewrite Hfiles. f_equal.
    apply flat_map_same. intros fn Hfn.
    destruct (list_message_files_in s fn Hfn) as [Hj _].
    unfold read_message_file, only_json. simpl.
    now rewrite (lookup_filter (fun f => Str.endswith f ".json") fn _ Hj). }
  split; [exact Hfiles|]. split; [exact Hall|].
  intros agent_name. unfold get_unread_for. rewrite Hall. reflexivity.
Qed.

(* ------------------------------------------------------------------ *)
(** ** Cursors only move forward on a poll *)

Lemma newer_than_inv :
  forall fromisoformat t m b,
    newer_than fromisoformat t m = Ok b ->
    exists x d, has_timestamp m x /\ fromisoformat x = Some d /\ DT.gt d t = Ok b.
Proof.
  intros fromisoformat t m b H. unfold newer_than in H.
  destruct (py_getitem m "timestamp") as [tv|] eqn:Hg; simpl in H; [|discriminate].
  destruct tv; simpl in H; try discriminate.
  destruct (fromisoformat s) as [d|] eqn:Hp; simpl in H; [|discriminate].
  exists s, d. auto.
Qed.

(** X10. A poll moves a cursor forward only: when the reader's entry parses
    as [t] and reading the unread messages returns a non-empty list, every
    message of the list carries a timestamp that parses to an instant
    strictly after [t], and advancing the cursor over the list succeeds and
    sets the entry to the timestamp of its last message, hence to an instant
    strictly after [t]. *)
Theorem poll_moves_cursor_forward :
  forall (fromisoformat : string -> option datetime)
         (agent_name : string) (s : store) (reg : Dict.t) (v : value) (t : datetime)
         (unread : list value),
    load_last_seen s = VDict reg ->
    Dict.find agent_name reg = Some v ->
    parse_iso fromisoformat v = Ok t ->
    get_unread_for fromisoformat agent_name s = Ok unread ->
    unread <> [] ->
    (forall m, In m unread ->
               exists d, dated fromisoformat m d /\ instant t < instant d)
    /\ exists x d s',
        has_timestamp (last unread VNone) x
        /\ fromisoformat x = Some d
        /\ instant t < instant d
        /\ update_last_seen agent_name unread s = (Ok tt, s')
        /\ load_last_seen s' = VDict (Dict.set agent_name (VStr x) reg)
        /\ Dict.find agent_name (Dict.set agent_name (VStr x) reg) = Some (VStr x).
Proof.
  intros fromisoformat agent_name s reg v t unread Hload Hfind Hparse Hread Hne.
  rewrite (get_unread_for_cursor _ _ _ _ _ _ Hload Hfind Hparse) in Hread.
  destruct (get_all_messages s) as [all_msgs|]; simpl in Hread; [|discriminate].
  assert (Hafter : forall m, In m unread ->
                     exists x d, has_timestamp m x /\ fromisoformat x = Some d
                                 /\ instant t < instant d).
  { intros m Hm. pose proof (filterM_in _ _ _ _ Hread m Hm) as Hn.
    destruct (newer_than_inv _ _ _ _ Hn) as (x & d & Hx & Hd & Hgt).
    apply gt_spec in Hgt. destruct Hgt as [_ Hgt]. symmetry in Hgt.
    apply Z.ltb_lt in Hgt. eauto. }
  split.
  - intros m Hm. destruct (Hafter m Hm) as (x & d & Hx & Hd & Hlt).
    exists d. split; [exists x; auto|exact Hlt].
  - destruct (Hafter _ (last_in _ unread VNone Hne)) as (x & d & Hx & Hd & Hlt).
    exists x, d. eexists. repeat split; try eassumption.
    + destruct unread as [|m0 unread]; [congruence|].
      unfold update_last_seen, bind_io, lift, reading, save_last_seen, atomic_write.
      unfold has_timestamp in Hx. rewrite Hx, Hload. simpl. reflexivity.
    + reflexivity.
    + apply find_set_same.
Qed.

(** Alice's poll of the sample store moves her cursor from the first
    message's timestamp to the second's. *)
Lemma poll_moves_cursor_forward_witness :
  exists x d s',
    has_timestamp (last [Sample.reply] VNone) x
    /\ Iso.parse x = Some d
    /\ instant Sample.t0 < instant d
    /\ update_last_seen "alice" [Sample.reply] Sample.two = (Ok tt, s')
    /\ load_last_seen s' = VDict (Dict.set "alice" (VStr x) Sample.registry)
    /\ Dict.find "alice" (Dict.set "alice" (VStr x) Sample.registry) = Some (VStr x).
Proof.
  apply (poll_moves_cursor_forward Iso.parse "alice" Sample.two Sample.registry
           (VStr "2025-11-16T20:30:45.123456+00:00") Sample.t0 [Sample.reply]);
    try reflexivity.
  discriminate.
Defined.

(* ------------------------------------------------------------------ *)
(** ** The get-messages command *)

(** X11. Without a reader the command only reads: given no reader, or the
    empty text as reader, [cmd_get_messages] returns what reading all
    messages returns and advances no cursor; the message files and the
    registry as loaded are the ones it started from. *)
Theorem cmd_get_messages_without_reader :
  forall (fromisoformat : string -> option datetime) (for_agent : option string) (s : store),
    for_agent = None \/ for_agent = Some "" ->
    exists s1,
      cmd_get_messages fromisoformat for_agent s = (get_all_messages s, s1)
      /\ ensure_dirs s = (Ok tt, s1)
      /\ messages_dir s1 = messages_dir s
      /\ load_last_seen s1 = load_last_seen s.
Proof.
  intros fromisoformat for_agent s H.
  destruct (ensure_dirs_spec s) as (s1 & He & Hdir & Hload & _).
  exists s1. split; [|auto].
  unfold cmd_get_messages, bind_io. rewrite He.
  destruct H as [->| ->]; simpl; now rewrite (get_all_messages_same_dir s1 s Hdir).
Qed.

(** With the empty text as reader, carol is shown both sample messages and
    gets no cursor. *)
Lemma cmd_get_messages_without_reader_witness :
  exists s1,
    cmd_get_messages Iso.parse (Some "") Sample.two = (get_all_messages Sample.two, s1)
    /\ ensure_dirs Sample.two = (Ok tt, s1)
    /\ messages_dir s1 = messages_dir Sample.two
    /\ load_last_seen s1 = load_last_seen Sample.two.
Proof.
  apply (cmd_get_messages_without_reader Iso.parse (Some "") Sample.two).
  right. reflexivity.
Defined.

Lemma cmd_get_messages_for :
  forall fromisoformat name s s1,
    name <> "" ->
    ensure_dirs s = (Ok tt, s1) ->
    cmd_get_messages fromisoformat (Some name) s
    = match get_unread_for fromisoformat name s1 with
      | Ok [] => (Ok [], s1)
      | Ok unread =>
          match update_last_seen name unread s1 with
          | (Ok _, s') => (Ok unread, s')
          | (Raise e, s') => (Raise e, s')
          end
      | Raise e => (Raise e, s1)
      end.
Proof.
  intros fromisoformat name s s1 Hne He.
  unfold cmd_get_messages, bind_io. rewrite He.
  apply String.eqb_neq in Hne. rewrite Hne.
  destruct (get_unread_for fromisoformat name s1) as [[|m unread]|]; reflexivity.
Qed.

(** X12. With a reader the command delivers and commits: it returns the
    reader's unread messages; when there are none it writes nothing beyond
    initialising, and when there are some, the last of which carries a
    timestamp, the registry is written back with only that reader's entry
    set, to that timestamp, and the message files are left as they were. *)
Theorem cmd_get_messages_delivers :
  forall (fromisoformat : string -> option datetime)
         (name : string) (s s1 : store) (unread : list value),
    name <> "" ->
    ensure_dirs s = (Ok tt, s1) ->
    get_unread_for fromisoformat name s = Ok unread ->
    (unread = [] -> cmd_get_messages fromisoformat (Some name) s = (Ok [], s1))
    /\ (forall x, unread <> [] -> has_timestamp (last unread VNone) x ->
          exists reg s',
            cmd_get_messages fromisoformat (Some name) s = (Ok unread, s')
            /\ load_last_seen s = VDict reg
            /\ load_last_seen s' = VDict (Dict.set name (VStr x) reg)
            /\ (forall other, other <> name ->
                  Dict.find other (Dict.set name (VStr x) reg) = Dict.find other reg)
            /\ messages_dir s' = messages_dir s).
Proof.
  intros fromisoformat name s s1 unread Hne He Hread.
  destruct (ensure_dirs_spec s) as (s1' & He' & Hdir & Hload & _).
  rewrite He in He'. injection He' as <-.
  rewrite (cmd_get_messages_for _ _ _ _ Hne He).
  rewrite (get_unread_for_same fromisoformat name s s1 Hload Hdir), Hread.
  split.
  - intros ->. reflexivity.
  - intros x Hnil Hx.
    unfold get_unread_for in Hread.
    destruct (load_last_seen s) as [| | | |reg] eqn:Hreg; try discriminate.
    exists reg. eexists.
    destruct unread as [|m unread]; [congruence|].
    unfold update_last_seen, bind_io, lift, reading, save_last_seen, atomic_write.
    unfold has_timestamp in Hx. rewrite Hx, Hload. simpl.
    repeat split; auto using find_set_other.
Qed.

(** Alice's poll of the sample store returns the second message and sets her
    cursor, leaving the files alone. *)
Lemma cmd_get_messages_delivers_witness :
  exists reg s',
    cmd_get_messages Iso.parse (Some "alice") Sample.two = (Ok [Sample.reply], s')
    /\ load_last_seen Sample.two = VDict reg
    /\ load_last_seen s'
       = VDict (Dict.set "alice" (VStr "2025-11-16T20:31:00.000007+00:00") reg)
    /\ (forall other, other <> "alice" ->
          Dict.find other (Dict.set "alice" (VStr "2025-11-16T20:31:00.000007+00:00") reg)
          = Dict.find other reg)
    /\ messages_dir s' = messages_dir Sample.two.
Proof.
  destruct (cmd_get_messages_delivers Iso.parse "alice" Sample.two Sample.two [Sample.reply])
    as [_ H].
  - discriminate.
  - reflexivity.
  - reflexivity.
  - apply (H "2025-11-16T20:31:00.000007+00:00"); [discriminate|reflexivity].
Defined.

(* ------------------------------------------------------------------ *)
(** ** The tools *)

Lemma send_agent_message_inv :
  forall now author message s r s',
    send_agent_message now author message s = (Returned r, s') ->
    exists s1,
      ensure_dirs s = (Ok tt, s1)
      /\ send_message now author message s1
         = (Ok (make_message (Str.strip author) (DT.isoformat now) (Str.strip message)), s')
      /\ r = "Message posted to development channel from " ++ author.
Proof.
  intros now author message s r s' H. unfold send_agent_message in H.
  destruct (blank author); [discriminate|]. destruct (blank message); [discriminate|].
  destruct (ensure_dirs_spec s) as (s1 & He & _).
  exists s1. split; [exact He|].
  unfold guarded, bind_io in H. rewrite He in H.
  assert (Hsame : send_message now (Str.strip author) (Str.strip message) s1
                  = send_message now author message s1).
  { unfold send_message, bind_io, lift.
    now rewrite validate_author_strip, validate_message_strip. }
  rewrite Hsame in H.
  destruct (send_message now author message s1) as [[m|e] s2] eqn:Hs; [|discriminate].
  destruct (send_message_inv _ _ _ _ _ _ Hs) as (_ & _ & ->).
  unfold ret in H. injection H as <- <-. auto.
Qed.

(** X13. The send tool stores the message but advances no cursor: when
    [send_agent_message] returns, the message is in its file and the registry
    as loaded is the one from before, so that an author without a cursor is
    next given their own message among the unread ones. *)
Theorem send_agent_message_keeps_registry :
  forall (fromisoformat : string -> option datetime)
         (now : datetime) (author message : string) (s s' : store) (r : string),
    send_agent_message now author message s = (Returned r, s') ->
    load_last_seen s' = load_last_seen s
    /\ Dir.lookup (message_filename (DT.isoformat now) (Str.strip author)) (messages_dir s')
       = Some (Doc (make_message (Str.strip author) (DT.isoformat now) (Str.strip message)))
    /\ (forall reg,
          load_last_seen s = VDict reg ->
          no_cursor fromisoformat reg (Str.strip author) ->
          NoDup (names s) ->
          Forall (fun m => exists x, has_key m x) (parsable s) ->
          exists unread,
            get_unread_for fromisoformat (Str.strip author) s' = Ok unread
            /\ In (make_message (Str.strip author) (DT.isoformat now) (Str.strip message))
                  unread).
Proof.
  intros fromisoformat now author message s s' r H.
  destruct (send_agent_message_inv _ _ _ _ _ _ H) as (s1 & He & Hsend & _).
  destruct (ensure_dirs_spec s) as (s1' & He' & Hdir & Hload & _).
  rewrite He in He'. injection He' as <-.
  destruct (send_message_inv _ _ _ _ _ _ Hsend) as (Ha & Hc & _).
  rewrite (send_message_ok _ _ _ _ _ _ Ha Hc) in Hsend. injection Hsend as Hs'.
  set (m := make_message (Str.strip author) (DT.isoformat now) (Str.strip message)) in *.
  set (fn := message_filename (DT.isoformat now) (Str.strip author)) in *.
  assert (Hdir' : messages_dir s' = Dir.put fn (Doc m) (messages_dir s))
    by (rewrite <- Hs', <- Hdir; reflexivity).
  assert (Hload' : load_last_seen s' = load_last_seen s)
    by (rewrite <- Hload, <- Hs'; reflexivity).
  split; [exact Hload'|]. split; [rewrite Hdir'; apply lookup_put_same|].
  intros reg Hreg Hno Hnd Hkeys.
  rewrite Hreg in Hload'.
  rewrite (get_unread_for_no_cursor _ _ _ _ Hload' Hno).
  destruct (read_back s s' fn m (DT.isoformat now) Hdir' (message_filename_json _ _))
    as (out & Hout & Hin & _); auto.
  { reflexivity. }
  eauto.
Qed.

(** Carol, who has no cursor, posts through the tool and is then given her
    own message. *)
Lemma send_agent_message_keeps_registry_witness :
  exists r s' unread,
    send_agent_message More.t2 " carol " " hi " Sample.two = (Returned r, s')
    /\ load_last_seen s' = load_last_seen Sample.two
    /\ get_unread_for Iso.parse "carol" s' = Ok unread
    /\ In More.carol_hi unread.
Proof.
  assert (H : send_agent_message More.t2 " carol " " hi " Sample.two
              = (Returned "Message posted to development channel from  carol ",
                 More.after_carol)) by (vm_compute; reflexivity).
  destruct (send_agent_message_keeps_registry Iso.parse _ _ _ _ _ _ H) as (Hl & _ & Hu).
  destruct (Hu Sample.registry) as (unread & Hunread & Hin).
  - reflexivity.
  - left. reflexivity.
  - unfold names. simpl. repeat constructor; simpl; intuition discriminate.
  - repeat constructor; eexists; reflexivity.
  - eexists. eexists. exists unread. split; [exact H|]. split; [exact Hl|].
    split; [exact Hunread|exact Hin].
Defined.

(** X14. The poll tool is the get-messages command under a trimmed name: a
    name that is empty or only whitespace is refused before the store is
    touched, any other name is trimmed and then treated as the command treats
    it, returning the same list and leaving the same store, with an
    exception of the command reported as a tool error. *)
Theorem get_agent_messages_as_command :
  forall (fromisoformat : string -> option datetime) (for_agent : string) (s : store),
    get_agent_messages fromisoformat for_agent s
    = (if blank for_agent then
         (Failed (ToolError "Agent name is required and cannot be empty" None), s)
       else
         guarded "Failed to retrieve messages: "
                 (cmd_get_messages fromisoformat (Some (Str.strip for_agent))) s)
    /\ get_agent_messages fromisoformat (Str.strip for_agent) s
       = get_agent_messages fromisoformat for_agent s.
Proof.
  intros fromisoformat for_agent s.
  assert (Hcmd : forall name, blank name = false ->
            get_agent_messages fromisoformat name s
            = guarded "Failed to retrieve messages: "
                      (cmd_get_messages fromisoformat (Some (Str.strip name))) s).
  { intros name Hb. unfold get_agent_messages. rewrite Hb.
    assert (Hne : Str.strip name <> "").
    { intros Hs. apply blank_iff in Hs. congruence. }
    destruct (ensure_dirs_spec s) as (s1 & He & _).
    unfold guarded. rewrite (cmd_get_messages_for _ _ _ _ Hne He).
    unfold bind_io. rewrite He.
    destruct (get_unread_for fromisoformat (Str.strip name) s1) as [[|m unread]|];
      try reflexivity. }
  split.
  - destruct (blank for_agent) eqn:Hb; [|now apply Hcmd].
    unfold get_agent_messages. now rewrite Hb.
  - destruct (blank for_agent) eqn:Hb.
    + unfold get_agent_messages. now rewrite blank_strip, Hb.
    + rewrite (Hcmd for_agent Hb), (Hcmd (Str.strip for_agent)) by now rewrite blank_strip.
      now rewrite strip_strip.
Qed.

(* ------------------------------------------------------------------ *)
(** ** A registry file that is missing, broken or not a mapping *)

Lemma cmd_send_run :
  forall now author content s,
    author_constraints (Str.strip author) ->
    content_constraints (Str.strip content) ->
    exists s1 s2,
      ensure_dirs s = (Ok tt, s1)
      /\ send_message now author content s1
         = (Ok (make_message (Str.strip author) (DT.isoformat now) (Str.strip content)), s2)
      /\ last_seen_file s2 = last_seen_file s1
      /\ cmd_send now author content s
         = match py_setitem (load_last_seen s) (Str.strip author) (VStr (DT.isoformat now)) with
           | Ok last_seen =>
               (Ok (make_message (Str.strip author) (DT.isoformat now) (Str.strip content)),
                mkstore (messages_dir s2) (Some (Doc last_seen))
                        (journal s2 ++ [LAST_SEEN_FILE]))
           | Raise e => (Raise e, s2)
           end.
Proof.
  intros now author content s Ha Hc.
  destruct (ensure_dirs_spec s) as (s1 & He & Hdir & Hload & _).
  pose proof (send_message_ok now author content _ _ s1
                (validate_author_ok _ Ha) (validate_message_ok _ Hc)) as Hsend.
  exists s1. eexists. split; [exact He|]. split; [exact Hsend|]. split; [reflexivity|].
  unfold cmd_send, bind_io. rewrite He, Hsend.
  unfold reading, lift.
  change (load_last_seen (mkstore _ (last_seen_file s1) _)) with (load_last_seen s1).
  rewrite Hload. cbn [py_getitem make_message Dict.find String.eqb Ascii.eqb Bool.eqb str_key].
  destruct (py_setitem (load_last_seen s) (Str.strip author) (VStr (DT.isoformat now)));
    reflexivity.
Qed.

(** X15. A registry file holding a document that is not a mapping breaks
    polling and half-completes sending: reading a reader's unread messages
    raises [AttributeError], advancing a cursor raises [TypeError] and writes
    nothing, and the send command raises [TypeError] after it has stored the
    message, leaving the registry file as it was. *)
Theorem registry_not_a_mapping :
  forall (fromisoformat : string -> option datetime)
         (now : datetime) (author content agent_name : string)
         (msgs : list value) (ts v : value) (s : store),
    last_seen_file s = Some (Doc v) ->
    (forall reg, v <> VDict reg) ->
    get_unread_for fromisoformat agent_name s = Raise AttributeError
    /\ (msgs <> [] -> py_getitem (last msgs VNone) "timestamp" = Ok ts ->
        update_last_seen agent_name msgs s = (Raise TypeError, s))
    /\ (author_constraints (Str.strip author) -> content_constraints (Str.strip content) ->
        exists s',
          cmd_send now author content s = (Raise TypeError, s')
          /\ Dir.lookup (message_filename (DT.isoformat now) (Str.strip author))
                        (messages_dir s')
             = Some (Doc (make_message (Str.strip author) (DT.isoformat now)
                                       (Str.strip content)))
          /\ last_seen_file s' = last_seen_file s).
Proof.
  intros fromisoformat now author content agent_name msgs ts v s Hfile Hv.
  assert (Hload : load_last_seen s = v) by (unfold load_last_seen; now rewrite Hfile).
  split; [|split].
  - unfold get_unread_for. rewrite Hload.
    destruct v; try reflexivity. now destruct (Hv items).
  - intros Hne Hts. destruct msgs as [|m msgs]; [congruence|].
    unfold update_last_seen, bind_io, lift, reading. rewrite Hts, Hload.
    destruct v; try reflexivity. now destruct (Hv items).
  - intros Ha Hc.
    destruct (cmd_send_run now author content s Ha Hc) as (s1 & s2 & He & Hsend & Hf & Hcmd).
    exists s2. rewrite Hcmd, Hload.
    assert (Hs1 : s1 = s).
    { unfold ensure_dirs in He. rewrite Hfile in He. now injection He as <-. }
    subst s1. split; [|split; [|exact Hf]].
    + destruct v; try reflexivity. now destruct (Hv items).
    + rewrite (send_message_ok _ _ _ _ _ _ (validate_author_ok _ Ha)
                 (validate_message_ok _ Hc)) in Hsend.
      injection Hsend as <-. simpl. apply lookup_put_same.
Qed.

(** With a registry file that holds a text, bob's send fails and yet his
    message is stored. *)
Lemma registry_not_a_mapping_witness :
  get_unread_for Iso.parse "bob" More.text_registry = Raise AttributeError
  /\ exists s',
      cmd_send Sample.t0 "bob" "hello" More.text_registry = (Raise TypeError, s')
      /\ Dir.lookup "2025-11-16T20-30-45.123456+00-00_bob.json" (messages_dir s')
         = Some (Doc Sample.hello)
      /\ last_seen_file s' = Some (Doc (VStr "oops")).
Proof.
  destruct (registry_not_a_mapping Iso.parse Sample.t0 "bob" "hello" "bob" [] VNone
              (VStr "oops") More.text_registry eq_refl) as (Hread & _ & Hsend).
  - discriminate.
  - split; [exact Hread|]. apply Hsend.
    + repeat split; [discriminate|vm_compute; discriminate|].
      repeat constructor.
    + split; [discriminate|vm_compute; discriminate].
Defined.

(** X16. A registry file that is missing or does not parse counts as empty
    and is replaced: every reader is given all messages, and a successful
    send command leaves a registry holding the sender's entry alone. *)
Theorem registry_unreadable :
  forall (fromisoformat : string -> option datetime)
         (now : datetime) (author content : string) (s : store),
    last_seen_file s = None \/ last_seen_file s = Some Corrupt ->
    (forall agent_name,
       get_unread_for fromisoformat agent_name s = get_all_messages s)
    /\ (author_constraints (Str.strip author) -> content_constraints (Str.strip content) ->
        exists m s',
          cmd_send now author content s = (Ok m, s')
          /\ last_seen_file s'
             = Some (Doc (VDict [(Str.strip author, VStr (DT.isoformat now))]))).
Proof.
  intros fromisoformat now author content s Hfile.
  assert (Hload : load_last_seen s = VDict [])
    by (unfold load_last_seen; destruct Hfile as [-> | ->]; reflexivity).
  split.
  - intros agent_name. apply (get_unread_for_no_cursor _ _ _ [] Hload). now left.
  - intros Ha Hc.
    destruct (cmd_send_run now author content s Ha Hc) as (s1 & s2 & _ & _ & _ & Hcmd).
    rewrite Hload in Hcmd. simpl in Hcmd. eexists. eexists. split; [exact Hcmd|reflexivity].
Qed.

(** With a registry file that does not parse, bob's send leaves a registry
    with his entry only. *)
Lemma registry_unreadable_witness :
  exists m s',
    cmd_send Sample.t0 "bob" "hello" More.corrupt_registry = (Ok m, s')
    /\ last_seen_file s'
       = Some (Doc (VDict [("bob", VStr "2025-11-16T20:30:45.123456+00:00")])).
Proof.
  destruct (registry_unreadable Iso.parse Sample.t0 "bob" "hello" More.corrupt_registry)
    as [_ H].
  - right. reflexivity.
  - apply H.
    + repeat split; [discriminate|vm_compute; discriminate|].
      repeat constructor.
    + split; [discriminate|vm_compute; discriminate].
Defined.

(** X17. After a successful send command the agents tool lists the sender:
    [list_known_agents] returns the registry written by the command, in which
    the trimmed author has the timestamp of the message, and changes
    nothing. *)
Theorem list_known_agents_after_send :
  forall (now : datetime) (author content : string) (s s' : store) (m : value),
    cmd_send now author content s = (Ok m, s') ->
    exists reg',
      list_known_agents s' = (Returned (VDict reg'), s')
      /\ load_last_seen s' = VDict reg'
      /\ Dict.find (Str.strip author) reg' = Some (VStr (DT.isoformat now)).
Proof.
  intros now author content s s' m H.
  destruct (cmd_send_inv _ _ _ _ _ _ H) as (reg & _ & _ & _ & Hreg).
  eexists. split; [|split].
  - unfold list_known_agents, guarded, bind_io, ensure_dirs, reading, lift, load_last_seen.
    rewrite Hreg. cbn beta iota. rewrite Hreg. reflexivity.
  - unfold load_last_seen. rewrite Hreg. reflexivity.
  - apply find_set_same.
Qed.

(** After carol's send into the sample store she is listed next to alice. *)
Lemma list_known_agents_after_send_witness :
  exists m s' reg',
    cmd_send More.t2 "carol" "hi" Sample.two = (Ok m, s')
    /\ list_known_agents s' = (Returned (VDict reg'), s')
    /\ Dict.find "carol" reg' = Some (VStr "2025-11-16T20:31:00.000008+00:00").
Proof.
  eexists. eexists.
  destruct (list_known_agents_after_send More.t2 "carol" "hi" Sample.two _ _ eq_refl)
    as (reg' & Hl & _ & Hf).
  exists reg'. split; [vm_compute; reflexivity|]. split; [exact Hl|exact Hf].
Defined.

(* ------------------------------------------------------------------ *)
(** ** A question and its answer *)

Lemma perm_filter :
  forall (A : Type) (q : A -> bool) (l l' : list A),
    Permutation l l' -> Permutation (filter q l) (filter q l').
Proof.
  intros A q l l' H. induction H; simpl.
  - constructor.
  - destruct (q x); [now constructor|assumption].
  - destruct (q x), (q y); try reflexivity. apply perm_swap.
  - etransitivity; eauto.
Qed.

Lemma filter_none :
  forall (A : Type) (q : A -> bool) (l : list A),
    (forall r, In r l -> q r = false) -> filter q l = [].
Proof.
  intros A q. induction l as [|x l IH]; intros H; simpl; [reflexivity|].
  rewrite (H x) by now left. apply IH. intros r Hr. apply H. now right.
Qed.

Lemma filter_put :
  forall (q : value -> bool) fn m d,
    Str.endswith fn ".json" = true ->
    q m = true ->
    (forall r,
       In r (flat_map (fun e => match snd e with
                                | Doc v => if Str.endswith (fst e) ".json" then [v] else []
                                | Corrupt => []
                                end) d) -> q r = false) ->
    filter q (flat_map (fun e => match snd e with
                                 | Doc v => if Str.endswith (fst e) ".json" then [v] else []
                                 | Corrupt => []
                                 end) (Dir.put fn (Doc m) d)) = [m].
Proof.
  intros q fn m d Hj Hm. induction d as [|[n g] d IH]; intros Hold; simpl.
  - rewrite Hj. simpl. now rewrite Hm.
  - simpl in Hold.
    assert (Hrest : forall r,
              In r (flat_map (fun e => match snd e with
                                       | Doc v => if Str.endswith (fst e) ".json" then [v] else []
                                       | Corrupt => []
                                       end) d) -> q r = false)
      by (intros r Hr; apply Hold; apply in_or_app; now right).
    destruct (String.eqb fn n) eqn:E; simpl.
    + rewrite Hj. simpl. rewrite Hm. f_equal. now apply filter_none.
    + rewrite filter_app, (IH Hrest).
      rewrite filter_none; [reflexivity|].
      intros r Hr. apply Hold. apply in_or_app. now left.
Qed.

Lemma comparable_trans :
  forall a b c, comparable a b -> comparable c b -> comparable a c.
Proof. unfold comparable. intros a b c H1 H2. tauto. Qed.

(** X18. A question and its answer. Let no stored message be later than the
    clock.  After one author's send command and then, at a later clock
    reading, another author's, the first author's unread messages are exactly
    the second author's message, and the second author has nothing unread. *)
Theorem poll_after_two_sends :
  forall (fromisoformat : string -> option datetime)
         (now1 now2 : datetime) (a b c1 c2 : string) (s s1 s2 : store) (m1 m2 : value),
    NoDup (names s) ->
    Forall (fun r => exists d, dated fromisoformat r d /\ comparable d now1
                               /\ instant d <= instant now1) (parsable s) ->
    fromisoformat (DT.isoformat now1) = Some now1 ->
    fromisoformat (DT.isoformat now2) = Some now2 ->
    comparable now2 now1 ->
    instant now1 < instant now2 ->
    Str.strip a <> Str.strip b ->
    cmd_send now1 a c1 s = (Ok m1, s1) ->
    cmd_send now2 b c2 s1 = (Ok m2, s2) ->
    get_unread_for fromisoformat (Str.strip a) s2 = Ok [m2]
    /\ get_unread_for fromisoformat (Str.strip b) s2 = Ok [].
Proof.
  intros fromisoformat now1 now2 a b c1 c2 s s1 s2 m1 m2
         Hnd Hold Hp1 Hp2 Hcmp Hlt Hab Hs1 Hs2.
  destruct (cmd_send_inv _ _ _ _ _ _ Hs1) as (reg & Hload & Hm1 & Hdir1 & Hreg1).
  destruct (cmd_send_inv _ _ _ _ _ _ Hs2) as (reg1 & Hload1 & Hm2 & Hdir2 & Hreg2).
  assert (Hreg1' : reg1 = Dict.set (Str.strip a) (VStr (DT.isoformat now1)) reg).
  { unfold load_last_seen in Hload1. rewrite Hreg1 in Hload1. congruence. }
  assert (Hload2 : load_last_seen s2
                   = VDict (Dict.set (Str.strip b) (VStr (DT.isoformat now2)) reg1))
    by (unfold load_last_seen; now rewrite Hreg2).
  assert (Hd1 : dated fromisoformat m1 now1)
    by (exists (DT.isoformat now1); split; [now rewrite Hm1|exact Hp1]).
  assert (Hd2 : dated fromisoformat m2 now2)
    by (exists (DT.isoformat now2); split; [now rewrite Hm2|exact Hp2]).
  rewrite Forall_forall in Hold.
  (* What is stored after the first send, and after the second. *)
  assert (Hin1 : forall r, In r (parsable s1) ->
                   exists d, dated fromisoformat r d /\ comparable d now1
                             /\ instant d <= instant now1).
  { intros r Hr. unfold parsable in Hr. rewrite Hdir1 in Hr.
    destruct (parsable_put _ _ _ _ Hr) as [->|Hr']; [|now apply Hold].
    exists now1. split; [exact Hd1|]. split; [unfold comparable; tauto|lia]. }
  assert (Hin2 : forall r, In r (parsable s2) ->
                   exists d, dated fromisoformat r d /\ comparable d now1
                             /\ instant d <= instant now2).
  { intros r Hr. unfold parsable in Hr. rewrite Hdir2 in Hr.
    destruct (parsable_put _ _ _ _ Hr) as [->|Hr'].
    - exists now2. split; [exact Hd2|]. split; [exact Hcmp|lia].
    - destruct (Hin1 r Hr') as (d & Hd & Hc & Hle). exists d.
      split; [exact Hd|]. split; [exact Hc|lia]. }
  assert (Hnd2 : NoDup (names s2)).
  { unfold names. rewrite Hdir2, Hdir1. now apply put_nodup, put_nodup. }
  assert (Hkeys : Forall (fun r => exists x, has_key r x) (parsable s2)).
  { rewrite Forall_forall. intros r Hr.
    destruct (Hin2 r Hr) as (d & (x & Hx & _) & _). exists x. now apply has_timestamp_key. }
  destruct (get_all_messages_spec s2 Hkeys) as (out & Hout & Hperm & _).
  assert (Hperm' : Permutation out (parsable s2)) by (rewrite Hperm; now apply read_all_perm).
  split.
  - (* the first author: cursor at the first send *)
    rewrite (get_unread_for_cursor fromisoformat _ _ _ (VStr (DT.isoformat now1)) now1 Hload2).
    + rewrite Hout. simpl.
      rewrite (filterM_filter _ _ (strictly_after fromisoformat now1)).
      * f_equal. apply Permutation_length_1_inv. symmetry.
        rewrite (perm_filter _ _ _ _ Hperm'). unfold parsable. rewrite Hdir2.
        rewrite filter_put; [reflexivity|apply message_filename_json| |].
        -- rewrite (strictly_after_dated _ _ _ _ Hd2). now apply Z.ltb_lt.
        -- intros r Hr. destruct (Hin1 r Hr) as (d & Hd & _ & Hle).
           rewrite (strictly_after_dated _ _ _ _ Hd). now apply Z.ltb_ge.
      * rewrite Forall_forall. intros r Hr.
        destruct (Hin2 r (Permutation_in _ Hperm' Hr)) as (d & Hd & Hc & _).
        rewrite (newer_than_dated _ _ _ _ Hd), (strictly_after_dated _ _ _ _ Hd).
        now apply gt_comparable.
    + rewrite find_set_other by (intros H; now apply Hab). rewrite Hreg1'.
      apply find_set_same.
    + simpl. now rewrite Hp1.
  - (* the second author: cursor at the second send *)
    rewrite (get_unread_for_cursor fromisoformat _ _ _ (VStr (DT.isoformat now2)) now2 Hload2).
    + rewrite Hout. simpl. apply filterM_none.
      rewrite Forall_forall. intros r Hr.
      destruct (Hin2 r (Permutation_in _ Hperm' Hr)) as (d & Hd & Hc & Hle).
      rewrite (newer_than_dated _ _ _ _ Hd).
      rewrite gt_comparable by (eapply comparable_trans; eauto).
      f_equal. now apply Z.ltb_ge.
    + apply find_set_same.
    + simpl. now rewrite Hp2.
Qed.

(** Alice asks and bob answers: alice is given bob's answer only, bob
    nothing. *)
Lemma poll_after_two_sends_witness :
  cmd_send Sample.t0 "Alice" "Question: X?" Sample.empty = (Ok More.question, More.asked)
  /\ cmd_send Sample.t1 "Bob" "Answer: Y." More.asked = (Ok More.answer, More.answered)
  /\ get_unread_for Iso.parse "Alice" More.answered = Ok [More.answer]
  /\ get_unread_for Iso.parse "Bob" More.answered = Ok [].
Proof.
  assert (H1 : cmd_send Sample.t0 "Alice" "Question: X?" Sample.empty
               = (Ok More.question, More.asked)) by (vm_compute; reflexivity).
  assert (H2 : cmd_send Sample.t1 "Bob" "Answer: Y." More.asked
               = (Ok More.answer, More.answered)) by (vm_compute; reflexivity).
  split; [exact H1|]. split; [exact H2|].
  apply (poll_after_two_sends Iso.parse Sample.t0 Sample.t1 "Alice" "Bob"
           "Question: X?" "Answer: Y." Sample.empty More.asked More.answered
           More.question More.answer); try assumption; try reflexivity.
  - constructor.
  - constructor.
  - split; intros H; discriminate H.
  - discriminate.
Defined.

(* ------------------------------------------------------------------ *)
(** ** What the commands keep true of the store *)

Lemma put_in_inv :
  forall fn f d e, In e (Dir.put fn f d) -> e = (fn, f) \/ In e d.
Proof.
  intros fn f d e. induction d as [|[n g] d IH]; simpl.
  - intros [<-|[]]. now left.
  - destruct (String.eqb fn n); simpl.
    + intros [<-|H]; auto.
    + intros [<-|H]; auto. destruct (IH H); auto.
Qed.

Lemma find_set_inv :
  forall k k' v v' reg,
    Dict.find k' (Dict.set k v reg) = Some v' -> v' = v \/ Dict.find k' reg = Some v'.
Proof.
  intros k k' v v' reg H. destruct (String.eqb k' k) eqn:E.
  - apply String.eqb_eq in E. subst. rewrite find_set_same in H. left. congruence.
  - apply String.eqb_neq in E. rewrite find_set_other in H by assumption. now right.
Qed.

Lemma cmd_send_invalid :
  forall now author content s s1,
    ensure_dirs s = (Ok tt, s1) ->
    ~ (author_constraints (Str.strip author) /\ content_constraints (Str.strip content)) ->
    snd (cmd_send now author content s) = s1.
Proof.
  intros now author content s s1 He Hbad.
  unfold cmd_send, bind_io. rewrite He. unfold send_message, bind_io, lift.
  destruct (validate_author_raises author) as [[r Ha]|[msg Ha]]; rewrite Ha;
    [|reflexivity].
  destruct (validate_message_raises content) as [[r' Hc]|[msg Hc]]; rewrite Hc;
    [|reflexivity].
  exfalso. apply Hbad.
  destruct (validate_author_inv _ _ Ha) as [-> Hca].
  destruct (validate_message_inv _ _ Hc) as [-> Hcc]. auto.
Qed.

Lemma store_ok_records :
  forall s, store_ok s ->
    forall r, In r (parsable s) ->
              exists d a c, valid_utc d /\ r = make_message a (DT.isoformat d) c.
Proof.
  intros s (_ & Hw & _) r Hr. unfold parsable in Hr. apply in_flat_map in Hr.
  destruct Hr as (e & He & Hr). destruct (Hw e He) as (d & a & c & Vd & _ & Hdoc).
  rewrite Hdoc in Hr. destruct (Str.endswith (fst e) ".json"); [|destruct Hr].
  destruct Hr as [<-|[]]. eauto.
Qed.

Lemma store_ok_ensure :
  forall s s1, store_ok s -> ensure_dirs s = (Ok tt, s1) -> store_ok s1.
Proof.
  intros s s1 (Hnd & Hw & reg & Hload & Hreg) He.
  destruct (ensure_dirs_spec s) as (s1' & He' & Hdir & Hload' & _).
  rewrite He in He'. injection He' as <-.
  unfold store_ok, names. rewrite Hdir, Hload'. eauto.
Qed.

Lemma store_ok_send :
  forall now author content s,
    store_ok s -> valid_utc now -> store_ok (snd (cmd_send now author content s)).
Proof.
  intros now author content s Hok Vnow.
  destruct (ensure_dirs_spec s) as (s1 & He & Hdir & Hload & _).
  pose proof (store_ok_ensure s s1 Hok He) as Hok1.
  destruct (validate_author_raises author) as [[r Ha]|[msg Ha]].
  - destruct (validate_message_raises content) as [[r' Hc]|[msg Hc]].
    + destruct (validate_author_inv _ _ Ha) as [-> Hca].
      destruct (validate_message_inv _ _ Hc) as [-> Hcc].
      destruct (cmd_send_run now author content s Hca Hcc)
        as (s1' & s2 & He' & Hsend & _ & Hcmd).
      rewrite He in He'. injection He' as <-.
      destruct Hok as (_ & _ & reg & Hreg & Hcur).
      rewrite Hcmd, Hreg. simpl.
      rewrite (send_message_ok _ _ _ _ _ _ Ha Hc) in Hsend. injection Hsend as <-.
      destruct Hok1 as (Hnd1 & Hw1 & _).
      split; [|split].
      * unfold names. simpl. now apply put_nodup.
      * simpl. intros e Hin. destruct (put_in_inv _ _ _ _ Hin) as [->|Hin']; [|auto].
        exists now, (Str.strip author), (Str.strip content). auto.
      * eexists. split; [reflexivity|].
        intros k v Hk. destruct (find_set_inv _ _ _ _ _ Hk) as [->|Hk']; eauto.
    + rewrite (cmd_send_invalid now author content s s1 He); [exact Hok1|].
      intros [_ Hcc]. rewrite (validate_message_ok _ Hcc) in Hc. discriminate.
  - rewrite (cmd_send_invalid now author content s s1 He); [exact Hok1|].
    intros [Hca _]. rewrite (validate_author_ok _ Hca) in Ha. discriminate.
Qed.

Section Kept.

Variable fromisoformat : string -> option datetime.

(** The parser reads back what the clock renders. *)
Hypothesis reads_back :
  forall d, valid_utc d -> fromisoformat (DT.isoformat d) = Some d.

Lemma store_ok_sent :
  forall s, store_ok s -> Forall (sent fromisoformat) (parsable s).
Proof.
  intros s Hok. rewrite Forall_forall. intros r Hr.
  destruct (store_ok_records s Hok r Hr) as (d & a & c & Vd & ->).
  exists d. repeat split; auto; apply Vd.
Qed.

Lemma store_ok_unread :
  forall s agent_name,
    store_ok s ->
    exists unread,
      get_unread_for fromisoformat agent_name s = Ok unread
      /\ forall m, In m unread -> In m (parsable s).
Proof.
  intros s agent_name Hok.
  pose proof (store_ok_records s Hok) as Hrec.
  destruct Hok as (Hnd & Hw & reg & Hload & Hcur).
  assert (Hkeys : Forall (fun m => exists x, has_key m x) (parsable s)).
  { rewrite Forall_forall. intros r Hr. destruct (Hrec r Hr) as (d & a & c & _ & ->).
    now exists (DT.isoformat d). }
  destruct (get_all_messages_spec s Hkeys) as (out & Hout & Hperm & _).
  assert (Hin : forall m, In m out -> In m (parsable s)).
  { intros m Hm. apply read_all_incl. eapply Permutation_in; eauto. }
  destruct (Dict.find agent_name reg) as [v|] eqn:Hfind.
  - destruct (Hcur _ _ Hfind) as (t & Vt & ->).
    exists (filter (strictly_after fromisoformat t) out). split.
    + rewrite (get_unread_for_cursor fromisoformat _ _ _ _ t Hload Hfind)
        by (simpl; now rewrite (reads_back t Vt)).
      rewrite Hout. simpl. apply filterM_filter.
      rewrite Forall_forall. intros r Hr.
      destruct (Hrec r (Hin r Hr)) as (d & a & c & Vd & ->).
      assert (Hd : dated fromisoformat (make_message a (DT.isoformat d) c) d)
        by (exists (DT.isoformat d); split; [reflexivity|now apply reads_back]).
      rewrite (newer_than_dated _ _ _ _ Hd), (strictly_after_dated _ _ _ _ Hd).
      apply gt_comparable. destruct Vd as (Od & _), Vt as (Ot & _).
      unfold comparable. rewrite Od, Ot. split; discriminate.
    + intros m Hm. apply filter_In in Hm. now apply Hin.
  - exists out. split; [|exact Hin].
    rewrite (get_unread_for_no_cursor _ _ _ _ Hload); [exact Hout|now left].
Qed.

Lemma store_ok_get_messages :
  forall s for_agent,
    store_ok s -> store_ok (snd (cmd_get_messages fromisoformat for_agent s)).
Proof.
  intros s for_agent Hok.
  destruct (ensure_dirs_spec s) as (s1 & He & Hdir & Hload & _).
  pose proof (store_ok_ensure s s1 Hok He) as Hok1.
  assert (Hall : snd (bind_io ensure_dirs (fun _ s => (get_all_messages s, s)) s) = s1)
    by (unfold bind_io; now rewrite He).
  destruct for_agent as [name|]; [|unfold cmd_get_messages; now rewrite Hall].
  destruct (String.eqb name "") eqn:Hname.
  { unfold cmd_get_messages. rewrite Hname. now rewrite Hall. }
  apply String.eqb_neq in Hname.
  rewrite (cmd_get_messages_for _ _ _ _ Hname He).
  destruct (store_ok_unread s1 name Hok1) as (unread & Hunread & Hin).
  rewrite Hunread. destruct unread as [|m unread]; [exact Hok1|].
  assert (Hlast : In (last (m :: unread) VNone) (parsable s1))
    by (apply Hin, last_in; discriminate).
  destruct (store_ok_records s1 Hok1 _ Hlast) as (d & a & c & Vd & Hrec).
  destruct Hok1 as (Hnd1 & Hw1 & reg & Hreg & Hcur).
  unfold update_last_seen, bind_io, lift, reading, save_last_seen, atomic_write.
  rewrite Hrec, Hreg. simpl.
  split; [exact Hnd1|]. split; [exact Hw1|].
  eexists. split; [reflexivity|].
  intros k v Hk. destruct (find_set_inv _ _ _ _ _ Hk) as [->|Hk']; eauto.
Qed.

(** X19. The commands keep the store readable. Let the parser read back
    every timestamp the clock renders.  In every store that send and
    get-messages commands produce from an empty directory, the clock staying
    in range, each file name is listed once and names the message it holds,
    the registry is a mapping of readers to rendered timestamps, reading all
    messages and reading any reader's unread messages return a list rather
    than raise, and the order of the timestamp texts is the order of the
    instants. *)
Theorem reachable_store_reads :
  forall (s : store),
    reachable fromisoformat s ->
    store_ok s
    /\ (exists all_msgs, get_all_messages s = Ok all_msgs)
    /\ (forall agent_name,
          exists unread, get_unread_for fromisoformat agent_name s = Ok unread)
    /\ chronological fromisoformat (parsable s).
Proof.
  intros s Hreach.
  assert (Hok : store_ok s).
  { induction Hreach.
    - split; [constructor|]. split; [intros e []|].
      exists []. split; [reflexivity|]. intros k v Hk. discriminate.
    - now apply store_ok_send.
    - now apply store_ok_get_messages. }
  split; [exact Hok|]. split; [|split].
  - destruct (store_ok_unread s "" Hok) as (unread & Hunread & _).
    unfold get_unread_for in Hunread.
    destruct (load_last_seen s); try discriminate. simpl in Hunread.
    destruct (get_all_messages s) as [all_msgs|]; [eauto|discriminate].
  - intros agent_name. destruct (store_ok_unread s agent_name Hok) as (unread & H & _).
    eauto.
  - apply sent_chronological. now apply store_ok_sent.
Qed.

End Kept.

(** The store after alice's question and bob's answer is one the commands
    produce; with the sample parser every read of it returns. *)
Lemma reachable_store_reads_witness :
  reachable Iso.parse More.answered
  /\ (exists all_msgs, get_all_messages More.answered = Ok all_msgs)
  /\ (forall agent_name,
        exists unread, get_unread_for Iso.parse agent_name More.answered = Ok unread).
Proof.
  assert (Hreach : reachable Iso.parse More.answered).
  { change More.answered
      with (snd (cmd_send Sample.t1 "Bob" "Answer: Y."
                   (snd (cmd_send Sample.t0 "Alice" "Question: X?" (mkstore [] None []))))).
    apply reach_send; [apply reach_send; [apply reach_empty|in_range]|in_range]. }
  split; [exact Hreach|].
  destruct (reachable_store_reads Iso.parse parse_isoformat More.answered Hreach)
    as (_ & Hall & Hunread & _).
  split; [exact Hall|exact Hunread].
Defined.

(* ------------------------------------------------------------------ *)
(** ** Who writes message files *)

Lemma keeps_pure :
  forall (R : Type) (f : store -> R), keeps_messages (fun s => (f s, s)).
Proof. intros R f s. split; [reflexivity|auto]. Qed.

Lemma keeps_bind :
  forall (A B : Type) (m : io A) (k : A -> io B),
    keeps_messages m -> (forall a, keeps_messages (k a)) ->
    keeps_messages (bind_io m k).
Proof.
  intros A B m k Hm Hk s. unfold bind_io.
  destruct (Hm s) as [Hd Hj]. destruct (m s) as [[a|e] s1]; simpl in *.
  - destruct (Hk a s1) as [Hd' Hj']. split; [congruence|auto].
  - split; assumption.
Qed.

Lemma keeps_guarded :
  forall (A : Type) (msg : string) (m : io A),
    keeps_messages m -> keeps_messages (guarded msg m).
Proof.
  intros A msg m Hm s. unfold guarded.
  destruct (Hm s) as [Hd Hj]. destruct (m s) as [[a|e] s1]; simpl in *; auto.
Qed.

Lemma keeps_ensure_dirs : keeps_messages ensure_dirs.
Proof.
  intros s. unfold ensure_dirs. destruct (last_seen_file s); simpl.
  - split; [reflexivity|auto].
  - split; [reflexivity|]. intros fn Hin. apply in_app_or in Hin.
    destruct Hin as [Hin|[Hin|[]]]; [exact Hin|discriminate].
Qed.

Lemma keeps_save_last_seen :
  forall d, keeps_messages (save_last_seen d).
Proof.
  intros d s. unfold save_last_seen, atomic_write. simpl.
  split; [reflexivity|]. intros fn Hin. apply in_app_or in Hin.
  destruct Hin as [Hin|[Hin|[]]]; [exact Hin|discriminate].
Qed.

Lemma keeps_update_last_seen :
  forall agent_name msgs, keeps_messages (update_last_seen agent_name msgs).
Proof.
  intros agent_name msgs. unfold update_last_seen.
  destruct msgs as [|m msgs]; [apply keeps_pure|].
  apply keeps_bind; [apply keeps_pure|]. intros ts.
  apply keeps_bind; [apply keeps_pure|]. intros reg.
  apply keeps_bind; [apply keeps_pure|]. intros reg'.
  apply keeps_save_last_seen.
Qed.

Lemma keeps_poll :
  forall fromisoformat agent_name,
    keeps_messages
      (bind_io (fun s => (get_unread_for fromisoformat agent_name s, s))
               (fun unread =>
                  match unread with
                  | [] => ret unread
                  | _ => bind_io (update_last_seen agent_name unread)
                                 (fun _ => ret unread)
                  end)).
Proof.
  intros fromisoformat agent_name.
  apply keeps_bind; [apply keeps_pure|]. intros unread.
  destruct unread as [|m unread]; [apply keeps_pure|].
  apply keeps_bind; [apply keeps_update_last_seen|]. intros _. apply keeps_pure.
Qed.

(** X20. Only sending writes message files: the get-messages command, the
    poll tool, the all-messages tool, the agents tool and advancing a cursor
    return the messages directory they were given and write no message file,
    whatever the store holds and whether they return or raise; a send tool
    call refused for a blank author or message leaves the store untouched. *)
Theorem readers_keep_messages :
  forall (fromisoformat : string -> option datetime),
    (forall for_agent, keeps_messages (cmd_get_messages fromisoformat for_agent))
    /\ (forall for_agent, keeps_messages (get_agent_messages fromisoformat for_agent))
    /\ keeps_messages get_all_agent_messages
    /\ keeps_messages list_known_agents
    /\ (forall agent_name msgs, keeps_messages (update_last_seen agent_name msgs))
    /\ (forall now author message s,
          blank author || blank message = true ->
          snd (send_agent_message now author message s) = s).
Proof.
  intros fromisoformat.
  split; [|split; [|split; [|split; [|split]]]].
  - intros for_agent. unfold cmd_get_messages.
    apply keeps_bind; [apply keeps_ensure_dirs|]. intros _.
    destruct for_agent as [name|]; [|apply keeps_pure].
    destruct (String.eqb name ""); [apply keeps_pure|apply keeps_poll].
  - intros for_agent s. unfold get_agent_messages.
    destruct (blank for_agent); [split; [reflexivity|auto]|].
    apply (keeps_guarded _ _ _
             (keeps_bind _ _ _ _ keeps_ensure_dirs
                (fun _ => keeps_poll fromisoformat (Str.strip for_agent))) s).
  - apply keeps_guarded, keeps_bind; [apply keeps_ensure_dirs|]. intros _. apply keeps_pure.
  - apply keeps_guarded, keeps_bind; [apply keeps_ensure_dirs|]. intros _.
    apply keeps_bind; [apply keeps_pure|]. intros reg.
    apply keeps_bind; [apply keeps_pure|]. intros n. apply keeps_pure.
  - apply keeps_update_last_seen.
  - intros now author message s Hblank. unfold send_agent_message.
    destruct (blank author); [reflexivity|]. simpl in Hblank. now rewrite Hblank.
Qed.

Lemma readers_keep_messages_witness :
  blank "   " || blank "hello" = true
  /\ snd (send_agent_message Sample.t0 "   " "hello" Sample.two) = Sample.two.
Proof.
  split; [reflexivity|].
  apply (readers_keep_messages Iso.parse); reflexivity.
Defined.
